(** * The vacation benchmark driver (vacation.c) and the TL2 macro layer (tm.h)

    A shallow embedding of [src/vacation/vacation.c] and [src/lib/tl2/tm.h].
    C [long] values are [Z] with their range written out, [double] values are
    IEEE-754 binary64 numbers ([spec_float] at precision 53), the standard
    output is a [string], and the collaborators the driver only calls
    (random.h, manager.h, client.h, thread.h, timer.h, the allocator) are the
    fields of one interface record. *)

From Stdlib Require Import ZArith Lia String Ascii List Bool DecimalString.
From Stdlib Require Import Floats.SpecFloat.
From Stdlib Require Import Reals Lra.
From stdpp Require Import base list gmap.

Open Scope Z_scope.

(** ** C integer types *)

Definition LONG_MAX : Z := 2 ^ 63 - 1.
Definition LONG_MIN : Z := - 2 ^ 63.
Definition ULONG_MODULUS : Z := 2 ^ 64.

Definition in_long (z : Z) : bool := (LONG_MIN <=? z) && (z <=? LONG_MAX).

(** Conversion to [unsigned long] (reduction modulo 2^64) and back. *)
Definition ulong (z : Z) : Z := z mod ULONG_MODULUS.
Definition long_of_ulong (u : Z) : Z := if u <=? LONG_MAX then u else u - ULONG_MODULUS.

Definition sizeof_long : Z := 8.
Definition sizeof_ptr : Z := 8.

(** ** IEEE-754 binary64 *)

Module Double.

Definition prec : Z := 53.
Definition emax : Z := 1024.

Definition double := spec_float.

Definition add : double -> double -> double := SFadd prec emax.
Definition mul : double -> double -> double := SFmul prec emax.
Definition div : double -> double -> double := SFdiv prec emax.

(** [(double)z] for an integer [z]: round to nearest, ties to even. *)
Definition of_long (z : Z) : double := binary_normalize prec emax z 0 false.

(** The literals [100.0] and [0.5]. *)
Definition lit_100 : double := binary_normalize prec emax 100 0 false.
Definition lit_0_5 : double := binary_normalize prec emax 1 (-1) false.

(** [(long)d]: the fractional part is discarded; the behaviour is undefined
    ([None]) when the truncated value is not a [long] (C11 6.3.1.4). *)
Definition to_long (d : double) : option Z :=
  match d with
  | S754_zero _ => Some 0
  | S754_finite s m e =>
      let a := Z.shiftl (Zpos m) e in
      let v := if s then - a else a in
      if in_long v then Some v else None
  | S754_infinity _ | S754_nan => None
  end.

End Double.

Abbreviation double := Double.double.

(** ** libc: atol, getopt, printf conversions *)

Module Libc.

Definition isspace (c : ascii) : bool :=
  let n := Z.of_N (N_of_ascii c) in (n =? 32) || ((9 <=? n) && (n <=? 13)).

Definition digit_val (c : ascii) : option Z :=
  let n := Z.of_N (N_of_ascii c) in
  if (48 <=? n) && (n <=? 57) then Some (n - 48) else None.

Fixpoint skip_spaces (s : list ascii) : list ascii :=
  match s with
  | c :: s' => if isspace c then skip_spaces s' else s
  | [] => []
  end.

Fixpoint strtol_digits (acc : Z) (s : list ascii) : Z :=
  match s with
  | c :: s' =>
      match digit_val c with
      | Some d => strtol_digits (acc * 10 + d) s'
      | None => acc
      end
  | [] => acc
  end.

Definition clamp_long (z : Z) : Z := Z.max LONG_MIN (Z.min LONG_MAX z).

(** [atol s] is [strtol(s, NULL, 10)]: leading white space, an optional
    sign, then decimal digits; the value saturates at the ends of [long]. *)
Definition atol (s : string) : Z :=
  let s1 := skip_spaces (list_ascii_of_string s) in
  match s1 with
  | "-"%char :: s2 => clamp_long (- strtol_digits 0 s2)
  | "+"%char :: s2 => clamp_long (strtol_digits 0 s2)
  | _ => clamp_long (strtol_digits 0 s1)
  end.

(** *** getopt

    The scanner state is what [optind] and the private [nextchar] of the C
    library designate: the elements of [argv] not yet scanned, the rest of
    the option cluster being scanned, and the non-options already passed
    over (GNU getopt moves them behind the options). *)

Record getopt_state := {
  g_rest : list string;
  g_nextchar : list ascii;
  g_nonopts : list string
}.

Inductive getopt_result :=
| GOpt (c : ascii) (optarg : string)   (* an option of optstring, with its argument *)
| GErr (optopt : ascii)                (* '?' *)
| GEnd.                                (* -1 *)

(** [strchr(optstring, c)] followed by the test of the next character. *)
Inductive opt_kind := NoSuchOption | NoArgument | RequiredArgument.

Fixpoint opt_lookup (c : ascii) (optstring : list ascii) : opt_kind :=
  match optstring with
  | [] => NoSuchOption
  | o :: os =>
      if Ascii.eqb o c then
        match os with
        | ":"%char :: _ => RequiredArgument
        | _ => NoArgument
        end
      else opt_lookup c os
  end.

Definition opt_kind_of (optstring : string) (c : ascii) : opt_kind :=
  if Ascii.eqb c ":" || Ascii.eqb c ";" then NoSuchOption
  else opt_lookup c (list_ascii_of_string optstring).

Inductive advance :=
| Cluster (c : ascii) (cs : list ascii) (rest nonopts : list string)
| Finished (nonopts : list string).

(** Move to the next option element.  [posix] is POSIXLY_CORRECT: the scan
    stops at the first non-option; otherwise non-options are skipped and
    collected.  The element "--" ends the options in both modes. *)
Fixpoint next_element (posix : bool) (rest nonopts : list string) : advance :=
  match rest with
  | [] => Finished nonopts
  | a :: rest' =>
      match list_ascii_of_string a with
      | "-"%char :: c :: cs =>
          if Ascii.eqb c "-" && match cs with [] => true | _ => false end
          then Finished (nonopts ++ rest')
          else Cluster c cs rest' nonopts
      | _ =>
          if posix then Finished (nonopts ++ a :: rest')
          else next_element posix rest' (nonopts ++ [a])
      end
  end.

Definition scan_option (optstring : string) (c : ascii) (cs : list ascii)
    (rest nonopts : list string) : getopt_result * getopt_state :=
  match opt_kind_of optstring c with
  | NoSuchOption =>
      (GErr c, {| g_rest := rest; g_nextchar := cs; g_nonopts := nonopts |})
  | NoArgument =>
      (GOpt c EmptyString, {| g_rest := rest; g_nextchar := cs; g_nonopts := nonopts |})
  | RequiredArgument =>
      match cs with
      | _ :: _ =>
          (GOpt c (string_of_list_ascii cs),
           {| g_rest := rest; g_nextchar := []; g_nonopts := nonopts |})
      | [] =>
          match rest with
          | [] => (GErr c, {| g_rest := []; g_nextchar := []; g_nonopts := nonopts |})
          | a :: rest' =>
              (GOpt c a, {| g_rest := rest'; g_nextchar := []; g_nonopts := nonopts |})
          end
      end
  end.

Definition getopt (posix : bool) (optstring : string) (st : getopt_state)
    : getopt_result * getopt_state :=
  match g_nextchar st with
  | c :: cs => scan_option optstring c cs (g_rest st) (g_nonopts st)
  | [] =>
      match next_element posix (g_rest st) (g_nonopts st) with
      | Cluster c cs rest nonopts => scan_option optstring c cs rest nonopts
      | Finished nonopts =>
          (GEnd, {| g_rest := []; g_nextchar := []; g_nonopts := nonopts |})
      end
  end.

(** The scan starts at [optind = 1]. *)
Definition getopt_init (argv : list string) : getopt_state :=
  {| g_rest := tl argv; g_nextchar := []; g_nonopts := [] |}.

(** Every call that returns an option or '?' consumes input: this measure
    of the state decreases. *)
Definition getopt_measure (st : getopt_state) : nat :=
  (length (g_nextchar st)
   + fold_right (fun a n => S (String.length a) + n) 0 (g_rest st))%nat.

(** What [getopt] writes to the standard error stream when it returns '?'
    and [opterr] is not zero (the wording is glibc's): the option character
    is not in [optstring], or its argument is missing. *)
Definition getopt_message (optstring argv0 : string) (optopt : ascii) : string :=
  match opt_kind_of optstring optopt with
  | NoSuchOption =>
      argv0 ++ ": invalid option -- '" ++ String optopt "'" ++ String "010" EmptyString
  | _ =>
      argv0 ++ ": option requires an argument -- '" ++ String optopt "'"
      ++ String "010" EmptyString
  end.

(** *** printf conversions *)

(** [%li] and [%i]. *)
Definition fmt_li (z : Z) : string := NilZero.string_of_int (Z.to_int z).

Definition digit_char (d : Z) : ascii := ascii_of_N (Z.to_N (48 + d)).

(** The six digits after the decimal point. *)
Definition frac6 (n : Z) : string :=
  string_of_list_ascii
    (map (fun k => digit_char ((n / 10 ^ k) mod 10)) [5; 4; 3; 2; 1; 0]).

(** [|d| * 10^6] rounded to an integer, ties to even (the conversion is
    exact and follows the current rounding mode). *)
Definition scaled6 (m : positive) (e : Z) : Z :=
  if 0 <=? e then Zpos m * 2 ^ e * 10 ^ 6
  else
    let num := Zpos m * 10 ^ 6 in
    let den := 2 ^ (- e) in
    let q := num / den in
    let r := num mod den in
    match 2 * r ?= den with
    | Lt => q
    | Eq => if Z.even q then q else q + 1
    | Gt => q + 1
    end.

Definition fmt_fixed6 (s : bool) (n : Z) : string :=
  ((if s then "-" else "") ++ fmt_li (n / 10 ^ 6) ++ "." ++ frac6 (n mod 10 ^ 6))%string.

(** [%0.6lf]: the [0] flag has no effect without a field width and the [l]
    modifier has none on [f], so this is [%.6f]. *)
Definition fmt_0_6lf (d : double) : string :=
  match d with
  | S754_zero s => fmt_fixed6 s 0
  | S754_finite s m e => fmt_fixed6 s (scaled6 m e)
  | S754_infinity s => if s then "-inf"%string else "inf"%string
  | S754_nan => "nan"%string
  end.

End Libc.

(** ** The process: output, calls into the collaborators, termination *)

(** The log of the calls the driver makes into the operations of manager.h
    on the tables, into [client_alloc] and [client_free], into
    [thread_startup], [thread_start] and [thread_shutdown], and into
    [manager_free], in the order it makes them.  The calls of random.h and
    the call of [manager_alloc] are not logged: they are represented by
    what they return. *)
Inductive call :=
| CallAdd (t : Z) (id num price : Z) (status : bool)
| CallDeleteCustomer (id : Z)
| CallQueryCar (id : Z)
| CallDeleteCar (id num : Z)
| CallDeleteFlight (id : Z)
| CallQueryRoom (id : Z)
| CallDeleteRoom (id num : Z)
| CallClientAlloc (id numOperation numQueryPerTransaction queryRange percentUser : Z)
| CallThreadStartup (numThread : Z)
| CallThreadStart (numClient : Z)
| CallClientFree (i : Z)               (* client_free(clients[i]) *)
| CallManagerFree
| CallThreadShutdown.

Record world := {
  w_stdout : string;
  w_stderr : string;
  w_calls : list call
}.

Definition world_init : world :=
  {| w_stdout := EmptyString; w_stderr := EmptyString; w_calls := [] |}.

(** How a process ends: [exit(code)] or return from main, [abort()] from a
    failed [assert], or undefined behaviour. *)
Inductive outcome :=
| Exit (code : Z)
| Abort
| Undefined.

Inductive res (A : Type) :=
| Ret (a : A)
| Halt (o : outcome).
Arguments Ret {A} a.
Arguments Halt {A} o.

Definition M (A : Type) : Type := world -> res A * world.

Definition ret {A} (a : A) : M A := fun w => (Ret a, w).

Definition bind {A B} (m : M A) (k : A -> M B) : M B :=
  fun w =>
    match m w with
    | (Ret a, w') => k a w'
    | (Halt o, w') => (Halt o, w')
    end.

Declare Scope m_scope.
Delimit Scope m_scope with M.
Notation "x <- m ;; k" := (bind m (fun x => k))
  (at level 100, m at next level, right associativity) : m_scope.
Notation "m ;; k" := (bind m (fun _ => k))
  (at level 100, right associativity) : m_scope.
Open Scope m_scope.

Definition halt {A} (o : outcome) : M A := fun w => (Halt o, w).
Definition exit {A} (code : Z) : M A := halt (Exit code).

(** Dereferencing a pointer that may be NULL or out of bounds. *)
Definition deref {A} (p : option A) : M A :=
  match p with
  | Some a => ret a
  | None => halt Undefined
  end.

Definition printf (s : string) : M unit :=
  fun w => (Ret tt, {| w_stdout := (w_stdout w ++ s)%string;
                       w_stderr := w_stderr w; w_calls := w_calls w |}).

Definition puts (s : string) : M unit := printf (s ++ String "010" EmptyString)%string.

Definition fprintf_stderr (s : string) : M unit :=
  fun w => (Ret tt, {| w_stdout := w_stdout w;
                       w_stderr := (w_stderr w ++ s)%string; w_calls := w_calls w |}).

(** [assert(b)] with NDEBUG undefined: when [b] is false the macro writes a
    diagnostic to the standard error stream and calls [abort()].  [message]
    is that diagnostic. *)
Definition assert (message : string) (b : bool) : M unit :=
  if b then ret tt else (fprintf_stderr message ;; halt Abort).

(** [p = alloc(); assert(p != NULL);] *)
Definition assert_ptr {A} (message : string) (p : option A) : M A :=
  match p with
  | Some a => ret a
  | None => fprintf_stderr message ;; halt Abort
  end.

Definition log_call (c : call) : M unit :=
  fun w => (Ret tt, {| w_stdout := w_stdout w; w_stderr := w_stderr w;
                       w_calls := w_calls w ++ [c] |}).

(** [for (i = 0; i < n; i++) s = body(i, s);] *)
Fixpoint for_from {S : Type} (count : nat) (i : Z) (body : Z -> S -> M S) (s : S) : M S :=
  match count with
  | O => ret s
  | Datatypes.S count' => s' <- body i s ;; for_from count' (i + 1) body s'
  end.

Definition for_loop {S : Type} (n : Z) (body : Z -> S -> M S) (s : S) : M S :=
  for_from (Z.to_nat n) 0 body s.

Definition nl : string := String "010" EmptyString.

(** ** vacation.c: parameters *)

Definition PARAM_CLIENTS : ascii := "c".
Definition PARAM_NUMBER : ascii := "n".
Definition PARAM_QUERIES : ascii := "q".
Definition PARAM_RELATIONS : ascii := "r".
Definition PARAM_TRANSACTIONS : ascii := "t".
Definition PARAM_USER : ascii := "u".

Definition PARAM_DEFAULT_CLIENTS : Z := 1.
Definition PARAM_DEFAULT_NUMBER : Z := 10.
Definition PARAM_DEFAULT_QUERIES : Z := 90.
Definition PARAM_DEFAULT_RELATIONS : Z := Z.shiftl 1 16.
Definition PARAM_DEFAULT_TRANSACTIONS : Z := Z.shiftl 1 26.
Definition PARAM_DEFAULT_USER : Z := 80.

(** [double global_params[256]], indexed by an [unsigned char]; a global, so
    every entry starts as [+0.0]. *)
Definition params : Type := ascii -> double.

Definition global_params_init : params := fun _ => S754_zero false.

Definition set_param (gp : params) (i : ascii) (d : double) : params :=
  fun j => if Ascii.eqb i j then d else gp j.

(** *** displayUsage *)
Definition displayUsage {A} (appName : string) : M A :=
  printf ("Usage: " ++ appName ++ " [options]" ++ nl) ;;
  puts (nl ++ "Options:                                             (defaults)" ++ nl) ;;
  printf ("    c <UINT>   Number of [c]lients                   ("
            ++ Libc.fmt_li PARAM_DEFAULT_CLIENTS ++ ")" ++ nl) ;;
  printf ("    n <UINT>   [n]umber of user queries/transaction  ("
            ++ Libc.fmt_li PARAM_DEFAULT_NUMBER ++ ")" ++ nl) ;;
  printf ("    q <UINT>   Percentage of relations [q]ueried     ("
            ++ Libc.fmt_li PARAM_DEFAULT_QUERIES ++ ")" ++ nl) ;;
  printf ("    r <UINT>   Number of possible [r]elations        ("
            ++ Libc.fmt_li PARAM_DEFAULT_RELATIONS ++ ")" ++ nl) ;;
  printf ("    t <UINT>   Number of [t]ransactions              ("
            ++ Libc.fmt_li PARAM_DEFAULT_TRANSACTIONS ++ ")" ++ nl) ;;
  printf ("    u <UINT>   Percentage of [u]ser transactions     ("
            ++ Libc.fmt_li PARAM_DEFAULT_USER ++ ")" ++ nl) ;;
  exit 1.

(** *** setDefaultParams *)
Definition setDefaultParams (gp : params) : params :=
  let gp := set_param gp PARAM_CLIENTS (Double.of_long PARAM_DEFAULT_CLIENTS) in
  let gp := set_param gp PARAM_NUMBER (Double.of_long PARAM_DEFAULT_NUMBER) in
  let gp := set_param gp PARAM_QUERIES (Double.of_long PARAM_DEFAULT_QUERIES) in
  let gp := set_param gp PARAM_RELATIONS (Double.of_long PARAM_DEFAULT_RELATIONS) in
  let gp := set_param gp PARAM_TRANSACTIONS (Double.of_long PARAM_DEFAULT_TRANSACTIONS) in
  let gp := set_param gp PARAM_USER (Double.of_long PARAM_DEFAULT_USER) in
  gp.

(** *** parseArgs *)

Definition optstring : string := "c:n:q:r:t:u:".

Definition is_param_flag (c : ascii) : bool :=
  Ascii.eqb c "c" || Ascii.eqb c "n" || Ascii.eqb c "q"
  || Ascii.eqb c "r" || Ascii.eqb c "t" || Ascii.eqb c "u".

(** The body of the [switch]: the six flags store [atol(optarg)]; '?' and
    anything else count an error.  [opterr] is an [int]; it is incremented at
    most once per character of the command line, so it does not wrap. *)
Definition parse_step (r : Libc.getopt_result) (gp : params) (opterr : Z) : params * Z :=
  match r with
  | Libc.GOpt c optarg =>
      if is_param_flag c then (set_param gp c (Double.of_long (Libc.atol optarg)), opterr)
      else (gp, opterr + 1)
  | _ => (gp, opterr + 1)
  end.

(** One call [getopt(argc, argv, "c:n:q:r:t:u:")].  The counter of
    [parseArgs] is [getopt]'s own global [opterr]: when it is not zero,
    [getopt] reports the error it returns '?' for on the standard error
    stream. *)
Definition getopt_opterr (posix : bool) (argv0 : string) (opterr : Z)
    (st : Libc.getopt_state) : M (Libc.getopt_result * Libc.getopt_state) :=
  let rs := Libc.getopt posix optstring st in
  match fst rs with
  | Libc.GErr optopt =>
      (if opterr =? 0 then ret tt
       else fprintf_stderr (Libc.getopt_message optstring argv0 optopt)) ;;
      ret rs
  | _ => ret rs
  end.

(** [while ((opt = getopt(argc, argv, "c:n:q:r:t:u:")) != -1) { ... }];
    the loop is cut short only when [fuel] calls were not enough. *)
Fixpoint parse_loop (posix : bool) (argv0 : string) (fuel : nat)
    (st : Libc.getopt_state) (gp : params) (opterr : Z)
    : M (params * Z * list string) :=
  match fuel with
  | O => halt Undefined
  | S fuel' =>
      rs <- getopt_opterr posix argv0 opterr st ;;
      match fst rs with
      | Libc.GEnd => ret (gp, opterr, Libc.g_nonopts (snd rs))
      | r =>
          let '(gp', opterr') := parse_step r gp opterr in
          parse_loop posix argv0 fuel' (snd rs) gp' opterr'
      end
  end.

(** The [for] loop over [argv[optind..argc)]. *)
Fixpoint report_nonopts (nonopts : list string) (opterr : Z) : M Z :=
  match nonopts with
  | [] => ret opterr
  | a :: rest =>
      fprintf_stderr ("Non-option argument: " ++ a ++ nl) ;;
      report_nonopts rest (opterr + 1)
  end.

Definition parseArgs (posix : bool) (argv : list string) : M params :=
  let opterr := 0 in
  let gp := setDefaultParams global_params_init in
  let st := Libc.getopt_init argv in
  parsed <- parse_loop posix (hd EmptyString argv) (S (Libc.getopt_measure st)) st gp
                       opterr ;;
  let '(gp, opterr, nonopts) := parsed in
  opterr <- report_nonopts nonopts opterr ;;
  if opterr =? 0 then ret gp else displayUsage (hd EmptyString argv).


(** ** The collaborators of vacation.c

    The functions and macros vacation.c uses from random.h, manager.h,
    client.h, thread.h, timer.h and stdlib.h.  Objects the C code reaches
    through a pointer and mutates are passed in and returned. *)

Class Collaborators := {
  (* random.h *)
  random_t : Type;
  random_alloc : option random_t;
  random_generate : random_t -> Z * random_t;
  (* manager.h *)
  manager_t : Type;
  manager_alloc : option manager_t;
  manager_addCar_seq : manager_t -> Z -> Z -> Z -> bool * manager_t;
  manager_addFlight_seq : manager_t -> Z -> Z -> Z -> bool * manager_t;
  manager_addRoom_seq : manager_t -> Z -> Z -> Z -> bool * manager_t;
  manager_addCustomer_seq : manager_t -> Z -> bool * manager_t;
  manager_deleteCustomer_seq : manager_t -> Z -> bool * manager_t;
  manager_queryCar_seq : manager_t -> Z -> Z;
  manager_deleteCar_seq : manager_t -> Z -> Z -> bool * manager_t;
  manager_deleteFlight_seq : manager_t -> Z -> bool * manager_t;
  manager_queryRoom_seq : manager_t -> Z -> Z;
  manager_deleteRoom_seq : manager_t -> Z -> Z -> bool * manager_t;
  (* client.h *)
  client_t : Type;
  client_alloc : Z -> Z -> Z -> Z -> Z -> option client_t;
  (* thread.h: [thread_startup] returns unless one of its own assertions
     fails, and then it writes [thread_startup_message];
     [thread_start(client_run, clients)] returns the manager as the
     parallel phase leaves it *)
  thread_startup : Z -> bool;
  thread_startup_message : Z -> string;
  thread_start_client_run : list client_t -> manager_t -> manager_t;
  (* timer.h: the two readings taken around the parallel phase *)
  TIMER_T : Type;
  TIMER_READ_start : TIMER_T;
  TIMER_READ_stop : TIMER_T;
  TIMER_DIFF_SECONDS : TIMER_T -> TIMER_T -> double;
  (* stdlib.h: whether [malloc(size)] returns a non-NULL pointer *)
  malloc_ok : Z -> bool;
  (* assert.h: what a failed [assert(expression)] in function [func] at
     line [line] of vacation.c writes to the standard error stream; the
     format is the C library's *)
  assert_message : forall (func : string) (line : Z) (expression : string), string
}.

Section Vacation.

Context {C : Collaborators}.

(** [(long)d] in an expression. *)
Definition cast_long (d : double) : M Z :=
  match Double.to_long d with
  | Some z => ret z
  | None => halt Undefined
  end.

(** A [long*] obtained from [malloc]: NULL, or an array. *)
Definition long_array : Type := option (list Z).

(** [(long* )malloc(n * sizeof(long))]: the size is computed in [size_t],
    modulo 2^64, and the block holds as many [long]s as fit in it. *)
Definition malloc_longs (n : Z) : long_array :=
  let size := ulong (n * sizeof_long) in
  if malloc_ok size then Some (replicate (Z.to_nat (size / sizeof_long)) 0) else None.

Definition array_get (a : long_array) (i : Z) : M Z :=
  match a with
  | Some l => if 0 <=? i then deref (l !! Z.to_nat i) else halt Undefined
  | None => halt Undefined
  end.

Definition array_set (a : long_array) (i v : Z) : M long_array :=
  match a with
  | Some l =>
      if (0 <=? i) && (i <? Z.of_nat (length l)) then ret (Some (<[Z.to_nat i := v]> l))
      else halt Undefined
  | None => halt Undefined
  end.

(** [random_generate(randomPtr) % m] as a [long]: the operands are
    [unsigned long]. *)
Definition random_mod (r : random_t) (m : Z) : M (Z * random_t) :=
  let '(g, r') := random_generate r in
  if ulong m =? 0 then halt Undefined
  else ret (ulong g mod ulong m, r').

(** *** addCustomer: the wrapper that gives [manager_addCustomer_seq] the
    signature of the other three *)
Definition addCustomer (managerPtr : manager_t) (id num price : Z) : bool * manager_t :=
  manager_addCustomer_seq managerPtr id.

Definition manager_add : list (manager_t -> Z -> Z -> Z -> bool * manager_t) :=
  [manager_addCar_seq; manager_addFlight_seq; manager_addRoom_seq; addCustomer].

Definition numTable : Z := Z.of_nat (length manager_add).

(** *** initializeManager *)

Definition init_ids (numRelation : Z) (ids : long_array) : M long_array :=
  for_loop numRelation (fun i ids => array_set ids i (i + 1)) ids.

Definition shuffle_ids (numRelation : Z) (s : long_array * random_t)
    : M (long_array * random_t) :=
  for_loop numRelation (fun _ s =>
    let '(ids, randomPtr) := s in
    xr <- random_mod randomPtr numRelation ;;
    let x := long_of_ulong (fst xr) in
    yr <- random_mod (snd xr) numRelation ;;
    let y := long_of_ulong (fst yr) in
    tmp <- array_get ids x ;;
    idy <- array_get ids y ;;
    ids <- array_set ids x idy ;;
    ids <- array_set ids y tmp ;;
    ret (ids, snd yr)) s.

Definition populate_table (t numRelation : Z) (ids : long_array)
    (s : random_t * manager_t) : M (random_t * manager_t) :=
  for_loop numRelation (fun i s =>
    let '(randomPtr, managerPtr) := s in
    id <- array_get ids i ;;
    nr <- random_mod randomPtr 5 ;;
    let num := long_of_ulong (ulong ((fst nr + 1) * 100)) in
    pr <- random_mod (snd nr) 5 ;;
    let price := long_of_ulong (ulong (fst pr * 10 + 50)) in
    add <- deref (manager_add !! Z.to_nat t) ;;
    let '(status, managerPtr) := add managerPtr id num price in
    log_call (CallAdd t id num price status) ;;
    assert (assert_message "initializeManager" 259 "status") status ;;
    ret (snd pr, managerPtr)) s.

Definition initializeManager (global_params : params) : M manager_t :=
  printf "Initializing manager... " ;;
  randomPtr <- assert_ptr (assert_message "initializeManager" 230 "randomPtr != NULL")
                          random_alloc ;;
  managerPtr <- assert_ptr (assert_message "initializeManager" 233 "managerPtr != NULL")
                           manager_alloc ;;
  numRelation <- cast_long (global_params PARAM_RELATIONS) ;;
  ids <- init_ids numRelation (malloc_longs numRelation) ;;
  s <- for_loop numTable (fun t s =>
         let '(ids, randomPtr, managerPtr) := s in
         ir <- shuffle_ids numRelation (ids, randomPtr) ;;
         rm <- populate_table t numRelation (fst ir) (snd ir, managerPtr) ;;
         ret (fst ir, fst rm, snd rm))
       (ids, randomPtr, managerPtr) ;;
  puts "done." ;;
  ret (snd s).

(** *** cleanupManager *)
Definition cleanupManager (global_params : params) (managerPtr : manager_t) : M manager_t :=
  numRelation <- cast_long (global_params PARAM_RELATIONS) ;;
  managerPtr <- for_loop numRelation (fun i managerPtr =>
      log_call (CallDeleteCustomer (i + 1)) ;;
      ret (snd (manager_deleteCustomer_seq managerPtr (i + 1)))) managerPtr ;;
  for_loop numRelation (fun i managerPtr =>
      let numCar := manager_queryCar_seq managerPtr (i + 1) in
      log_call (CallQueryCar (i + 1)) ;;
      log_call (CallDeleteCar (i + 1) numCar) ;;
      let managerPtr := snd (manager_deleteCar_seq managerPtr (i + 1) numCar) in
      log_call (CallDeleteFlight (i + 1)) ;;
      let managerPtr := snd (manager_deleteFlight_seq managerPtr (i + 1)) in
      let numRoom := manager_queryRoom_seq managerPtr (i + 1) in
      log_call (CallQueryRoom (i + 1)) ;;
      log_call (CallDeleteRoom (i + 1) numRoom) ;;
      ret (snd (manager_deleteRoom_seq managerPtr (i + 1) numRoom))) managerPtr.

(** *** initializeClients *)

(** [(long)((double)numTransaction / (double)numClient + 0.5)] *)
Definition transactions_per_client (numTransaction numClient : Z) : option Z :=
  Double.to_long
    (Double.add (Double.div (Double.of_long numTransaction) (Double.of_long numClient))
                Double.lit_0_5).

(** [(long)((double)percentQuery / 100.0 * (double)numRelation + 0.5)] *)
Definition query_range (percentQuery numRelation : Z) : option Z :=
  Double.to_long
    (Double.add (Double.mul (Double.div (Double.of_long percentQuery) Double.lit_100)
                            (Double.of_long numRelation))
                Double.lit_0_5).

(** The array [clients] is the list of the entries stored so far:
    [clients[i] = client_alloc(...)] of lines 321-326 appends entry [i].
    This is the C array as long as the block of
    [malloc(numClient * sizeof(client_t* ))] has room for [numClient]
    pointers, that is for [numClient < 2^61]; from [2^61] on the size wraps
    around modulo [2^64] and the C code stores past the end of the block,
    which this definition does not follow: the statements about the entries
    of the array are for [numClient < 2^61]. *)
Definition initializeClients (global_params : params) (managerPtr : manager_t)
    : M (list client_t) :=
  numClient <- cast_long (global_params PARAM_CLIENTS) ;;
  numTransaction <- cast_long (global_params PARAM_TRANSACTIONS) ;;
  numQueryPerTransaction <- cast_long (global_params PARAM_NUMBER) ;;
  numRelation <- cast_long (global_params PARAM_RELATIONS) ;;
  percentQuery <- cast_long (global_params PARAM_QUERIES) ;;
  percentUser <- cast_long (global_params PARAM_USER) ;;
  printf "Initializing clients... " ;;
  randomPtr <- assert_ptr (assert_message "initializeClients" 313 "randomPtr != NULL")
                          random_alloc ;;
  assert (assert_message "initializeClients" 316 "clients != NULL")
         (malloc_ok (ulong (numClient * sizeof_ptr))) ;;
  numTransactionPerClient <- deref (transactions_per_client numTransaction numClient) ;;
  queryRange <- deref (query_range percentQuery numRelation) ;;
  clients <- for_loop numClient (fun i clients =>
      log_call (CallClientAlloc i numTransactionPerClient numQueryPerTransaction
                                queryRange percentUser) ;;
      c <- assert_ptr (assert_message "initializeClients" 327 "clients[i] != NULL")
                      (client_alloc i numTransactionPerClient numQueryPerTransaction
                                    queryRange percentUser) ;;
      ret (clients ++ [c])) [] ;;
  puts "done." ;;
  printf ("    Transactions        = " ++ Libc.fmt_li numTransaction ++ nl) ;;
  printf ("    Clients             = " ++ Libc.fmt_li numClient ++ nl) ;;
  printf ("    Transactions/client = " ++ Libc.fmt_li numTransactionPerClient ++ nl) ;;
  printf ("    Queries/transaction = " ++ Libc.fmt_li numQueryPerTransaction ++ nl) ;;
  printf ("    Relations           = " ++ Libc.fmt_li numRelation ++ nl) ;;
  printf ("    Query percent       = " ++ Libc.fmt_li percentQuery ++ nl) ;;
  printf ("    Query range         = " ++ Libc.fmt_li queryRange ++ nl) ;;
  printf ("    Percent user        = " ++ Libc.fmt_li percentUser ++ nl) ;;
  ret clients.

(** *** freeClients: [client_free] on each client, then [free] *)
Definition freeClients (global_params : params) (clients : list client_t) : M unit :=
  numClient <- cast_long (global_params PARAM_CLIENTS) ;;
  for_loop numClient (fun i u =>
      clientPtr <- deref (if 0 <=? i then clients !! Z.to_nat i else None) ;;
      log_call (CallClientFree i) ;;
      ret u) tt.

(** *** main

    Modelled from the spec: [MAIN] and [MAIN_RETURN] are macros of
    tm_common.h, which is not among the sources; as the spec has it
    ("Exit code 1 on parse error; 0 otherwise"), [MAIN_RETURN(0)] ends the
    process with exit code 0.  [TM_STARTUP], [TM_SHUTDOWN],
    [P_MEMORY_STARTUP], [P_MEMORY_SHUTDOWN], [manager_free] and
    [thread_shutdown] neither print nor touch the manager's tables.  The
    two assertions of [MAIN] on the results of [initializeManager] and
    [initializeClients] cannot fail: both functions have asserted on the
    pointer they return. *)
Definition main (posix : bool) (argv : list string) : M Z :=
  global_params <- parseArgs posix argv ;;
  managerPtr <- initializeManager global_params ;;
  clients <- initializeClients global_params managerPtr ;;
  numThread <- cast_long (global_params PARAM_CLIENTS) ;;
  log_call (CallThreadStartup numThread) ;;
  assert (thread_startup_message numThread) (thread_startup numThread) ;;
  printf "Running clients... " ;;
  let start := TIMER_READ_start in
  log_call (CallThreadStart (Z.of_nat (length clients))) ;;
  let managerPtr := thread_start_client_run clients managerPtr in
  let stop := TIMER_READ_stop in
  puts "done." ;;
  printf ("Time = " ++ Libc.fmt_0_6lf (TIMER_DIFF_SECONDS start stop) ++ nl) ;;
  printf "Deallocating memory... " ;;
  managerPtr <- cleanupManager global_params managerPtr ;;
  freeClients global_params clients ;;
  log_call CallManagerFree ;;
  puts "done." ;;
  log_call CallThreadShutdown ;;
  ret 0.

(** A run of the program: how it ends, and the world it leaves. *)
Definition run (posix : bool) (argv : list string) : outcome * world :=
  match main posix argv world_init with
  | (Ret code, w) => (Exit code, w)
  | (Halt o, w) => (o, w)
  end.

End Vacation.

(** ** tm.h: the TL2 macro layer

    Modelled from the spec: the macros of tm.h expand to the [STM_*]
    interface of stm.h, which is not among the sources.  The part of a TL2
    transaction descriptor the macros below can reach is modelled from
    sections 3 and 4.1 of the spec: the read set, the write set and the
    allocation and free logs, with "allocations inside a transaction are
    recorded; on abort they are returned to the allocator, on commit they
    survive; frees inside a transaction are deferred to after successful
    commit". *)

Module TM.

Definition ptr := Z.

Record Thread := {
  readSet : list (ptr * Z);
  writeSet : list (ptr * Z);
  allocLog : list ptr;
  freeLog : list ptr
}.

(** The allocator (the set of live blocks) and the descriptor of every
    thread; [STM_SELF] is the index of the calling thread's descriptor. *)
Record state := {
  live : gset ptr;
  threads : nat -> Thread
}.

Definition action (A : Type) : Type := state -> A * state.

Definition skip : action unit := fun st => (tt, st).

Definition seq {A B} (a : action A) (k : A -> action B) : action B :=
  fun st => let '(x, st') := a st in k x st'.

Definition set_thread (st : state) (tid : nat) (th : Thread) : state :=
  {| live := live st;
     threads := fun i => if Nat.eqb i tid then th else threads st i |}.

(** stdlib.h: [malloc] returns a block that is not live; [free] returns a
    block to the allocator.  Neither knows of the transactions. *)
Definition malloc (size : Z) : action ptr :=
  fun st => let p := fresh (live st) in
            (p, {| live := {[p]} ∪ live st; threads := threads st |}).

Definition free (p : ptr) : action unit :=
  fun st => (tt, {| live := live st ∖ {[p]}; threads := threads st |}).

(** Modelled from the spec: [STM_MALLOC] wraps the allocator and records
    the block in the caller's allocation log; [STM_FREE] only records the
    block in the caller's free log. *)
Definition STM_MALLOC (STM_SELF : nat) (size : Z) : action ptr :=
  fun st =>
    let '(p, st') := malloc size st in
    let th := threads st' STM_SELF in
    (p, set_thread st' STM_SELF
          {| readSet := readSet th; writeSet := writeSet th;
             allocLog := allocLog th ++ [p]; freeLog := freeLog th |}).

Definition STM_FREE (STM_SELF : nat) (p : ptr) : action unit :=
  fun st =>
    let th := threads st STM_SELF in
    (tt, set_thread st STM_SELF
           {| readSet := readSet th; writeSet := writeSet th;
              allocLog := allocLog th; freeLog := freeLog th ++ [p] |}).

Definition empty_thread : Thread :=
  {| readSet := []; writeSet := []; allocLog := []; freeLog := [] |}.

(** Modelled from the spec: abort frees the pointers of the allocation log
    and keeps those of the free log alive; commit frees the pointers of the
    free log and keeps the allocations. *)
Definition abort (STM_SELF : nat) : action unit :=
  fun st =>
    (tt, set_thread {| live := live st ∖ list_to_set (allocLog (threads st STM_SELF));
                       threads := threads st |} STM_SELF empty_thread).

Definition commit (STM_SELF : nat) : action unit :=
  fun st =>
    (tt, set_thread {| live := live st ∖ list_to_set (freeLog (threads st STM_SELF));
                       threads := threads st |} STM_SELF empty_thread).

(** *** The macros of tm.h

    [P_MALLOC] and [P_FREE] do not mention [STM_SELF]; [TM_MALLOC] and
    [TM_FREE] expand to macros of stm.h that do. *)

Definition P_MALLOC (size : Z) : action ptr := malloc size.
Definition P_FREE (p : ptr) : action unit := free p.
Definition TM_MALLOC (STM_SELF : nat) (size : Z) : action ptr := STM_MALLOC STM_SELF size.
Definition TM_FREE (STM_SELF : nat) (p : ptr) : action unit := STM_FREE STM_SELF p.

(** [#define TM_EARLY_RELEASE(var) /* nothing */] *)
Definition TM_EARLY_RELEASE {V : Type} (var : V) : action unit := skip.

(** Every block recorded in an allocation log or a free log is live. *)
Definition logs_live (st : state) : Prop :=
  forall tid p,
    In p (allocLog (threads st tid)) \/ In p (freeLog (threads st tid)) -> p ∈ live st.

Definition state_init : state :=
  {| live := ∅; threads := fun _ => empty_thread |}.

End TM.

(** ** A reference instance of the collaborators

    Used to run the driver on concrete command lines. *)

Module Ref.

(** Modelled from the spec: manager.c and reservation.c are not among the
    sources.  Section 3 gives the reservation record and the four tables
    keyed by id; section 4.4 and the boundary behaviours of section 8 give
    the sequential operations used by setup and cleanup. *)

Record reservation := {
  numUsed : Z;
  numFree : Z;
  numTotal : Z;
  price : Z
}.

Record manager := {
  carTable : gmap Z reservation;
  flightTable : gmap Z reservation;
  roomTable : gmap Z reservation;
  customerTable : gset Z
}.

Definition manager_empty : manager :=
  {| carTable := ∅; flightTable := ∅; roomTable := ∅; customerTable := ∅ |}.

(** [add*]: a new id gets a reservation of capacity [num]; an existing id
    has [numTotal] grown by [num] and its price set if [price >= 0]. *)
Definition addReservation (tbl : gmap Z reservation) (id num price : Z)
    : bool * gmap Z reservation :=
  match tbl !! id with
  | None =>
      if (num <? 0) || (price <? 0) then (false, tbl)
      else (true, <[id := {| numUsed := 0; numFree := num; numTotal := num;
                             price := price |}]> tbl)
  | Some r =>
      if numTotal r + num <? 0 then (false, tbl)
      else (true, <[id := {| numUsed := numUsed r; numFree := numFree r + num;
                             numTotal := numTotal r + num;
                             price := if 0 <=? price then price else Ref.price r |}]> tbl)
  end.

(** [delete*] subtracts [num]; it fails if the id is absent or the total
    would fall below the used count; an entry left with total 0 and nothing
    used is removed, any other is kept and marked with price -1. *)
Definition deleteReservation (tbl : gmap Z reservation) (id num : Z)
    : bool * gmap Z reservation :=
  match tbl !! id with
  | None => (false, tbl)
  | Some r =>
      if numTotal r - num <? numUsed r then (false, tbl)
      else if (numTotal r - num =? 0) && (numUsed r =? 0) then (true, delete id tbl)
      else (true, <[id := {| numUsed := numUsed r; numFree := numFree r - num;
                             numTotal := numTotal r - num; price := -1 |}]> tbl)
  end.

(** [query*]: the free count, or -1 if the id is absent. *)
Definition queryNumFree (tbl : gmap Z reservation) (id : Z) : Z :=
  match tbl !! id with
  | None => -1
  | Some r => numFree r
  end.

(** [deleteFlight] fails if any seat is used. *)
Definition deleteFlight (tbl : gmap Z reservation) (id : Z) : bool * gmap Z reservation :=
  match tbl !! id with
  | None => (false, tbl)
  | Some r =>
      if 0 <? numUsed r then (false, tbl) else deleteReservation tbl id (numTotal r)
  end.

(** A 64-bit linear congruential generator standing for random.h. *)
Definition lcg_next (s : Z) : Z * Z :=
  let s' := (s * 6364136223846793005 + 1442695040888963407) mod 2 ^ 64 in
  (Z.shiftr s' 33, s').

Record client := {
  c_id : Z; c_numOperation : Z; c_numQueryPerTransaction : Z;
  c_queryRange : Z; c_percentUser : Z
}.

#[export] Instance collaborators : Collaborators := {|
  random_t := Z;
  random_alloc := Some 0;
  random_generate := lcg_next;
  manager_t := manager;
  manager_alloc := Some manager_empty;
  manager_addCar_seq m id num price :=
    let '(b, t) := addReservation (carTable m) id num price in
    (b, {| carTable := t; flightTable := flightTable m; roomTable := roomTable m;
           customerTable := customerTable m |});
  manager_addFlight_seq m id num price :=
    let '(b, t) := addReservation (flightTable m) id num price in
    (b, {| carTable := carTable m; flightTable := t; roomTable := roomTable m;
           customerTable := customerTable m |});
  manager_addRoom_seq m id num price :=
    let '(b, t) := addReservation (roomTable m) id num price in
    (b, {| carTable := carTable m; flightTable := flightTable m; roomTable := t;
           customerTable := customerTable m |});
  manager_addCustomer_seq m id :=
    if decide (id ∈ customerTable m) then (false, m)
    else (true, {| carTable := carTable m; flightTable := flightTable m;
                   roomTable := roomTable m;
                   customerTable := {[id]} ∪ customerTable m |});
  manager_deleteCustomer_seq m id :=
    if decide (id ∈ customerTable m)
    then (true, {| carTable := carTable m; flightTable := flightTable m;
                   roomTable := roomTable m;
                   customerTable := customerTable m ∖ {[id]} |})
    else (false, m);
  manager_queryCar_seq m id := queryNumFree (carTable m) id;
  manager_deleteCar_seq m id num :=
    let '(b, t) := deleteReservation (carTable m) id num in
    (b, {| carTable := t; flightTable := flightTable m; roomTable := roomTable m;
           customerTable := customerTable m |});
  manager_deleteFlight_seq m id :=
    let '(b, t) := deleteFlight (flightTable m) id in
    (b, {| carTable := carTable m; flightTable := t; roomTable := roomTable m;
           customerTable := customerTable m |});
  manager_queryRoom_seq m id := queryNumFree (roomTable m) id;
  manager_deleteRoom_seq m id num :=
    let '(b, t) := deleteReservation (roomTable m) id num in
    (b, {| carTable := carTable m; flightTable := flightTable m; roomTable := t;
           customerTable := customerTable m |});
  client_t := client;
  client_alloc id numOperation numQueryPerTransaction queryRange percentUser :=
    Some {| c_id := id; c_numOperation := numOperation;
            c_numQueryPerTransaction := numQueryPerTransaction;
            c_queryRange := queryRange; c_percentUser := percentUser |};
  thread_startup numThread := true;
  thread_startup_message numThread := EmptyString;
  thread_start_client_run clients m := m;
  TIMER_T := Z;
  TIMER_READ_start := 0;
  TIMER_READ_stop := 1250;
  TIMER_DIFF_SECONDS start stop :=
    Double.div (Double.of_long (stop - start)) (Double.of_long 1000000);
  malloc_ok size := size <=? 2 ^ 40;
  assert_message func line expression :=
    ("vacation: vacation.c:" ++ Libc.fmt_li line ++ ": " ++ func ++ ": Assertion `"
     ++ expression ++ "' failed." ++ String "010" EmptyString)%string
|}.

End Ref.


(** ** Vocabulary of the statements *)

(** The command line of the first end-to-end scenario, and the same command
    line without its last element. *)
Definition argv_seed42 : list string :=
  ["vacation"; "-c1"; "-r16"; "-t256"; "-n4"; "-q100"; "-u80"; "-seed42"]%string.

Definition argv_noseed : list string :=
  ["vacation"; "-c1"; "-r16"; "-t256"; "-n4"; "-q100"; "-u80"]%string.

(** What [getopt] writes to the standard error stream while it scans
    [-seed42]: nothing for [s], the first error, which it meets with
    [opterr = 0], and one line for each of the five characters after it. *)
Definition stderr_seed42 : string :=
  ("vacation: invalid option -- 'e'" ++ nl
   ++ "vacation: invalid option -- 'e'" ++ nl
   ++ "vacation: invalid option -- 'd'" ++ nl
   ++ "vacation: invalid option -- '4'" ++ nl
   ++ "vacation: invalid option -- '2'" ++ nl)%string.

(** What [displayUsage] prints. *)
Definition usage_text (appName : string) : string :=
  ("Usage: " ++ appName ++ " [options]" ++ nl
   ++ nl ++ "Options:                                             (defaults)" ++ nl ++ nl
   ++ "    c <UINT>   Number of [c]lients                   (1)" ++ nl
   ++ "    n <UINT>   [n]umber of user queries/transaction  (10)" ++ nl
   ++ "    q <UINT>   Percentage of relations [q]ueried     (90)" ++ nl
   ++ "    r <UINT>   Number of possible [r]elations        (65536)" ++ nl
   ++ "    t <UINT>   Number of [t]ransactions              (67108864)" ++ nl
   ++ "    u <UINT>   Percentage of [u]ser transactions     (80)" ++ nl)%string.

(** What the successive calls of [getopt] return before -1, and the
    non-options [argv[optind..argc)] left when it returns -1. *)
Fixpoint getopt_trace (posix : bool) (fuel : nat) (st : Libc.getopt_state)
    : list Libc.getopt_result * list string :=
  match fuel with
  | O => ([], [])
  | S fuel' =>
      match Libc.getopt posix optstring st with
      | (Libc.GEnd, st') => ([], Libc.g_nonopts st')
      | (r, st') =>
          let '(rs, nonopts) := getopt_trace posix fuel' st' in (r :: rs, nonopts)
      end
  end.

Definition getopt_results (posix : bool) (argv : list string) : list Libc.getopt_result :=
  fst (getopt_trace posix (S (Libc.getopt_measure (Libc.getopt_init argv)))
                    (Libc.getopt_init argv)).

Definition getopt_nonopts (posix : bool) (argv : list string) : list string :=
  snd (getopt_trace posix (S (Libc.getopt_measure (Libc.getopt_init argv)))
                    (Libc.getopt_init argv)).

(** A flag is given on the command line when [getopt] returns it. *)
Definition flag_given (posix : bool) (argv : list string) (flag : ascii) : Prop :=
  exists optarg, In (Libc.GOpt flag optarg) (getopt_results posix argv).

(** Parsing fails on an unknown option or a missing argument (both make
    [getopt] return '?') and on a non-option argument. *)
Definition parse_fails (posix : bool) (argv : list string) : Prop :=
  (exists optopt, In (Libc.GErr optopt) (getopt_results posix argv))
  \/ getopt_nonopts posix argv <> [].

(** The flags with the defaults the spec lists for them. *)
Definition spec_defaults : list (ascii * Z) :=
  [("c"%char, 1); ("n"%char, 10); ("q"%char, 90);
   ("r"%char, 65536); ("t"%char, 67108864); ("u"%char, 80)].

(** The ids passed to [manager_add[t]], in call order. *)
Definition add_ids (t : Z) (calls : list call) : list Z :=
  omap (fun c => match c with
                 | CallAdd t' id _ _ _ => if t' =? t then Some id else None
                 | _ => None
                 end) calls.

(** The ids passed to [manager_deleteCustomer_seq], in call order. *)
Definition delete_customer_ids (calls : list call) : list Z :=
  omap (fun c => match c with
                 | CallDeleteCustomer id => Some id
                 | _ => None
                 end) calls.

(** An add call of [initializeManager] as the claim describes it. *)
Definition add_call_ok (c : call) : Prop :=
  match c with
  | CallAdd t id num price status =>
      0 <= t < 4 /\ In num [100; 200; 300; 400; 500]
      /\ In price [50; 60; 70; 80; 90] /\ status = true
  | _ => False
  end.

(** The arguments of the [client_alloc] calls. *)
Definition client_allocs (calls : list call) : list (Z * Z * Z * Z * Z) :=
  omap (fun c => match c with
                 | CallClientAlloc i nop nq qr pu => Some (i, nop, nq, qr, pu)
                 | _ => None
                 end) calls.

(** [k] is an integer nearest to the rational [num / den]. *)
Definition nearest_integer (num den k : Z) : Prop :=
  0 < den /\ Z.abs (2 * (k * den - num)) <= den.

(** The part of [getopt_measure] that counts the elements not yet scanned. *)
Definition rest_measure (rest : list string) : nat :=
  fold_right (fun a n => (Datatypes.S (String.length a) + n)%nat) O rest.

(** The effect of the [switch] over a sequence of [getopt] results. *)
Fixpoint apply_results (rs : list Libc.getopt_result) (gp : params) (opterr : Z)
    : params * Z :=
  match rs with
  | [] => (gp, opterr)
  | r :: rs' => let '(gp', opterr') := parse_step r gp opterr in apply_results rs' gp' opterr'
  end.

(** What [getopt] writes to the standard error stream over the calls of the
    loop of [parseArgs]: a diagnostic for each '?' it returns while [opterr]
    is not zero, that is for every error after the first one. *)
Fixpoint getopt_stderr (argv0 : string) (rs : list Libc.getopt_result) (opterr : Z)
    : string :=
  match rs with
  | [] => EmptyString
  | r :: rs' =>
      (match r with
       | Libc.GErr optopt =>
           if Z.eqb opterr 0 then EmptyString
           else Libc.getopt_message optstring argv0 optopt
       | _ => EmptyString
       end
       ++ getopt_stderr argv0 rs' (snd (parse_step r global_params_init opterr)))%string
  end.

(** The parameters the loop of [parseArgs] leaves in [global_params]. *)
Definition parsed_params (posix : bool) (argv : list string) : params :=
  fst (apply_results (getopt_results posix argv) (setDefaultParams global_params_init) 0).

Definition is_GErr (r : Libc.getopt_result) : bool :=
  match r with
  | Libc.GErr _ => true
  | _ => false
  end.

Definition with_stdout (w : world) (s : string) : world :=
  {| w_stdout := s; w_stderr := w_stderr w; w_calls := w_calls w |}.

(** [c] is a successful call of [manager_add[t]] on [id], with the capacity
    and price [initializeManager] draws. *)
Definition is_add_call (t id : Z) (c : call) : Prop :=
  exists num price,
    c = CallAdd t id num price true
    /\ In num [100; 200; 300; 400; 500] /\ In price [50; 60; 70; 80; 90].

(** The two ways a process stops that are not an [exit]. *)
Definition abnormal (o : outcome) : Prop := o = Abort \/ o = Undefined.

(** The summary [initializeClients] prints after "done.". *)
Definition summary_text (numTransaction numClient numTransactionPerClient
    numQueryPerTransaction numRelation percentQuery queryRange percentUser : Z) : string :=
  ("    Transactions        = " ++ Libc.fmt_li numTransaction ++ nl
   ++ "    Clients             = " ++ Libc.fmt_li numClient ++ nl
   ++ "    Transactions/client = " ++ Libc.fmt_li numTransactionPerClient ++ nl
   ++ "    Queries/transaction = " ++ Libc.fmt_li numQueryPerTransaction ++ nl
   ++ "    Relations           = " ++ Libc.fmt_li numRelation ++ nl
   ++ "    Query percent       = " ++ Libc.fmt_li percentQuery ++ nl
   ++ "    Query range         = " ++ Libc.fmt_li queryRange ++ nl
   ++ "    Percent user        = " ++ Libc.fmt_li percentUser ++ nl)%string.

(** The calls of [initializeClients]: client [i] for [i = 0 .. numClient-1]. *)
(** The calls that release what the run allocated: [client_free] for
    every client in index order (freeClients), then [manager_free] and
    [thread_shutdown] (MAIN). *)
Definition teardown_calls (numClient : Z) : list call :=
  map CallClientFree (seqZ 0 numClient) ++ [CallManagerFree; CallThreadShutdown].

Definition client_calls (numClient numTransactionPerClient numQueryPerTransaction
    queryRange percentUser : Z) : list call :=
  map (fun i => CallClientAlloc i numTransactionPerClient numQueryPerTransaction
                                queryRange percentUser)
      (seqZ 0 numClient).

(** The calls of [cleanupManager] for one id of its second loop. *)
Definition is_cleanup_item_calls (id : Z) (cs : list call) : Prop :=
  exists numCar numRoom,
    cs = [CallQueryCar id; CallDeleteCar id numCar; CallDeleteFlight id;
          CallQueryRoom id; CallDeleteRoom id numRoom].

(** The parameters as [initializeClients] reads them. *)
Record config := {
  cfg_clients : Z;
  cfg_number : Z;
  cfg_queries : Z;
  cfg_relations : Z;
  cfg_transactions : Z;
  cfg_user : Z
}.

Definition reads_config (gp : params) (cfg : config) : Prop :=
  Double.to_long (gp PARAM_CLIENTS) = Some (cfg_clients cfg)
  /\ Double.to_long (gp PARAM_NUMBER) = Some (cfg_number cfg)
  /\ Double.to_long (gp PARAM_QUERIES) = Some (cfg_queries cfg)
  /\ Double.to_long (gp PARAM_RELATIONS) = Some (cfg_relations cfg)
  /\ Double.to_long (gp PARAM_TRANSACTIONS) = Some (cfg_transactions cfg)
  /\ Double.to_long (gp PARAM_USER) = Some (cfg_user cfg).

(** Everything a run that returns from [main] prints. *)
Definition success_stdout (cfg : config) (numTransactionPerClient queryRange : Z)
    (elapsed : double) : string :=
  ("Initializing manager... done." ++ nl
   ++ "Initializing clients... done." ++ nl
   ++ summary_text (cfg_transactions cfg) (cfg_clients cfg) numTransactionPerClient
                   (cfg_number cfg) (cfg_relations cfg) (cfg_queries cfg) queryRange
                   (cfg_user cfg)
   ++ "Running clients... done." ++ nl
   ++ "Time = " ++ Libc.fmt_0_6lf elapsed ++ nl
   ++ "Deallocating memory... done." ++ nl)%string.

(** Command lines used to run the driver on the reference collaborators. *)
Definition argv_r4 : list string := ["vacation"; "-r4"]%string.
Definition argv_r4_t0 : list string := ["vacation"; "-r4"; "-c2"; "-t0"]%string.

(** The shape of a [%.6f] conversion of a finite value: an optional sign,
    at least one integer digit, the point, and exactly six digits. *)
Definition is_digit (c : ascii) : bool :=
  let n := Z.of_N (N_of_ascii c) in (48 <=? n) && (n <=? 57).

Definition all_digits (s : string) : Prop :=
  Forall (fun c => is_digit c = true) (list_ascii_of_string s).

Definition fixed6_format (s : string) : Prop :=
  exists sign int frac,
    s = (sign ++ int ++ "." ++ frac)%string
    /\ (sign = EmptyString \/ sign = "-"%string)
    /\ int <> EmptyString /\ all_digits int
    /\ String.length frac = 6%nat /\ all_digits frac.

Definition is_finite (d : double) : bool :=
  match d with
  | S754_zero _ | S754_finite _ _ _ => true
  | S754_infinity _ | S754_nan => false
  end.

(** Vocabulary of the claims on the clients. *)

(** [num / den] rounded to the nearest integer, halves upwards:
    the floor of [num / den + 1/2]. *)
Definition round_half_up (num den : Z) : Z := (2 * num + den) / (2 * den).

(** [-t -4]: the argument of [-t] is "-4". *)
Definition argv_t_minus4 : list string := ["vacation"; "-r4"; "-c3"; "-t"; "-4"]%string.

(** The configuration [argv_r4_t0] is read as. *)
Definition cfg_r4_t0 : config :=
  {| cfg_clients := 2; cfg_number := 10; cfg_queries := 90; cfg_relations := 4;
     cfg_transactions := 0; cfg_user := 80 |}.

(** The configuration [argv_r4] is read as: the defaults, with 4 relations. *)
Definition cfg_r4 : config :=
  {| cfg_clients := 1; cfg_number := 10; cfg_queries := 90; cfg_relations := 4;
     cfg_transactions := 67108864; cfg_user := 80 |}.

(** The configuration [argv_t_minus4] is read as. *)
Definition cfg_t_minus4 : config :=
  {| cfg_clients := 3; cfg_number := 10; cfg_queries := 90; cfg_relations := 4;
     cfg_transactions := -4; cfg_user := 80 |}.

(** [-t 4503599627370497]: 2^52 + 1 transactions for one client. *)
Definition argv_t_2p52 : list string :=
  ["vacation"; "-r4"; "-t"; "4503599627370497"]%string.

(** ** Vocabulary of the binary64 analysis *)

(** [f] applied [n] times. *)
Fixpoint iter_nat {A : Type} (f : A -> A) (n : nat) (x : A) : A :=
  match n with
  | O => x
  | Datatypes.S n' => f (iter_nat f n' x)
  end.

(** Two to the power [e], as a real number. *)
Definition pow2 (e : Z) : R := powerRZ 2 e.

(** [V] is one of the two doubles around [X]: both lie between two
    consecutive multiples [fl * 2^E] and [(fl + 1) * 2^E] of the unit in
    the last place, with a mantissa [fl] of 53 bits. *)
Definition rounds_to (X V : R) (fl E : Z) : Prop :=
  2 ^ 52 <= fl < 2 ^ 53
  /\ (IZR fl * pow2 E <= X < (IZR fl + 1) * pow2 E)%R
  /\ (IZR fl * pow2 E <= V <= (IZR fl + 1) * pow2 E)%R.

(** A mantissa of exactly 53 bits. *)
Definition canonical (m : positive) : Prop := 2 ^ 52 <= Z.pos m < 2 ^ 53.

(** ** Vocabulary of the further properties *)

(** What the loop over [argv[optind..argc)] writes to the standard error
    stream: one line for each argument. *)
Fixpoint nonopt_lines (nonopts : list string) : string :=
  match nonopts with
  | [] => EmptyString
  | a :: rest => (("Non-option argument: " ++ a ++ nl) ++ nonopt_lines rest)%string
  end.

Definition argv_nonopts : list string :=
  ["vacation"; "-c2"; "extra"; "-t4"; "more"]%string.

Definition argv_repeated : list string := ["vacation"; "-c2"; "-t7"; "-c5"]%string.

Definition argv_negative : list string := ["vacation"; "-t"; "-123456789"]%string.

(** The table of each add call, in call order: 0 for cars, 1 for flights, 2
    for rooms, 3 for customers. *)
Definition add_tables (calls : list call) : list Z :=
  omap (fun c => match c with
                 | CallAdd t _ _ _ _ => Some t
                 | _ => None
                 end) calls.

(** An add call that returned false. *)
Definition failed_add (c : call) : Prop :=
  exists t id num price, c = CallAdd t id num price false.

(** The manager after the add call [c] of the log: the function of
    [manager_add] for the logged table applied to the logged arguments,
    provided the status it returns is the logged one. *)
Definition add_call_result {C : Collaborators} (m : manager_t) (c : call)
    : option manager_t :=
  match c with
  | CallAdd t id num price status =>
      if 0 <=? t then
        match manager_add !! Z.to_nat t with
        | Some add =>
            let sm := add m id num price in
            if Bool.eqb (fst sm) status then Some (snd sm) else None
        | None => None
        end
      else None
  | _ => None
  end.

(** The manager after the add calls [cs] made one after the other on [m]. *)
Fixpoint replay_adds {C : Collaborators} (m : manager_t) (cs : list call)
    : option manager_t :=
  match cs with
  | [] => Some m
  | c :: cs' =>
      match add_call_result m c with
      | Some m' => replay_adds m' cs'
      | None => None
      end
  end.

(** What [assert(status)] of line 259 writes when it fails. *)
Definition status_message {C : Collaborators} : string :=
  assert_message "initializeManager" 259 "status".

(** How the loops over the tables can stop: at an add call that returned
    false, after add calls that returned true. *)
Definition stopped_at_failed_add {C : Collaborators} (m : manager_t) (w w' : world)
    : Prop :=
  w_stdout w' = w_stdout w
  /\ w_stderr w' = (w_stderr w ++ status_message)%string
  /\ exists cs c m1,
      w_calls w' = w_calls w ++ cs ++ [c]
      /\ Forall add_call_ok cs /\ failed_add c
      /\ replay_adds m cs = Some m1
      /\ add_call_result m1 c <> None.

(** The reference collaborators with a flight table that accepts nothing
    and room for two clients only. *)
Definition collaborators_failing : Collaborators :=
  {| random_t := Z;
     random_alloc := Some 0;
     random_generate := Ref.lcg_next;
     manager_t := Ref.manager;
     manager_alloc := Some Ref.manager_empty;
     manager_addCar_seq := @manager_addCar_seq Ref.collaborators;
     manager_addFlight_seq := fun m _ _ _ => (false, m);
     manager_addRoom_seq := @manager_addRoom_seq Ref.collaborators;
     manager_addCustomer_seq := @manager_addCustomer_seq Ref.collaborators;
     manager_deleteCustomer_seq := @manager_deleteCustomer_seq Ref.collaborators;
     manager_queryCar_seq := @manager_queryCar_seq Ref.collaborators;
     manager_deleteCar_seq := @manager_deleteCar_seq Ref.collaborators;
     manager_deleteFlight_seq := @manager_deleteFlight_seq Ref.collaborators;
     manager_queryRoom_seq := @manager_queryRoom_seq Ref.collaborators;
     manager_deleteRoom_seq := @manager_deleteRoom_seq Ref.collaborators;
     client_t := Ref.client;
     client_alloc := fun id nop nq qr pu =>
       if id <? 2 then @client_alloc Ref.collaborators id nop nq qr pu else None;
     thread_startup := fun _ => true;
     thread_startup_message := fun _ => EmptyString;
     thread_start_client_run := fun _ m => m;
     TIMER_T := Z;
     TIMER_READ_start := 0;
     TIMER_READ_stop := 1250;
     TIMER_DIFF_SECONDS := @TIMER_DIFF_SECONDS Ref.collaborators;
     malloc_ok := fun size => size <=? 2 ^ 40;
     assert_message := @assert_message Ref.collaborators |}.

(** [-r 0], and a number of relations whose id array the reference [malloc]
    refuses. *)
Definition argv_r0 : list string := ["vacation"; "-r0"]%string.
Definition argv_r_huge : list string := ["vacation"; "-r"; "274877906944"]%string.

(** [-r 2305843009213694464], that is [2^61 + 512] relations: the size of
    the id array wraps around to 4096 bytes, room for 512 ids. *)
Definition argv_r_wrap : list string := ["vacation"; "-r"; "2305843009213694464"]%string.

(** [-c0]: no client. *)
Definition argv_c0 : list string := ["vacation"; "-r4"; "-c0"]%string.

Definition cfg_c0 : config :=
  {| cfg_clients := 0; cfg_number := 10; cfg_queries := 90; cfg_relations := 4;
     cfg_transactions := 67108864; cfg_user := 80 |}.

(** [-c3]: three clients. *)
Definition argv_c3 : list string := ["vacation"; "-r4"; "-c3"]%string.

Definition cfg_c3 : config :=
  {| cfg_clients := 3; cfg_number := 10; cfg_queries := 90; cfg_relations := 4;
     cfg_transactions := 67108864; cfg_user := 80 |}.

(** ** Facts about the process monad *)

Lemma for_from_rule {S : Type} (I : nat -> S -> world -> Prop)
    (Q : outcome -> world -> Prop) (body : Z -> S -> M S) (i0 : Z) :
  forall (count : nat),
    (forall (k : nat) s w, (k < count)%nat -> I k s w ->
       match body (i0 + Z.of_nat k) s w with
       | (Ret s', w') => I (Datatypes.S k) s' w'
       | (Halt o, w') => Q o w'
       end) ->
    forall s w, I O s w ->
      match for_from count i0 body s w with
      | (Ret s', w') => I count s' w'
      | (Halt o, w') => Q o w'
      end.
Proof.
  intros count. revert i0 I.
  induction count as [|count IH]; intros i0 I Hbody s w H0.
  - exact H0.
  - simpl. unfold bind.
    pose proof (Hbody O s w ltac:(lia) H0) as Hstep.
    rewrite Z.add_0_r in Hstep.
    destruct (body i0 s w) as [[s1|o] w1]; [|exact Hstep].
    apply (IH (i0 + 1) (fun k => I (Datatypes.S k))); [|exact Hstep].
    intros k s2 w2 Hk HI.
    specialize (Hbody (Datatypes.S k) s2 w2 ltac:(lia) HI).
    replace (i0 + 1 + Z.of_nat k) with (i0 + Z.of_nat (Datatypes.S k)) by lia.
    exact Hbody.
Qed.

(** ** Facts about getopt and parseArgs *)

Lemma length_list_ascii_of_string (s : string) :
  length (list_ascii_of_string s) = String.length s.
Proof. induction s as [|c s IH]; simpl; [reflexivity | now rewrite IH]. Qed.

Lemma next_element_measure posix rest nonopts c cs rest' nonopts' :
  Libc.next_element posix rest nonopts = Libc.Cluster c cs rest' nonopts' ->
  (length cs + rest_measure rest' < rest_measure rest)%nat.
Proof.
  revert nonopts. induction rest as [|a rest IH]; intros nonopts H; simpl in H.
  - discriminate.
  - pose proof (length_list_ascii_of_string a) as Hlen.
    assert (Hskip : (if posix then Libc.Finished (nonopts ++ a :: rest)
                     else Libc.next_element posix rest (nonopts ++ [a]))
                    = Libc.Cluster c cs rest' nonopts' ->
                    (length cs + rest_measure rest' < rest_measure (a :: rest))%nat).
    { destruct posix; [discriminate|]. intros Hgo. apply IH in Hgo. simpl. lia. }
    destruct (list_ascii_of_string a) as [|x [|y ys]] eqn:Ha.
    + exact (Hskip H).
    + apply Hskip. destruct x as [[] [] [] [] [] [] [] []]; exact H.
    + destruct (ascii_dec x "-") as [->|Hx].
      * destruct (Ascii.eqb y "-" && match ys with [] => true | _ => false end);
          [discriminate|].
        injection H as <- <- <- <-. simpl in *. lia.
      * apply Hskip.
        destruct x as [[] [] [] [] [] [] [] []]; try exact H; congruence.
Qed.

Lemma scan_option_measure c cs rest nonopts r st' :
  Libc.scan_option optstring c cs rest nonopts = (r, st') ->
  (Libc.getopt_measure st' <= length cs + rest_measure rest)%nat /\ r <> Libc.GEnd.
Proof.
  unfold Libc.scan_option, Libc.getopt_measure, rest_measure. intros H.
  destruct (Libc.opt_kind_of optstring c).
  - injection H as <- <-. simpl. split; [lia | discriminate].
  - injection H as <- <-. simpl. split; [lia | discriminate].
  - destruct cs as [|c' cs'].
    + destruct rest as [|a rest'].
      * injection H as <- <-. simpl. split; [lia | discriminate].
      * injection H as <- <-. simpl. split; [lia | discriminate].
    + injection H as <- <-. simpl. split; [lia | discriminate].
Qed.

Lemma getopt_measure_decreases posix st r st' :
  Libc.getopt posix optstring st = (r, st') -> r <> Libc.GEnd ->
  (Libc.getopt_measure st' < Libc.getopt_measure st)%nat.
Proof.
  unfold Libc.getopt. intros H Hr.
  destruct st as [rest nc nonopts]; simpl in H.
  assert (Hm : Libc.getopt_measure
                 {| Libc.g_rest := rest; Libc.g_nextchar := nc; Libc.g_nonopts := nonopts |}
               = (length nc + rest_measure rest)%nat) by reflexivity.
  rewrite Hm. clear Hm.
  destruct nc as [|c cs].
  - destruct (Libc.next_element posix rest nonopts) as [c cs rest' nonopts'|no] eqn:Hn.
    + apply next_element_measure in Hn. apply scan_option_measure in H as [H _].
      simpl. lia.
    + injection H as <- <-. congruence.
  - apply scan_option_measure in H as [H _]. simpl. lia.
Qed.

Lemma string_append_cons (c : ascii) (s t : string) :
  (String c s ++ t)%string = String c (s ++ t)%string.
Proof. reflexivity. Qed.

Lemma string_append_nil (s : string) : (s ++ "")%string = s.
Proof.
  induction s as [|c s IH]; [reflexivity|].
  now rewrite string_append_cons, IH.
Qed.

Lemma string_append_assoc (a b c : string) :
  ((a ++ b) ++ c)%string = (a ++ (b ++ c))%string.
Proof.
  induction a as [|x a IH]; [reflexivity|].
  now rewrite !string_append_cons, IH.
Qed.

Lemma parse_step_opterr r gp gp' e :
  snd (parse_step r gp e) = snd (parse_step r gp' e).
Proof.
  destruct r as [c a|c|]; simpl; try reflexivity.
  destruct (is_param_flag c); reflexivity.
Qed.

Lemma parse_loop_trace posix argv0 :
  forall fuel st gp e w,
    (Libc.getopt_measure st < fuel)%nat ->
    parse_loop posix argv0 fuel st gp e w
    = (Ret (apply_results (fst (getopt_trace posix fuel st)) gp e,
            snd (getopt_trace posix fuel st)),
       {| w_stdout := w_stdout w;
          w_stderr := (w_stderr w
                       ++ getopt_stderr argv0 (fst (getopt_trace posix fuel st)) e)%string;
          w_calls := w_calls w |}).
Proof.
  induction fuel as [|fuel IH]; intros st gp e w Hm; [lia|].
  simpl parse_loop. simpl getopt_trace. unfold getopt_opterr, bind.
  destruct (Libc.getopt posix optstring st) as [r st'] eqn:Hg. cbn [fst snd].
  assert (Hrec : r <> Libc.GEnd ->
            forall gp' e' w', parse_loop posix argv0 fuel st' gp' e' w'
            = (Ret (apply_results (fst (getopt_trace posix fuel st')) gp' e',
                    snd (getopt_trace posix fuel st')),
               {| w_stdout := w_stdout w';
                  w_stderr := (w_stderr w'
                               ++ getopt_stderr argv0 (fst (getopt_trace posix fuel st')) e')%string;
                  w_calls := w_calls w' |})).
  { intros Hr gp' e' w'. pose proof (getopt_measure_decreases _ _ _ _ Hg Hr).
    apply IH. lia. }
  destruct r as [c a|c|].
  - specialize (Hrec ltac:(discriminate)). unfold ret at 1. cbn [fst snd].
    destruct (getopt_trace posix fuel st') as [rs no]. cbn [fst snd] in *.
    cbn [apply_results getopt_stderr parse_step].
    destruct (is_param_flag c); cbn [snd]; rewrite Hrec; reflexivity.
  - specialize (Hrec ltac:(discriminate)).
    destruct (getopt_trace posix fuel st') as [rs no]. cbn [fst snd] in *.
    cbn [apply_results getopt_stderr parse_step snd].
    destruct (e =? 0).
    + unfold ret at 1 2. cbn [fst snd]. rewrite Hrec. reflexivity.
    + unfold fprintf_stderr, ret at 1 2. cbn [fst snd]. rewrite Hrec.
      cbn [w_stdout w_stderr w_calls]. rewrite string_append_assoc. reflexivity.
  - unfold ret. cbn [fst snd apply_results getopt_stderr].
    rewrite string_append_nil. destruct w; reflexivity.
Qed.

Lemma apply_results_other rs :
  forall gp e f,
    (forall a, ~ In (Libc.GOpt f a) rs) ->
    fst (apply_results rs gp e) f = gp f.
Proof.
  induction rs as [|r rs IH]; intros gp e f Hf; [reflexivity|].
  simpl. destruct (parse_step r gp e) as [gp' e'] eqn:Hp.
  rewrite IH by (intros a Ha; apply (Hf a); now right).
  destruct r as [c a|c|]; simpl in Hp; try (injection Hp as <- _; reflexivity).
  destruct (is_param_flag c); injection Hp as <- _; [|reflexivity].
  unfold set_param.
  destruct (Ascii.eqb c f) eqn:Hcf; [|reflexivity].
  apply Ascii.eqb_eq in Hcf. subst c. exfalso. apply (Hf a). now left.
Qed.

Lemma opt_kind_of_flag c :
  Libc.opt_kind_of optstring c <> Libc.NoSuchOption -> is_param_flag c = true.
Proof.
  destruct c as [[] [] [] [] [] [] [] []]; vm_compute; congruence.
Qed.

Lemma getopt_GOpt_flag posix st c a st' :
  Libc.getopt posix optstring st = (Libc.GOpt c a, st') -> is_param_flag c = true.
Proof.
  assert (Hscan : forall c0 cs rest nonopts,
             Libc.scan_option optstring c0 cs rest nonopts = (Libc.GOpt c a, st') ->
             is_param_flag c = true).
  { intros c0 cs rest nonopts H. unfold Libc.scan_option in H.
    destruct (Libc.opt_kind_of optstring c0) eqn:Hk.
    - discriminate.
    - injection H as -> _ _. apply opt_kind_of_flag. congruence.
    - destruct cs; [destruct rest|]; try discriminate;
        injection H as -> _ _; apply opt_kind_of_flag; congruence. }
  unfold Libc.getopt. destruct (Libc.g_nextchar st).
  - destruct (Libc.next_element posix (Libc.g_rest st) (Libc.g_nonopts st));
      [apply Hscan | discriminate].
  - apply Hscan.
Qed.

Lemma getopt_trace_flags posix :
  forall fuel st c a, In (Libc.GOpt c a) (fst (getopt_trace posix fuel st)) ->
                      is_param_flag c = true.
Proof.
  induction fuel as [|fuel IH]; intros st c a Hin; [destruct Hin|].
  simpl in Hin. destruct (Libc.getopt posix optstring st) as [r st'] eqn:Hg.
  destruct r as [c' a'|c'|]; [| |destruct Hin];
    destruct (getopt_trace posix fuel st') as [rs no] eqn:Ht; simpl in Hin;
    destruct Hin as [Heq|Hin]; try discriminate.
  - injection Heq as -> ->. eapply getopt_GOpt_flag; eauto.
  - eapply IH. rewrite Ht. exact Hin.
  - eapply IH. rewrite Ht. exact Hin.
Qed.

Lemma apply_results_opterr rs :
  forall gp e,
    (forall c a, In (Libc.GOpt c a) rs -> is_param_flag c = true) ->
    ~ In Libc.GEnd rs ->
    snd (apply_results rs gp e) = e + Z.of_nat (length (List.filter is_GErr rs)).
Proof.
  induction rs as [|r rs IH]; intros gp e Hfl Hend; [simpl; lia|].
  simpl apply_results. destruct (parse_step r gp e) as [gp' e'] eqn:Hp.
  rewrite IH by (try (intros c a Hin; apply (Hfl c a)); try intros Hin;
                 try apply Hend; now right).
  destruct r as [c a|c|]; simpl in Hp.
  - rewrite (Hfl c a) in Hp by now left. injection Hp as _ <-. simpl. lia.
  - injection Hp as _ <-. simpl. lia.
  - exfalso. apply Hend. now left.
Qed.

Lemma filter_is_GErr_nil rs :
  (forall c a, In (Libc.GOpt c a) rs -> is_param_flag c = true) ->
  ~ In Libc.GEnd rs ->
  (length (List.filter is_GErr rs) = O <-> ~ exists c, In (Libc.GErr c) rs).
Proof.
  induction rs as [|r rs IH]; intros Hfl Hend.
  - simpl. split; [intros _ [c []] | reflexivity].
  - assert (IH' := IH (fun c a Hin => Hfl c a (or_intror Hin))
                      (fun Hin => Hend (or_intror Hin))).
    destruct r as [c a|c|]; simpl.
    + rewrite IH'. split.
      * intros Hn [c' [Heq|Hin]]; [discriminate | apply Hn; eauto].
      * intros Hn [c' Hin]. apply Hn. exists c'. now right.
    + split; [discriminate|]. intros Hn. exfalso. apply Hn. exists c. now left.
    + exfalso. apply Hend. now left.
Qed.

Lemma getopt_trace_no_GEnd posix :
  forall fuel st, ~ In Libc.GEnd (fst (getopt_trace posix fuel st)).
Proof.
  induction fuel as [|fuel IH]; intros st Hin; [destruct Hin|].
  simpl in Hin. destruct (Libc.getopt posix optstring st) as [r st'] eqn:Hg.
  destruct r as [c' a'|c'|]; [| |destruct Hin];
    destruct (getopt_trace posix fuel st') as [rs no] eqn:Ht; simpl in Hin;
    destruct Hin as [Heq|Hin]; try discriminate;
    apply (IH st'); rewrite Ht; exact Hin.
Qed.

Lemma report_nonopts_stderr nonopts :
  forall e w,
    report_nonopts nonopts e w
    = (Ret (e + Z.of_nat (length nonopts)),
       {| w_stdout := w_stdout w; w_stderr := (w_stderr w ++ nonopt_lines nonopts)%string;
          w_calls := w_calls w |}).
Proof.
  induction nonopts as [|a rest IH]; intros e w.
  - cbn [report_nonopts length nonopt_lines]. unfold ret.
    rewrite string_append_nil, Z.add_0_r. destruct w; reflexivity.
  - cbn [report_nonopts nonopt_lines]. unfold bind, fprintf_stderr.
    rewrite IH. cbn [w_stdout w_stderr w_calls].
    rewrite string_append_assoc.
    replace (e + 1 + Z.of_nat (length rest)) with (e + Z.of_nat (length (a :: rest)))
      by (cbn [length]; lia).
    reflexivity.
Qed.

Lemma displayUsage_spec {A : Type} (appName : string) (w : world) :
  @displayUsage A appName w
  = (Halt (Exit 1),
     {| w_stdout := (w_stdout w ++ usage_text appName)%string;
        w_stderr := w_stderr w; w_calls := w_calls w |}).
Proof.
  unfold displayUsage, bind, puts, exit, halt, usage_text. unfold printf.
  cbn [w_stdout w_stderr w_calls].
  rewrite !string_append_assoc. reflexivity.
Qed.

Lemma getopt_stderr_silent argv0 rs :
  forall e, (~ exists c, In (Libc.GErr c) rs) -> getopt_stderr argv0 rs e = EmptyString.
Proof.
  induction rs as [|r rs IH]; intros e Hn; [reflexivity|].
  cbn [getopt_stderr]. rewrite IH by (intros [c Hc]; apply Hn; exists c; now right).
  destruct r as [c a|c|]; try reflexivity.
  exfalso. apply Hn. exists c. now left.
Qed.

(** [parseArgs] in closed form. *)
Lemma parseArgs_eq posix argv w :
  parseArgs posix argv w
  = let err := (getopt_stderr (hd EmptyString argv) (getopt_results posix argv) 0
                ++ nonopt_lines (getopt_nonopts posix argv))%string in
    if snd (apply_results (getopt_results posix argv)
              (setDefaultParams global_params_init) 0)
       + Z.of_nat (length (getopt_nonopts posix argv)) =? 0
    then (Ret (parsed_params posix argv),
          {| w_stdout := w_stdout w; w_stderr := (w_stderr w ++ err)%string;
             w_calls := w_calls w |})
    else (Halt (Exit 1),
          {| w_stdout := (w_stdout w ++ usage_text (hd EmptyString argv))%string;
             w_stderr := (w_stderr w ++ err)%string; w_calls := w_calls w |}).
Proof.
  unfold parseArgs, parsed_params, getopt_results, getopt_nonopts.
  set (st := Libc.getopt_init argv).
  unfold bind at 1. rewrite parse_loop_trace by lia.
  destruct (getopt_trace posix (S (Libc.getopt_measure st)) st) as [rs no].
  cbn [fst snd].
  destruct (apply_results rs (setDefaultParams global_params_init) 0) as [gp e].
  unfold bind. rewrite report_nonopts_stderr. cbn [fst snd w_stdout w_stderr w_calls].
  rewrite string_append_assoc.
  destruct (e + Z.of_nat (length no) =? 0); [reflexivity|].
  rewrite displayUsage_spec. reflexivity.
Qed.

Lemma parseArgs_spec posix argv w :
  (~ parse_fails posix argv
   /\ parseArgs posix argv w = (Ret (parsed_params posix argv), w))
  \/ (parse_fails posix argv
      /\ exists err,
          parseArgs posix argv w
          = (Halt (Exit 1),
             {| w_stdout := (w_stdout w ++ usage_text (hd EmptyString argv))%string;
                w_stderr := (w_stderr w ++ err)%string; w_calls := w_calls w |})).
Proof.
  rewrite parseArgs_eq. cbv zeta.
  unfold parse_fails, getopt_results, getopt_nonopts.
  set (st := Libc.getopt_init argv).
  pose proof (getopt_trace_flags posix (S (Libc.getopt_measure st)) st) as Hfl.
  pose proof (getopt_trace_no_GEnd posix (S (Libc.getopt_measure st)) st) as Hend.
  destruct (getopt_trace posix (S (Libc.getopt_measure st)) st) as [rs no].
  cbn [fst snd] in *.
  rewrite (apply_results_opterr rs (setDefaultParams global_params_init) 0 Hfl Hend).
  pose proof (filter_is_GErr_nil rs Hfl Hend) as Hnil.
  destruct (0 + Z.of_nat (length (List.filter is_GErr rs)) + Z.of_nat (length no) =? 0)
    eqn:Hz.
  - left. apply Z.eqb_eq in Hz.
    assert (Hno : ~ exists c, In (Libc.GErr c) rs) by (apply Hnil; lia).
    assert (Hnil' : no = []) by (destruct no; [reflexivity | cbn [length] in Hz; lia]).
    split; [intros [Herrs|Hne]; [exact (Hno Herrs) | congruence]|].
    subst no. rewrite (getopt_stderr_silent _ rs 0 Hno). cbn [nonopt_lines].
    rewrite !string_append_nil. destruct w; reflexivity.
  - right. apply Z.eqb_neq in Hz. split; [|eexists; reflexivity].
    destruct no as [|a no]; [left | right; discriminate].
    destruct (List.filter is_GErr rs) as [|r l] eqn:Hf; [cbn [length] in Hz; lia|].
    assert (Hin : In r (List.filter is_GErr rs)) by (rewrite Hf; now left).
    apply filter_In in Hin as [Hin Hr]. destruct r; try discriminate. eauto.
Qed.

Lemma parseArgs_stderr posix argv w :
  w_stderr (snd (parseArgs posix argv w))
  = (w_stderr w ++ getopt_stderr (hd EmptyString argv) (getopt_results posix argv) 0
     ++ nonopt_lines (getopt_nonopts posix argv))%string.
Proof.
  rewrite parseArgs_eq. cbv zeta.
  destruct (_ =? 0); reflexivity.
Qed.

(** ** The command line (claims C1 and C3) *)

Lemma setDefaultParams_spec_defaults flag v :
  In (flag, v) spec_defaults ->
  setDefaultParams global_params_init flag = Double.of_long v
  /\ Double.to_long (Double.of_long v) = Some v.
Proof.
  intros Hin. repeat (destruct Hin as [Heq|Hin]; [injection Heq as <- <-; now vm_compute|]).
  destruct Hin.
Qed.

(** C1, as the code has it: the command line of the first scenario is not
    accepted.  [getopt] returns '?' for each of the six characters of
    [-seed42]; the counter of [parseArgs] is [getopt]'s own [opterr], so
    after the first of them [getopt] reports the other five on the standard
    error stream.  [parseArgs] prints the usage text and the process exits
    with code 1 before any phase starts: no call reaches the manager and
    the only standard output is the usage text, so no "Time = ..." line is
    printed.  Without
    [-seed42] the same command line is accepted, with 1 client, 4 queries per
    transaction, 100 percent queried, 16 relations, 256 transactions and 80
    percent user transactions. *)
Theorem C1_seed42_is_rejected :
  forall (C : Collaborators) (posix : bool),
    run posix argv_seed42
    = (Exit 1, {| w_stdout := usage_text "vacation"; w_stderr := stderr_seed42;
                  w_calls := [] |})
    /\ exists gp,
        parseArgs posix argv_noseed world_init = (Ret gp, world_init)
        /\ map (fun f => Double.to_long (gp f)) (list_ascii_of_string "cnqrtu")
           = [Some 1; Some 4; Some 100; Some 16; Some 256; Some 80].
Proof.
  intros C posix. split.
  - destruct posix; vm_compute; reflexivity.
  - destruct (parseArgs_spec posix argv_noseed world_init) as [[_ Hp]|[Hf _]].
    + exists (parsed_params posix argv_noseed). split; [exact Hp|].
      destruct posix; vm_compute; reflexivity.
    + exfalso. destruct posix; vm_compute in Hf;
        destruct Hf as [[c Hin]|Hne]; try congruence;
        repeat (destruct Hin as [Hin|Hin]; [discriminate|]); destruct Hin.
Qed.

(** The claim C1 fails on the code: the parser does not accept the command
    line of the scenario, and the run exits with code 1. *)
Lemma C1_counterexample :
  (~ exists gp w, parseArgs false argv_seed42 world_init = (Ret gp, w))
  /\ fst (@run Ref.collaborators false argv_seed42) = Exit 1.
Proof.
  split.
  - intros (gp & w & H). vm_compute in H. discriminate.
  - vm_compute. reflexivity.
Qed.

(** C3: a flag among -c, -n, -q, -r, -t, -u that the command line omits
    leaves its parameter at the default: clients 1, queries per transaction
    10, percent queried 90, relations 65536, transactions 67108864, percent
    user 80. *)
Theorem C3_omitted_flag_takes_default :
  forall (posix : bool) (argv : list string) (gp : params) (w w' : world)
         (flag : ascii) (v : Z),
    parseArgs posix argv w = (Ret gp, w') ->
    In (flag, v) spec_defaults ->
    ~ flag_given posix argv flag ->
    gp flag = Double.of_long v /\ Double.to_long (gp flag) = Some v.
Proof.
  intros posix argv gp w w' flag v Hp Hin Hng.
  destruct (parseArgs_spec posix argv w) as [[_ Hok]|[_ [err Herr]]];
    [|rewrite Herr in Hp; discriminate].
  rewrite Hok in Hp. injection Hp as <- _.
  unfold parsed_params.
  rewrite apply_results_other by (intros a Ha; apply Hng; exists a; exact Ha).
  destruct (setDefaultParams_spec_defaults flag v Hin) as [Hd Hl].
  rewrite Hd. split; [reflexivity | exact Hl].
Qed.

Lemma C3_witness :
  parseArgs false ["vacation"; "-c4"]%string world_init
  = (Ret (parsed_params false ["vacation"; "-c4"]%string), world_init)
  /\ In ("t"%char, 67108864) spec_defaults
  /\ ~ flag_given false ["vacation"; "-c4"]%string "t"%char
  /\ Double.to_long (parsed_params false ["vacation"; "-c4"]%string "t"%char) = Some 67108864.
Proof.
  assert (H1 : parseArgs false ["vacation"; "-c4"]%string world_init
               = (Ret (parsed_params false ["vacation"; "-c4"]%string), world_init)).
  { destruct (parseArgs_spec false ["vacation"; "-c4"]%string world_init)
      as [[_ Hp]|[_ [err Herr]]]; [exact Hp|].
    vm_compute in Herr. discriminate. }
  assert (H2 : In ("t"%char, 67108864) spec_defaults).
  { simpl. tauto. }
  assert (H3 : ~ flag_given false ["vacation"; "-c4"]%string "t"%char).
  { intros [a Hin]. vm_compute in Hin. destruct Hin as [Hin|[]]. discriminate. }
  split; [exact H1|]. split; [exact H2|]. split; [exact H3|].
  exact (proj2 (C3_omitted_flag_takes_default false _ _ _ _ _ _ H1 H2 H3)).
Defined.

(** ** tm.h (claims C8 and C10) *)

(** C8: in the TL2 flavour [TM_EARLY_RELEASE(var)] is a no-op.  For every
    argument it expands to nothing: it returns with the state unchanged, in
    particular the read set of every transaction, and a statement sequence
    behaves the same with and without it. *)
Theorem C8_early_release_is_noop :
  forall (V : Type) (var : V) (st : TM.state),
    TM.TM_EARLY_RELEASE var st = (tt, st)
    /\ (forall tid, TM.readSet (TM.threads (snd (TM.TM_EARLY_RELEASE var st)) tid)
                    = TM.readSet (TM.threads st tid))
    /\ (forall (A : Type) (k : TM.action A),
          TM.seq (TM.TM_EARLY_RELEASE var) (fun _ => k) st = k st).
Proof.
  intros V var st. repeat split.
Qed.

Lemma set_thread_same st tid th :
  TM.threads (TM.set_thread st tid th) tid = th.
Proof. unfold TM.set_thread. simpl. now rewrite Nat.eqb_refl. Qed.

Lemma set_thread_live st tid th : TM.live (TM.set_thread st tid th) = TM.live st.
Proof. reflexivity. Qed.

Lemma malloc_fresh size st : fst (TM.malloc size st) ∉ TM.live st.
Proof. unfold TM.malloc. simpl. apply is_fresh. Qed.

(** C10: [P_MALLOC] and [P_FREE] are plain [malloc] and [free].  A block
    obtained through [P_MALLOC] is recorded in no allocation log and no free
    log, and it is still allocated after any transaction aborts; [P_FREE]
    releases its block at once and records nothing.  [TM_MALLOC] and
    [TM_FREE] are [STM_MALLOC] and [STM_FREE]: the block of [TM_MALLOC] is in
    the caller's allocation log and is released by the caller's abort; the
    block of [TM_FREE] is only recorded in the free log, stays allocated
    until commit, and is released by commit. *)
Theorem C10_only_tm_malloc_is_transactional :
  forall (size : Z) (self : nat) (st : TM.state),
    TM.logs_live st ->
    (* the expansions *)
    TM.P_MALLOC size = TM.malloc size
    /\ (forall p, TM.P_FREE p = TM.free p)
    /\ TM.TM_MALLOC self size = TM.STM_MALLOC self size
    /\ (forall p, TM.TM_FREE self p = TM.STM_FREE self p)
    (* P_MALLOC *)
    /\ (forall tid,
          TM.threads (snd (TM.P_MALLOC size st)) tid = TM.threads st tid
          /\ ~ In (fst (TM.P_MALLOC size st))
                  (TM.allocLog (TM.threads (snd (TM.P_MALLOC size st)) tid))
          /\ ~ In (fst (TM.P_MALLOC size st))
                  (TM.freeLog (TM.threads (snd (TM.P_MALLOC size st)) tid))
          /\ (fst (TM.P_MALLOC size st)
                ∈ TM.live (snd (TM.abort tid (snd (TM.P_MALLOC size st))))))
    (* P_FREE *)
    /\ (forall p tid,
          TM.threads (snd (TM.P_FREE p st)) tid = TM.threads st tid
          /\ p ∉ TM.live (snd (TM.P_FREE p st)))
    (* TM_MALLOC *)
    /\ (In (fst (TM.TM_MALLOC self size st))
           (TM.allocLog (TM.threads (snd (TM.TM_MALLOC self size st)) self))
        /\ (fst (TM.TM_MALLOC self size st) ∈ TM.live (snd (TM.TM_MALLOC self size st)))
        /\ (fst (TM.TM_MALLOC self size st)
              ∉ TM.live (snd (TM.abort self (snd (TM.TM_MALLOC self size st)))))
        /\ (fst (TM.TM_MALLOC self size st)
              ∈ TM.live (snd (TM.commit self (snd (TM.TM_MALLOC self size st))))))
    (* TM_FREE *)
    /\ (forall p, p ∈ TM.live st ->
          In p (TM.freeLog (TM.threads (snd (TM.TM_FREE self p st)) self))
          /\ (p ∈ TM.live (snd (TM.TM_FREE self p st)))
          /\ (~ In p (TM.allocLog (TM.threads st self)) ->
               p ∈ TM.live (snd (TM.abort self (snd (TM.TM_FREE self p st)))))
          /\ (p ∉ TM.live (snd (TM.commit self (snd (TM.TM_FREE self p st)))))).
Proof.
  intros size self st Hwf.
  split; [reflexivity|]. split; [reflexivity|].
  split; [reflexivity|]. split; [reflexivity|].
  pose proof (malloc_fresh size st) as Hfresh.
  assert (Hnolog : forall tid, ~ In (fresh (TM.live st)) (TM.allocLog (TM.threads st tid))
                               /\ ~ In (fresh (TM.live st)) (TM.freeLog (TM.threads st tid))).
  { intros tid. split; intros Hin; apply Hfresh; apply (Hwf tid); tauto. }
  unfold TM.P_MALLOC, TM.P_FREE, TM.TM_MALLOC, TM.TM_FREE, TM.STM_MALLOC, TM.STM_FREE,
    TM.malloc, TM.free, TM.abort, TM.commit in *.
  cbn [fst snd TM.live TM.threads TM.set_thread] in *.
  rewrite !Nat.eqb_refl. cbn [TM.allocLog TM.freeLog TM.empty_thread].
  split; [|split; [|split]].
  - intros tid. split; [reflexivity|].
    split; [exact (proj1 (Hnolog tid))|]. split; [exact (proj2 (Hnolog tid))|].
    apply elem_of_difference. split; [apply elem_of_union_l, elem_of_singleton; reflexivity|].
    rewrite elem_of_list_to_set, list_elem_of_In. exact (proj1 (Hnolog tid)).
  - intros p tid. split; [reflexivity|].
    rewrite elem_of_difference, elem_of_singleton. tauto.
  - split; [apply in_or_app; right; now left|].
    split; [apply elem_of_union_l, elem_of_singleton; reflexivity|]. split.
    + rewrite elem_of_difference, elem_of_list_to_set, list_elem_of_In.
      intros [_ Hn]. apply Hn. apply in_or_app. right. now left.
    + apply elem_of_difference.
      split; [apply elem_of_union_l, elem_of_singleton; reflexivity|].
      rewrite elem_of_list_to_set, list_elem_of_In. exact (proj2 (Hnolog self)).
  - intros p Hp. split; [apply in_or_app; right; now left|].
    split; [exact Hp|]. split.
    + intros Hn. apply elem_of_difference. split; [exact Hp|].
      rewrite elem_of_list_to_set, list_elem_of_In. exact Hn.
    + rewrite elem_of_difference, elem_of_list_to_set, list_elem_of_In.
      intros [_ Hn]. apply Hn. apply in_or_app. right. now left.
Qed.

Lemma C10_witness :
  TM.logs_live TM.state_init
  /\ (forall tid,
        TM.threads (snd (TM.P_MALLOC 8 TM.state_init)) tid = TM.threads TM.state_init tid
        /\ ~ In (fst (TM.P_MALLOC 8 TM.state_init))
                (TM.allocLog (TM.threads (snd (TM.P_MALLOC 8 TM.state_init)) tid))
        /\ ~ In (fst (TM.P_MALLOC 8 TM.state_init))
                (TM.freeLog (TM.threads (snd (TM.P_MALLOC 8 TM.state_init)) tid))
        /\ (fst (TM.P_MALLOC 8 TM.state_init)
              ∈ TM.live (snd (TM.abort tid (snd (TM.P_MALLOC 8 TM.state_init)))))).
Proof.
  assert (H : TM.logs_live TM.state_init).
  { intros tid p [[]|[]]. }
  split; [exact H|].
  exact (proj1 (proj2 (proj2 (proj2 (proj2
           (C10_only_tm_malloc_is_transactional 8 O TM.state_init H)))))).
Defined.

(** ** initializeManager and cleanupManager (claims C2 and C9) *)

Lemma ulong_small z : 0 <= z <= LONG_MAX -> ulong z = z.
Proof.
  unfold ulong, ULONG_MODULUS, LONG_MAX. intros H. apply Z.mod_small. lia.
Qed.

Lemma long_of_ulong_small z : 0 <= z <= LONG_MAX -> long_of_ulong z = z.
Proof.
  unfold long_of_ulong. intros H.
  destruct (z <=? LONG_MAX) eqn:E; [reflexivity|]. apply Z.leb_gt in E. lia.
Qed.

Lemma to_long_in_long d z :
  Double.to_long d = Some z -> LONG_MIN <= z <= LONG_MAX.
Proof.
  unfold Double.to_long. destruct d as [s|s| |s m e]; try discriminate.
  - intros [= <-]. unfold LONG_MIN, LONG_MAX. lia.
  - destruct (in_long _) eqn:E; [|discriminate]. intros [= <-].
    unfold in_long in E. apply andb_true_iff in E as [E1 E2].
    apply Z.leb_le in E1, E2. lia.
Qed.

Lemma for_loop_nonpos {S : Type} (n : Z) (body : Z -> S -> M S) (s : S) (w : world) :
  n <= 0 -> for_loop n body s w = (Ret s, w).
Proof.
  intros Hn. unfold for_loop. replace (Z.to_nat n) with O by lia. reflexivity.
Qed.

Section ManagerFacts.

Context {C : Collaborators}.

Lemma random_mod_spec (r : random_t) (m : Z) (w : world) :
  1 <= m <= LONG_MAX ->
  exists x r', random_mod r m w = (Ret (x, r'), w) /\ 0 <= x < m.
Proof.
  intros Hm. unfold random_mod.
  destruct (random_generate r) as [g r'].
  rewrite (ulong_small m) by lia.
  destruct (m =? 0) eqn:E; [apply Z.eqb_eq in E; lia|].
  exists (ulong g mod m), r'. split; [reflexivity|].
  apply Z.mod_pos_bound. lia.
Qed.

Lemma array_get_spec (l : list Z) (i v : Z) (w : world) :
  0 <= i -> l !! Z.to_nat i = Some v -> array_get (Some l) i w = (Ret v, w).
Proof.
  intros Hi Hl. unfold array_get.
  destruct (0 <=? i) eqn:E; [|apply Z.leb_gt in E; lia].
  rewrite Hl. reflexivity.
Qed.

Lemma array_set_spec (l : list Z) (i v : Z) (w : world) :
  0 <= i < Z.of_nat (length l) ->
  array_set (Some l) i v w = (Ret (Some (<[Z.to_nat i := v]> l)), w).
Proof.
  intros Hi. unfold array_set.
  destruct (0 <=? i) eqn:E1; [|apply Z.leb_gt in E1; lia].
  destruct (i <? Z.of_nat (length l)) eqn:E2; [|apply Z.ltb_ge in E2; lia].
  reflexivity.
Qed.

Lemma init_ids_some (n : Z) (w : world) :
  init_ids n (Some (replicate (Z.to_nat n) 0)) w = (Ret (Some (seqZ 1 n)), w).
Proof.
  unfold init_ids, for_loop.
  pose proof (for_from_rule
    (fun k ids w' => w' = w /\ exists l, ids = Some l /\ length l = Z.to_nat n
                     /\ forall j, (j < k)%nat -> l !! j = Some (1 + Z.of_nat j))
    (fun _ _ => False)
    (fun i ids => array_set ids i (i + 1)) 0 (Z.to_nat n)) as Hrule.
  cbv beta in Hrule.
  specialize (Hrule ltac:(
    intros k s w' Hk [-> (l & -> & Hlen & Hl)];
    rewrite array_set_spec by lia;
    split; [reflexivity|];
    eexists; split; [reflexivity|]; split; [now rewrite length_insert|];
    intros j Hj; rewrite Z.add_0_l, Nat2Z.id;
    destruct (decide (j = k)) as [->|Hne];
      [rewrite list_lookup_insert_eq by lia; f_equal; lia
      |rewrite list_lookup_insert_ne by lia; apply Hl; lia])).
  specialize (Hrule (Some (replicate (Z.to_nat n) 0)) w ltac:(
    split; [reflexivity|]; eexists; split; [reflexivity|];
    split; [apply length_replicate | intros j Hj; lia])).
  destruct (for_from (Z.to_nat n) 0 _ _ w) as [[ids|o] w']; [|destruct Hrule].
  destruct Hrule as [-> (l & -> & Hlen & Hl)].
  f_equal. f_equal. f_equal. apply list_eq. intros j.
  destruct (decide (j < Z.to_nat n)%nat) as [Hj|Hj].
  - rewrite Hl by exact Hj. symmetry. apply lookup_seqZ_lt. lia.
  - rewrite lookup_ge_None_2 by lia. symmetry. apply lookup_seqZ_ge. lia.
Qed.

(** A block shorter than [numRelation] is overrun by the first loop. *)
Lemma init_ids_short (n : Z) (l : list Z) (w : world) :
  (length l < Z.to_nat n)%nat ->
  init_ids n (Some l) w = (Halt Undefined, w).
Proof.
  intros Hshort. unfold init_ids, for_loop.
  pose proof (for_from_rule
    (fun k ids w' => w' = w /\ (k <= length l)%nat
                     /\ exists l', ids = Some l' /\ length l' = length l)
    (fun o w' => o = Undefined /\ w' = w)
    (fun i ids => array_set ids i (i + 1)) 0 (Z.to_nat n)) as Hrule.
  cbv beta in Hrule.
  specialize (Hrule ltac:(
    intros k s w' Hk [-> (Hle & l' & -> & Hlen)];
    destruct (decide (k < length l)%nat) as [Hlt|Hge];
    [rewrite array_set_spec by lia;
     split; [reflexivity|]; split; [lia|];
     eexists; split; [reflexivity | now rewrite length_insert]
    |unfold array_set;
     replace (0 + Z.of_nat k <? Z.of_nat (length l')) with false
       by (symmetry; apply Z.ltb_ge; lia);
     rewrite andb_false_r; split; reflexivity])).
  specialize (Hrule (Some l) w ltac:(
    split; [reflexivity|]; split; [lia|]; eexists; split; reflexivity)).
  destruct (for_from (Z.to_nat n) 0 _ _ w) as [[ids|o] w'].
  - destruct Hrule as (_ & Hle & _). lia.
  - destruct Hrule as [-> ->]. reflexivity.
Qed.

(** The number of [long]s in the block of [malloc(n * sizeof(long))]. *)
Lemma malloc_longs_capacity (n : Z) :
  1 <= n <= LONG_MAX ->
  (n < 2 ^ 61 /\ ulong (n * sizeof_long) / sizeof_long = n)
  \/ (2 ^ 61 <= n /\ ulong (n * sizeof_long) / sizeof_long < n).
Proof.
  intros Hn. unfold ulong, ULONG_MODULUS, sizeof_long, LONG_MAX in *.
  destruct (Z_lt_ge_dec n (2 ^ 61)) as [Hlt|Hge].
  - left. split; [exact Hlt|]. rewrite Z.mod_small by lia. apply Z.div_mul. lia.
  - right. split; [lia|].
    pose proof (Z.mod_pos_bound (n * 8) (2 ^ 64) ltac:(lia)).
    apply Z.div_lt_upper_bound; lia.
Qed.

Lemma init_ids_cases (n : Z) (w : world) :
  1 <= n <= LONG_MAX ->
  (init_ids n (malloc_longs n) w = (Ret (Some (seqZ 1 n)), w)
   /\ malloc_ok (ulong (n * sizeof_long)) = true /\ n < 2 ^ 61)
  \/ (init_ids n (malloc_longs n) w = (Halt Undefined, w)
      /\ (malloc_ok (ulong (n * sizeof_long)) = false \/ 2 ^ 61 <= n)).
Proof.
  intros Hn. unfold malloc_longs. cbv zeta.
  destruct (malloc_ok _) eqn:Hm.
  - destruct (malloc_longs_capacity n Hn) as [[Hlt ->]|[Hge Hcap]].
    + left. split; [apply init_ids_some | auto].
    + right. split; [|now right]. apply init_ids_short.
      rewrite length_replicate.
      assert (0 <= ulong (n * sizeof_long) / sizeof_long).
      { apply Z.div_pos; [apply Z.mod_pos_bound; reflexivity | reflexivity]. }
      lia.
  - right. split; [|now left]. unfold init_ids, for_loop.
    destruct (Z.to_nat n) as [|k] eqn:E; [lia|]. reflexivity.
Qed.

Lemma shuffle_ids_spec (n : Z) (l : list Z) (r : random_t) (w : world) :
  1 <= n <= LONG_MAX -> length l = Z.to_nat n ->
  exists l' r', shuffle_ids n (@pair long_array random_t (Some l) r) w
               = (Ret (@pair long_array random_t (Some l') r'), w) /\ l' ≡ₚ l.
Proof.
  intros Hn Hlen. unfold shuffle_ids, for_loop.
  pose proof (for_from_rule
    (fun (k : nat) (s : long_array * random_t) w' =>
       w' = w /\ exists l' r', s = (Some l', r') /\ l' ≡ₚ l)
    (fun _ _ => False)) as Hrule.
  match goal with |- context [for_from ?c ?i ?b ?s ?w0] =>
    specialize (Hrule b i c) end.
  cbv beta in Hrule.
  match type of Hrule with ?A -> _ =>
    assert (Hbody : A); [|specialize (Hrule Hbody); clear Hbody] end.
  { intros k s w' Hk [-> (l' & r' & -> & Hperm)].
    assert (Hlen' : length l' = Z.to_nat n) by (now rewrite Hperm).
    unfold bind.
    destruct (random_mod_spec r' n w Hn) as (x & r1 & -> & Hx). cbn [fst snd].
    destruct (random_mod_spec r1 n w Hn) as (y & r2 & -> & Hy). cbn [fst snd].
    rewrite !long_of_ulong_small by lia.
    destruct (lookup_lt_is_Some_2 l' (Z.to_nat x) ltac:(lia)) as [a Ha].
    destruct (lookup_lt_is_Some_2 l' (Z.to_nat y) ltac:(lia)) as [b Hb].
    rewrite (array_get_spec l' x a) by (lia || exact Ha).
    rewrite (array_get_spec l' y b) by (lia || exact Hb).
    rewrite array_set_spec by lia.
    rewrite array_set_spec by (rewrite length_insert; lia).
    split; [reflexivity|]. eexists _, _. split; [reflexivity|].
    rewrite Permutation_insert_swap by eassumption. exact Hperm. }
  specialize (Hrule (Some l, r) w ltac:(split; [reflexivity|]; eauto)).
  destruct (for_from _ _ _ _ w) as [[s|o] w']; [|destruct Hrule].
  destruct Hrule as [-> (l' & r' & -> & Hperm)]. eauto.
Qed.

End ManagerFacts.

Lemma seqZ_snoc (m : Z) (k : nat) :
  seqZ m (Z.of_nat (Datatypes.S k)) = seqZ m (Z.of_nat k) ++ [m + Z.of_nat k].
Proof. apply seqZ_S. Qed.

Lemma add_ids_app t cs cs' : add_ids t (cs ++ cs') = add_ids t cs ++ add_ids t cs'.
Proof. unfold add_ids. apply omap_app. Qed.

Lemma is_add_call_ids t l cs :
  Forall2 (is_add_call t) l cs ->
  add_ids t cs = l
  /\ (forall t', t' <> t -> add_ids t' cs = [])
  /\ (0 <= t < 4 -> Forall add_call_ok cs).
Proof.
  induction 1 as [|id c l cs (num & price & -> & Hnum & Hprice) _ (IH1 & IH2 & IH3)].
  - repeat split; intros; constructor.
  - split; [|split].
    + simpl. rewrite Z.eqb_refl. f_equal. exact IH1.
    + intros t' Hne. simpl.
      destruct (t =? t') eqn:E; [apply Z.eqb_eq in E; congruence|].
      apply IH2, Hne.
    + intros Ht. constructor; [|apply IH3, Ht]. simpl. tauto.
Qed.

Lemma add_tables_app cs cs' : add_tables (cs ++ cs') = add_tables cs ++ add_tables cs'.
Proof. unfold add_tables. apply omap_app. Qed.

Lemma is_add_call_tables t l cs :
  Forall2 (is_add_call t) l cs -> add_tables cs = replicate (length l) t.
Proof.
  induction 1 as [|id c l cs (num & price & -> & _) _ IH]; [reflexivity|].
  simpl. now rewrite IH.
Qed.

Section ManagerInit.

Context {C : Collaborators}.

Lemma manager_add_lookup (t : Z) :
  0 <= t < 4 -> exists f, manager_add !! Z.to_nat t = Some f.
Proof.
  intros Ht.
  assert (Hc : t = 0 \/ t = 1 \/ t = 2 \/ t = 3) by lia.
  destruct Hc as [-> | [-> | [-> | ->]]]; eexists; reflexivity.
Qed.

Lemma replay_adds_app (m : manager_t) (cs cs' : list call) :
  replay_adds m (cs ++ cs')
  = match replay_adds m cs with
    | Some m' => replay_adds m' cs'
    | None => None
    end.
Proof.
  revert m. induction cs as [|c cs IH]; intros m; simpl; [reflexivity|].
  destruct (add_call_result m c); [apply IH | reflexivity].
Qed.

Lemma add_call_result_add (t : Z) f (m : manager_t) (id num price : Z)
    (status : bool) (m' : manager_t) :
  0 <= t -> manager_add !! Z.to_nat t = Some f ->
  f m id num price = (status, m') ->
  add_call_result m (CallAdd t id num price status) = Some m'.
Proof.
  intros Ht Hf Hadd. unfold add_call_result.
  rewrite (proj2 (Z.leb_le 0 t) Ht), Hf, Hadd. cbn [fst snd].
  rewrite Bool.eqb_reflx. reflexivity.
Qed.

Lemma populate_table_trace (t n : Z) (l : list Z) (r : random_t) (m : manager_t) (w : world) :
  0 <= t < 4 -> length l = Z.to_nat n ->
  match populate_table t n (Some l) (r, m) w with
  | (Ret s, w') =>
      w_stdout w' = w_stdout w /\ w_stderr w' = w_stderr w
      /\ exists cs, w_calls w' = w_calls w ++ cs /\ Forall2 (is_add_call t) l cs
                    /\ replay_adds m cs = Some (snd s)
  | (Halt o, w') => o = Abort /\ stopped_at_failed_add m w w'
  end.
Proof.
  intros Ht Hlen. unfold populate_table, for_loop.
  pose proof (for_from_rule
    (fun (k : nat) (s : random_t * manager_t) w' =>
       w_stdout w' = w_stdout w /\ w_stderr w' = w_stderr w
       /\ exists cs, w_calls w' = w_calls w ++ cs
                     /\ Forall2 (is_add_call t) (take k l) cs
                     /\ replay_adds m cs = Some (snd s))
    (fun o w' => o = Abort /\ stopped_at_failed_add m w w')) as Hrule.
  match goal with |- context [for_from ?c ?i ?b ?s ?w0] =>
    specialize (Hrule b i c) end.
  cbv beta in Hrule.
  match type of Hrule with ?A -> _ =>
    assert (Hbody : A); [|specialize (Hrule Hbody); clear Hbody] end.
  { intros k [r' m'] w' Hk (Hout & Herr & cs & Hcalls & Hcs & Hreplay).
    cbn [snd] in Hreplay.
    destruct (lookup_lt_is_Some_2 l k ltac:(lia)) as [id Hid].
    unfold bind.
    rewrite (array_get_spec l _ id) by (rewrite ?Z.add_0_l, ?Nat2Z.id; lia || exact Hid).
    destruct (random_mod_spec r' 5 w' ltac:(unfold LONG_MAX; lia)) as (x & r1 & -> & Hx).
    cbn [fst snd].
    destruct (random_mod_spec r1 5 w' ltac:(unfold LONG_MAX; lia)) as (y & r2 & -> & Hy).
    cbn [fst snd].
    destruct (manager_add_lookup t Ht) as [f Hf]. rewrite Hf. unfold deref, ret.
    rewrite (ulong_small ((x + 1) * 100)) by (unfold LONG_MAX; lia).
    rewrite (ulong_small (y * 10 + 50)) by (unfold LONG_MAX; lia).
    rewrite !long_of_ulong_small by (unfold LONG_MAX; lia).
    destruct (f m' id ((x + 1) * 100) (y * 10 + 50)) as [status m''] eqn:Hadd.
    pose proof (add_call_result_add t f m' id _ _ status m'' ltac:(lia) Hf Hadd) as Hres.
    unfold log_call, assert. destruct status.
    - unfold ret. cbn [w_stdout w_stderr w_calls snd].
      split; [exact Hout|]. split; [exact Herr|].
      exists (cs ++ [CallAdd t id ((x + 1) * 100) (y * 10 + 50) true]).
      split; [rewrite Hcalls, app_assoc; reflexivity|].
      split.
      + rewrite (take_S_r l k id Hid). apply Forall2_app; [exact Hcs|].
        constructor; [|constructor].
        exists ((x + 1) * 100), (y * 10 + 50). split; [reflexivity|].
        assert (Hxc : x = 0 \/ x = 1 \/ x = 2 \/ x = 3 \/ x = 4) by lia.
        assert (Hyc : y = 0 \/ y = 1 \/ y = 2 \/ y = 3 \/ y = 4) by lia.
        split.
        * destruct Hxc as [->|[-> | [-> | [-> | ->]]]]; simpl; tauto.
        * destruct Hyc as [->|[-> | [-> | [-> | ->]]]]; simpl; tauto.
      + rewrite replay_adds_app, Hreplay. cbn [replay_adds]. rewrite Hres. reflexivity.
    - unfold bind, fprintf_stderr, halt. cbn [w_stdout w_stderr w_calls].
      split; [reflexivity|]. split; [exact Hout|].
      split; [rewrite Herr; reflexivity|].
      exists cs, (CallAdd t id ((x + 1) * 100) (y * 10 + 50) false), m'.
      split; [rewrite Hcalls, app_assoc; reflexivity|].
      split; [apply (is_add_call_ids t _ _ Hcs), Ht|].
      split; [exists t, id, ((x + 1) * 100), (y * 10 + 50); reflexivity|].
      split; [exact Hreplay | rewrite Hres; discriminate]. }
  specialize (Hrule (r, m) w ltac:(
    split; [reflexivity|]; split; [reflexivity|]; exists [];
    split; [now rewrite app_nil_r | split; [constructor | reflexivity]])).
  destruct (for_from _ _ _ _ w) as [[s|o] w']; [|exact Hrule].
  destruct Hrule as (Hout & Herr & cs & Hcalls & Hcs & Hreplay).
  rewrite firstn_all2 in Hcs by lia. eauto 10.
Qed.

Lemma fill_table_trace (t n : Z) (ids : long_array) (r : random_t) (m : manager_t)
    (w : world) :
  0 <= t < 4 -> n <= LONG_MAX ->
  (n <= 0 \/ exists l, ids = Some l /\ l ≡ₚ seqZ 1 n) ->
  match (ir <- shuffle_ids n (ids, r) ;;
         rm <- populate_table t n (fst ir) (snd ir, m) ;;
         ret (fst ir, fst rm, snd rm)) w with
  | (Ret s, w') =>
      w_stdout w' = w_stdout w /\ w_stderr w' = w_stderr w
      /\ (n <= 0 \/ exists l, fst (fst s) = Some l /\ l ≡ₚ seqZ 1 n)
      /\ exists cs, w_calls w' = w_calls w ++ cs
                    /\ Forall add_call_ok cs
                    /\ add_ids t cs ≡ₚ seqZ 1 n
                    /\ (forall t', t' <> t -> add_ids t' cs = [])
                    /\ add_tables cs = replicate (Z.to_nat n) t
                    /\ replay_adds m cs = Some (snd s)
  | (Halt o, w') => o = Abort /\ stopped_at_failed_add m w w'
  end.
Proof.
  intros Ht Hmax Hids.
  destruct (Z_le_gt_dec n 0) as [Hle|Hgt].
  { unfold bind, shuffle_ids, populate_table.
    rewrite !for_loop_nonpos by exact Hle. unfold ret. cbn [fst snd].
    split; [reflexivity|]. split; [reflexivity|]. split; [now left|].
    exists []. split; [now rewrite app_nil_r|]. split; [constructor|].
    split; [rewrite seqZ_nil by exact Hle; reflexivity|].
    split; [reflexivity|]. split; [|reflexivity].
    replace (Z.to_nat n) with O by lia. reflexivity. }
  destruct Hids as [Hle|(l & -> & Hperm)]; [lia|].
  assert (Hlen : length l = Z.to_nat n) by (rewrite Hperm, length_seqZ; reflexivity).
  unfold bind.
  destruct (shuffle_ids_spec n l r w ltac:(lia) Hlen) as (l' & r' & -> & Hperm').
  cbn [fst snd].
  assert (Hlen' : length l' = Z.to_nat n) by (now rewrite Hperm').
  pose proof (populate_table_trace t n l' r' m w Ht Hlen') as Hpop.
  destruct (populate_table t n (Some l') (r', m) w) as [[[r'' m'']|o] w2];
    [|exact Hpop].
  destruct Hpop as (Hout2 & Herr2 & cs' & Hcalls2 & Hcs' & Hreplay).
  pose proof (is_add_call_tables t _ _ Hcs') as Htabs.
  apply is_add_call_ids in Hcs' as (Hids & Hother & Hok').
  unfold ret. cbn [fst snd].
  split; [exact Hout2|]. split; [exact Herr2|].
  split; [right; exists l'; split; [reflexivity | now rewrite Hperm']|].
  exists cs'. split; [exact Hcalls2|]. split; [apply Hok', Ht|].
  split; [rewrite Hids, Hperm'; exact Hperm|]. split; [exact Hother|].
  split; [rewrite Htabs, Hlen'; reflexivity | exact Hreplay].
Qed.

(** [initializeManager] in full: what it leaves when it returns, and the
    three ways it can stop. *)
Lemma initializeManager_trace (gp : params) (n : Z) (w : world) :
  Double.to_long (gp PARAM_RELATIONS) = Some n ->
  match initializeManager gp w with
  | (Ret m, w') =>
      w_stdout w' = (w_stdout w ++ "Initializing manager... done." ++ nl)%string
      /\ w_stderr w' = w_stderr w
      /\ random_alloc <> None
      /\ (n <= 0 \/ (malloc_ok (ulong (n * sizeof_long)) = true /\ n < 2 ^ 61))
      /\ exists m0 cs,
          manager_alloc = Some m0
          /\ w_calls w' = w_calls w ++ cs
          /\ Forall add_call_ok cs
          /\ (forall t, 0 <= t < 4 -> add_ids t cs ≡ₚ seqZ 1 n)
          /\ add_tables cs = concat (map (replicate (Z.to_nat n)) (seqZ 0 4))
          /\ replay_adds m0 cs = Some m
  | (Halt o, w') =>
      w_stdout w' = (w_stdout w ++ "Initializing manager... ")%string
      /\ ((o = Abort /\ (random_alloc = None \/ manager_alloc = None)
           /\ w_calls w' = w_calls w)
          \/ (o = Undefined /\ random_alloc <> None /\ manager_alloc <> None
              /\ 1 <= n
              /\ (malloc_ok (ulong (n * sizeof_long)) = false \/ 2 ^ 61 <= n)
              /\ w_stderr w' = w_stderr w
              /\ w_calls w' = w_calls w)
          \/ (o = Abort /\ random_alloc <> None
              /\ (n <= 0 \/ (malloc_ok (ulong (n * sizeof_long)) = true /\ n < 2 ^ 61))
              /\ exists m0, manager_alloc = Some m0
                 /\ stopped_at_failed_add m0
                      {| w_stdout := (w_stdout w ++ "Initializing manager... ")%string;
                         w_stderr := w_stderr w; w_calls := w_calls w |} w'))
  end.
Proof.
  intros Hn. pose proof (to_long_in_long _ _ Hn) as Hrange.
  unfold initializeManager, bind, printf, assert_ptr, cast_long.
  destruct random_alloc as [r0|];
    [|split; [reflexivity|]; left; auto].
  destruct manager_alloc as [m0|];
    [|split; [reflexivity|]; left; auto].
  unfold ret at 1 2. rewrite Hn. unfold ret at 1.
  set (w0 := {| w_stdout := (w_stdout w ++ "Initializing manager... ")%string;
                w_stderr := w_stderr w; w_calls := w_calls w |}).
  assert (Hinit : (exists ids, init_ids n (malloc_longs n) w0 = (Ret ids, w0)
                               /\ (n <= 0 \/ exists l, ids = Some l /\ l ≡ₚ seqZ 1 n)
                               /\ (n <= 0 \/ (malloc_ok (ulong (n * sizeof_long)) = true
                                              /\ n < 2 ^ 61)))
                  \/ (init_ids n (malloc_longs n) w0 = (Halt Undefined, w0)
                      /\ 1 <= n
                      /\ (malloc_ok (ulong (n * sizeof_long)) = false \/ 2 ^ 61 <= n))).
  { destruct (Z_le_gt_dec n 0) as [Hle|Hgt].
    - left. eexists. split; [apply for_loop_nonpos; exact Hle|]. split; now left.
    - destruct (init_ids_cases n w0 ltac:(lia)) as [[H Hm]|[H Hm]];
        [left | right; split; [exact H | split; [lia | exact Hm]]].
      eexists. split; [exact H|]. split; right; eauto. }
  destruct Hinit as [(ids0 & -> & Hids0 & Hmem) | (-> & Hn1 & Hm)].
  2:{ split; [reflexivity|]. right. left.
      repeat split; try assumption; discriminate. }
  pose proof (for_from_rule
    (fun (k : nat) (s : long_array * random_t * manager_t) w' =>
       w_stdout w' = w_stdout w0 /\ w_stderr w' = w_stderr w0
       /\ (n <= 0 \/ exists l, fst (fst s) = Some l /\ l ≡ₚ seqZ 1 n)
       /\ exists cs, w_calls w' = w_calls w0 ++ cs
                     /\ Forall add_call_ok cs
                     /\ (forall t, 0 <= t < Z.of_nat k -> add_ids t cs ≡ₚ seqZ 1 n)
                     /\ (forall t, Z.of_nat k <= t -> add_ids t cs = [])
                     /\ add_tables cs
                        = concat (map (replicate (Z.to_nat n)) (seqZ 0 (Z.of_nat k)))
                     /\ replay_adds m0 cs = Some (snd s))
    (fun o w' => o = Abort /\ stopped_at_failed_add m0 w0 w')) as Hrule.
  unfold for_loop.
  match goal with |- context [for_from ?c ?i ?b ?s ?w1] =>
    specialize (Hrule b i c) end.
  cbv beta in Hrule.
  match type of Hrule with ?A -> _ =>
    assert (Hbody : A); [|specialize (Hrule Hbody); clear Hbody] end.
  { intros k [[ids r] m] w1 Hk
      (Hout & Herr & Hids & cs & Hcalls & Hok & Hdone & Htodo & Htabs & Hreplay).
    cbn [fst snd] in Hids, Hreplay.
    assert (Hk4 : (k < 4)%nat) by exact Hk.
    pose proof (fill_table_trace (0 + Z.of_nat k) n ids r m w1 ltac:(lia) ltac:(lia) Hids)
      as Hfill.
    match goal with |- match ?t with _ => _ end =>
      match type of Hfill with match ?u with _ => _ end =>
        change t with u; destruct u as [[s|o] w2] end end.
    - destruct Hfill as (Hout2 & Herr2 & Hids2 & cs' & Hcalls2 & Hok' & Hthis & Hother
                         & Htabs' & Hreplay').
      split; [congruence|]. split; [congruence|]. split; [exact Hids2|].
      exists (cs ++ cs'). split; [rewrite Hcalls2, Hcalls, app_assoc; reflexivity|].
      split; [apply Forall_app; split; assumption|].
      split; [|split; [|split]].
      + intros t Ht. rewrite add_ids_app.
        destruct (decide (t = 0 + Z.of_nat k)) as [->|Hne].
        * rewrite Htodo by lia. exact Hthis.
        * rewrite (Hother t Hne), app_nil_r. apply Hdone. lia.
      + intros t Ht. rewrite add_ids_app, Htodo, Hother by lia. reflexivity.
      + rewrite add_tables_app, Htabs, Htabs', seqZ_snoc, map_app, concat_app.
        simpl. rewrite app_nil_r. reflexivity.
      + rewrite replay_adds_app, Hreplay. exact Hreplay'.
    - destruct Hfill as (-> & Hout2 & Herr2 & cs' & c & m1 & Hcalls2 & Hok' & Hfail
                         & Hreplay' & Hres).
      split; [reflexivity|]. split; [congruence|]. split; [congruence|].
      exists (cs ++ cs'), c, m1.
      split; [rewrite Hcalls2, Hcalls, <- !app_assoc; reflexivity|].
      split; [apply Forall_app; split; assumption|]. split; [exact Hfail|].
      split; [rewrite replay_adds_app, Hreplay; exact Hreplay' | exact Hres]. }
  specialize (Hrule (ids0, r0, m0) w0 ltac:(
    split; [reflexivity|]; split; [reflexivity|];
    split; [exact Hids0|];
    exists []; split; [now rewrite app_nil_r|]; split; [constructor|];
    split; [intros t Ht; lia|]; split; [reflexivity|]; split; reflexivity)).
  destruct (for_from _ _ _ _ w0) as [[s|o] w1].
  - destruct Hrule as (Hout & Herr & _ & cs & Hcalls & Hok & Hperm & _ & Htabs & Hreplay).
    unfold puts, printf, ret. cbn [w_stdout w_stderr w_calls].
    rewrite Hout, Herr, Hcalls. unfold w0. cbn [w_stdout w_stderr w_calls].
    split; [rewrite string_append_assoc; reflexivity|]. split; [reflexivity|].
    split; [discriminate|]. split; [exact Hmem|].
    exists m0, cs. split; [reflexivity|]. split; [reflexivity|]. split; [exact Hok|].
    split; [exact Hperm|]. split; [exact Htabs | exact Hreplay].
  - destruct Hrule as (-> & Hstop).
    split; [apply Hstop|]. right. right.
    split; [reflexivity|]. split; [discriminate|]. split; [exact Hmem|].
    exists m0. split; [reflexivity | exact Hstop].
Qed.

Lemma initializeManager_spec (gp : params) (n : Z) (w : world) :
  Double.to_long (gp PARAM_RELATIONS) = Some n ->
  match initializeManager gp w with
  | (Ret _, w') =>
      w_stdout w' = (w_stdout w ++ "Initializing manager... done." ++ nl)%string
      /\ w_stderr w' = w_stderr w
      /\ exists cs, w_calls w' = w_calls w ++ cs
                    /\ Forall add_call_ok cs
                    /\ forall t, 0 <= t < 4 -> add_ids t cs ≡ₚ seqZ 1 n
  | (Halt o, _) => abnormal o
  end.
Proof.
  intros Hn. pose proof (initializeManager_trace gp n w Hn) as H.
  destruct (initializeManager gp w) as [[m|o] w'].
  - destruct H as (Hout & Herr & _ & _ & m0 & cs & _ & Hcalls & Hok & Hperm & _).
    split; [exact Hout|]. split; [exact Herr|]. eauto.
  - destruct H as (_ & [(-> & _)|[(-> & _)|(-> & _)]]); [left | right | left]; reflexivity.
Qed.

End ManagerInit.

Lemma delete_customer_ids_app cs cs' :
  delete_customer_ids (cs ++ cs') = delete_customer_ids cs ++ delete_customer_ids cs'.
Proof. unfold delete_customer_ids. apply omap_app. Qed.


Lemma client_allocs_app cs cs' :
  client_allocs (cs ++ cs') = client_allocs cs ++ client_allocs cs'.
Proof. unfold client_allocs. apply omap_app. Qed.

Lemma seqZ_to_nat (c : Z) : seqZ 0 (Z.of_nat (Z.to_nat c)) = seqZ 0 c.
Proof.
  destruct (Z_le_gt_dec c 0) as [Hle|Hgt].
  - rewrite !seqZ_nil by lia. reflexivity.
  - rewrite Z2Nat.id by lia. reflexivity.
Qed.

Lemma teardown_no_delete (c : Z) : delete_customer_ids (teardown_calls c) = [].
Proof.
  unfold teardown_calls, delete_customer_ids. rewrite omap_app.
  induction (seqZ 0 c) as [|i l IH]; [reflexivity | exact IH].
Qed.

Lemma teardown_no_add (c t : Z) : add_ids t (teardown_calls c) = [].
Proof.
  unfold teardown_calls, add_ids. rewrite omap_app.
  induction (seqZ 0 c) as [|i l IH]; [reflexivity | exact IH].
Qed.

Lemma teardown_no_alloc (c : Z) : client_allocs (teardown_calls c) = [].
Proof.
  unfold teardown_calls, client_allocs. rewrite omap_app.
  induction (seqZ 0 c) as [|i l IH]; [reflexivity | exact IH].
Qed.

Section DriverFacts.

Context {C : Collaborators}.

Lemma cleanupManager_spec (gp : params) (n : Z) (m : manager_t) (w : world) :
  Double.to_long (gp PARAM_RELATIONS) = Some n ->
  exists m' cs,
    cleanupManager gp m w
    = (Ret m', {| w_stdout := w_stdout w; w_stderr := w_stderr w;
                  w_calls := w_calls w ++ map CallDeleteCustomer (seqZ 1 n) ++ cs |})
    /\ delete_customer_ids cs = []
    /\ add_ids 3 cs = [] /\ client_allocs cs = [].
Proof.
  intros Hn. unfold cleanupManager, bind, cast_long. rewrite Hn. unfold ret at 1.
  unfold for_loop.
  pose proof (for_from_rule
    (fun (k : nat) (s : manager_t) w' =>
       w' = {| w_stdout := w_stdout w; w_stderr := w_stderr w;
               w_calls := w_calls w ++ map CallDeleteCustomer (seqZ 1 (Z.of_nat k)) |})
    (fun _ _ => False)) as Hrule1.
  match goal with |- context [for_from ?c ?i ?b m w] =>
    specialize (Hrule1 b i c) end.
  cbv beta in Hrule1.
  match type of Hrule1 with ?A -> _ =>
    assert (Hbody : A); [|specialize (Hrule1 Hbody); clear Hbody] end.
  { intros k s w' Hk ->. unfold bind, log_call, ret. cbn [w_stdout w_stderr w_calls].
    rewrite seqZ_snoc, map_app, <- app_assoc. simpl.
    replace (0 + Z.of_nat k + 1) with (1 + Z.of_nat k) by lia. reflexivity. }
  specialize (Hrule1 m w ltac:(simpl; rewrite app_nil_r; destruct w; reflexivity)).
  destruct (for_from _ _ _ m w) as [[m1|o] w1]; [|destruct Hrule1].
  subst w1.
  pose proof (for_from_rule
    (fun (k : nat) (s : manager_t) w' =>
       exists cs,
         w' = {| w_stdout := w_stdout w; w_stderr := w_stderr w;
                 w_calls := w_calls w ++ map CallDeleteCustomer
                                           (seqZ 1 (Z.of_nat (Z.to_nat n))) ++ cs |}
         /\ delete_customer_ids cs = [] /\ add_ids 3 cs = [] /\ client_allocs cs = [])
    (fun _ _ => False)) as Hrule2.
  match goal with |- context [for_from ?c ?i ?b m1 ?w1] =>
    specialize (Hrule2 b i c) end.
  cbv beta in Hrule2.
  match type of Hrule2 with ?A -> _ =>
    assert (Hbody : A); [|specialize (Hrule2 Hbody); clear Hbody] end.
  { intros k s w' Hk (cs & -> & Hd & Ha & Hc).
    unfold bind, log_call, ret. cbn [w_stdout w_stderr w_calls].
    eexists. split.
    - f_equal. rewrite <- !app_assoc. reflexivity.
    - rewrite !delete_customer_ids_app, !add_ids_app, !client_allocs_app, Hd, Ha, Hc.
      repeat split. }
  match goal with |- context [for_from ?c ?i ?b m1 ?w1] =>
    specialize (Hrule2 m1 w1 ltac:(exists []; rewrite app_nil_r; repeat split));
    destruct (for_from c i b m1 w1) as [[m2|o] w2]; [|destruct Hrule2] end.
  destruct Hrule2 as (cs & -> & Hd & Ha & Hc).
  exists m2, cs. split; [|repeat split; assumption].
  assert (Hseq : seqZ 1 (Z.of_nat (Z.to_nat n)) = seqZ 1 n).
  { destruct (Z_le_gt_dec n 0) as [Hle|Hgt].
    - rewrite !seqZ_nil by lia. reflexivity.
    - rewrite Z2Nat.id by lia. reflexivity. }
  rewrite Hseq. reflexivity.
Qed.

End DriverFacts.

Section ClientFacts.

Context {C : Collaborators}.

Lemma initializeClients_spec (gp : params) (m : manager_t) (w : world) :
  match initializeClients gp m w with
  | (Ret clients, w') =>
      exists cfg tpc qr,
        reads_config gp cfg
        /\ transactions_per_client (cfg_transactions cfg) (cfg_clients cfg) = Some tpc
        /\ query_range (cfg_queries cfg) (cfg_relations cfg) = Some qr
        /\ w_stdout w'
           = (w_stdout w ++ "Initializing clients... done." ++ nl
              ++ summary_text (cfg_transactions cfg) (cfg_clients cfg) tpc (cfg_number cfg)
                              (cfg_relations cfg) (cfg_queries cfg) qr (cfg_user cfg))%string
        /\ w_stderr w' = w_stderr w
        /\ w_calls w'
           = w_calls w ++ client_calls (cfg_clients cfg) tpc (cfg_number cfg) qr (cfg_user cfg)
        /\ length clients = Z.to_nat (cfg_clients cfg)
  | (Halt o, _) => abnormal o
  end.
Proof.
  unfold initializeClients, bind, cast_long.
  destruct (Double.to_long (gp PARAM_CLIENTS)) as [c|] eqn:Hc; [|now right].
  unfold ret at 1.
  destruct (Double.to_long (gp PARAM_TRANSACTIONS)) as [t|] eqn:Ht; [|now right].
  unfold ret at 1.
  destruct (Double.to_long (gp PARAM_NUMBER)) as [n|] eqn:Hnq; [|now right].
  unfold ret at 1.
  destruct (Double.to_long (gp PARAM_RELATIONS)) as [r|] eqn:Hr; [|now right].
  unfold ret at 1.
  destruct (Double.to_long (gp PARAM_QUERIES)) as [q|] eqn:Hq; [|now right].
  unfold ret at 1.
  destruct (Double.to_long (gp PARAM_USER)) as [u|] eqn:Hu; [|now right].
  unfold ret at 1. unfold printf at 1. unfold assert_ptr at 1.
  destruct random_alloc as [r0|]; [|now left]. unfold ret at 1.
  unfold assert at 1. destruct (malloc_ok _); [|now left]. unfold ret at 1.
  unfold deref at 1.
  destruct (transactions_per_client t c) as [tpc|] eqn:Htpc; [|now right].
  unfold ret at 1. unfold deref at 1.
  destruct (query_range q r) as [qr|] eqn:Hqr; [|now right].
  unfold ret at 1.
  set (w0 := {| w_stdout := (w_stdout w ++ "Initializing clients... ")%string;
                w_stderr := w_stderr w; w_calls := w_calls w |}).
  unfold for_loop.
  pose proof (for_from_rule
    (fun (k : nat) (s : list client_t) w' =>
       w' = {| w_stdout := w_stdout w0; w_stderr := w_stderr w0;
               w_calls := w_calls w0 ++ client_calls (Z.of_nat k) tpc n qr u |}
       /\ length s = k)
    (fun o _ => abnormal o)) as Hrule.
  match goal with |- context [for_from ?cnt ?i ?b [] w0] =>
    specialize (Hrule b i cnt) end.
  cbv beta in Hrule.
  match type of Hrule with ?A -> _ =>
    assert (Hbody : A); [|specialize (Hrule Hbody); clear Hbody] end.
  { intros k s w' Hk [-> Hlen]. unfold bind, log_call, assert_ptr.
    cbn [w_stdout w_stderr w_calls].
    destruct (client_alloc _ _ _ _ _) as [cl|]; [|now left].
    unfold ret. split.
    - unfold client_calls. rewrite seqZ_snoc, map_app, app_assoc. reflexivity.
    - rewrite length_app. simpl. lia. }
  specialize (Hrule [] w0 ltac:(
    split; [unfold client_calls; simpl; rewrite app_nil_r; reflexivity | reflexivity])).
  destruct (for_from _ _ _ [] w0) as [[clients|o] w1]; [|exact Hrule].
  destruct Hrule as [-> Hlen].
  unfold puts, printf, ret. cbn [w_stdout w_stderr w_calls w0].
  exists {| cfg_clients := c; cfg_number := n; cfg_queries := q; cfg_relations := r;
            cfg_transactions := t; cfg_user := u |}, tpc, qr.
  cbn [cfg_clients cfg_number cfg_queries cfg_relations cfg_transactions cfg_user].
  split; [repeat split; assumption|].
  split; [exact Htpc|]. split; [exact Hqr|].
  split; [unfold summary_text; rewrite !string_append_assoc; reflexivity|].
  split; [reflexivity|]. split; [|exact Hlen].
  assert (Hseq : seqZ 0 (Z.of_nat (Z.to_nat c)) = seqZ 0 c).
  { destruct (Z_le_gt_dec c 0) as [Hle|Hgt].
    - rewrite !seqZ_nil by lia. reflexivity.
    - rewrite Z2Nat.id by lia. reflexivity. }
  unfold client_calls. rewrite Hseq. reflexivity.
Qed.

Lemma freeClients_spec (gp : params) (c : Z) (clients : list client_t) (w : world) :
  Double.to_long (gp PARAM_CLIENTS) = Some c ->
  length clients = Z.to_nat c ->
  freeClients gp clients w
  = (Ret tt, {| w_stdout := w_stdout w; w_stderr := w_stderr w;
                w_calls := w_calls w ++ map CallClientFree (seqZ 0 c) |}).
Proof.
  intros Hc Hlen. unfold freeClients, bind, cast_long. rewrite Hc. unfold ret at 1.
  unfold for_loop.
  pose proof (for_from_rule
    (fun (k : nat) (s : unit) w' =>
       w' = {| w_stdout := w_stdout w; w_stderr := w_stderr w;
               w_calls := w_calls w ++ map CallClientFree (seqZ 0 (Z.of_nat k)) |})
    (fun _ _ => False)) as Hrule.
  match goal with |- context [for_from ?cnt ?i ?b tt w] =>
    specialize (Hrule b i cnt) end.
  cbv beta in Hrule.
  match type of Hrule with ?A -> _ =>
    assert (Hbody : A); [|specialize (Hrule Hbody); clear Hbody] end.
  { intros k s w' Hk ->. unfold bind.
    destruct (0 <=? 0 + Z.of_nat k) eqn:E; [|apply Z.leb_gt in E; lia].
    destruct (lookup_lt_is_Some_2 clients (Z.to_nat (0 + Z.of_nat k)) ltac:(lia)) as [cl ->].
    unfold deref, log_call, ret. cbn [w_stdout w_stderr w_calls].
    rewrite seqZ_snoc, map_app, app_assoc. reflexivity. }
  specialize (Hrule tt w ltac:(destruct w; simpl; rewrite app_nil_r; reflexivity)).
  destruct (for_from _ _ _ tt w) as [[[]|o] w1]; [|destruct Hrule].
  subst w1. rewrite seqZ_to_nat. reflexivity.
Qed.

End ClientFacts.

(** ** The whole run *)

Ltac by_abnormal H :=
  let H' := fresh in
  pose proof H as H'; unfold abnormal in H';
  destruct H' as [-> | ->]; [left | right]; reflexivity.

Section RunFacts.

Context {C : Collaborators}.

Lemma run_spec (posix : bool) (argv : list string) :
  (parse_fails posix argv
   /\ exists err,
       run posix argv
       = (Exit 1, {| w_stdout := usage_text (hd EmptyString argv); w_stderr := err;
                     w_calls := [] |}))
  \/ (~ parse_fails posix argv
      /\ match run posix argv with
         | (Exit code, w) =>
             code = 0
             /\ exists cfg tpc qr cs_init cs_clean,
                 reads_config (parsed_params posix argv) cfg
                 /\ transactions_per_client (cfg_transactions cfg) (cfg_clients cfg)
                    = Some tpc
                 /\ query_range (cfg_queries cfg) (cfg_relations cfg) = Some qr
                 /\ w_stdout w
                    = success_stdout cfg tpc qr
                        (TIMER_DIFF_SECONDS TIMER_READ_start TIMER_READ_stop)
                 /\ w_calls w
                    = cs_init
                      ++ client_calls (cfg_clients cfg) tpc (cfg_number cfg) qr (cfg_user cfg)
                      ++ [CallThreadStartup (cfg_clients cfg);
                          CallThreadStart (Z.of_nat (Z.to_nat (cfg_clients cfg)))]
                      ++ map CallDeleteCustomer (seqZ 1 (cfg_relations cfg)) ++ cs_clean
                 /\ Forall add_call_ok cs_init
                 /\ (forall t, 0 <= t < 4 -> add_ids t cs_init ≡ₚ seqZ 1 (cfg_relations cfg))
                 /\ delete_customer_ids cs_clean = []
                 /\ add_ids 3 cs_clean = []
                 /\ client_allocs cs_clean = []
         | (o, _) => abnormal o
         end).
Proof.
  destruct (parseArgs_spec posix argv world_init) as [[Hok Hp]|[Hfail [err Hp]]].
  2:{ left. split; [exact Hfail|]. exists err.
      unfold run, main. unfold bind at 1. rewrite Hp. reflexivity. }
  right. split; [exact Hok|].
  unfold run, main. unfold bind at 1. rewrite Hp.
  set (gp := parsed_params posix argv).
  unfold bind at 1.
  destruct (initializeManager gp world_init) as [[m|o] w1] eqn:Hinit.
  2:{ destruct (Double.to_long (gp PARAM_RELATIONS)) as [r|] eqn:Hr.
      - pose proof (initializeManager_spec gp r world_init Hr) as H.
        rewrite Hinit in H. destruct H as [-> | ->]; [left | right]; reflexivity.
      - unfold initializeManager, bind, printf, assert_ptr, cast_long in Hinit.
        destruct random_alloc; [|injection Hinit as <- _; now left].
        destruct manager_alloc; [|injection Hinit as <- _; now left].
        unfold ret at 1 2 in Hinit. rewrite Hr in Hinit.
        injection Hinit as <- _. now right. }
  unfold bind at 1.
  pose proof (initializeClients_spec gp m w1) as Hcl.
  destruct (initializeClients gp m w1) as [[clients|o] w2];
    [|by_abnormal Hcl].
  destruct Hcl as (cfg & tpc & qr & Hcfg & Htpc & Hqr & Hout2 & Herr2 & Hcalls2 & Hlen).
  pose proof Hcfg as (Hc & Hn & Hq & Hr & Ht & Hu).
  pose proof (initializeManager_spec gp _ world_init Hr) as Hm.
  rewrite Hinit in Hm. destruct Hm as (Hout1 & Herr1 & cs_init & Hcalls1 & Hok1 & Hperm1).
  unfold bind at 1. unfold cast_long at 1. rewrite Hc. unfold ret at 1.
  unfold bind at 1. unfold log_call at 1.
  unfold bind at 1. unfold assert at 1.
  destruct (thread_startup (cfg_clients cfg)); [|now left].
  unfold ret at 1.
  unfold bind at 1. unfold printf at 1.
  unfold bind at 1. unfold log_call at 1.
  unfold bind at 1. unfold puts at 1. unfold printf at 1.
  unfold bind at 1. unfold printf at 1.
  unfold bind at 1. unfold printf at 1.
  cbn [w_stdout w_stderr w_calls].
  unfold bind at 1.
  match goal with |- context [cleanupManager gp ?mm ?ww] =>
    destruct (cleanupManager_spec gp _ mm ww Hr) as (m' & cs_clean & -> & Hd & Ha & Hcc) end.
  cbn [w_stdout w_stderr w_calls].
  unfold bind at 1. rewrite (freeClients_spec gp _ clients _ Hc Hlen).
  unfold bind, log_call, puts, printf, ret. cbn [w_stdout w_stderr w_calls].
  split; [reflexivity|].
  exists cfg, tpc, qr, cs_init, (cs_clean ++ teardown_calls (cfg_clients cfg)).
  split; [exact Hcfg|]. split; [exact Htpc|]. split; [exact Hqr|].
  split.
  { rewrite Hout2, Hout1. unfold success_stdout. cbn [w_stdout world_init].
    rewrite !string_append_assoc. reflexivity. }
  split.
  { rewrite Hcalls2, Hcalls1, Hlen. cbn [w_calls world_init]. unfold teardown_calls.
    rewrite <- !app_assoc. reflexivity. }
  split; [exact Hok1|]. split; [exact Hperm1|].
  rewrite delete_customer_ids_app, add_ids_app, client_allocs_app, Hd, Ha, Hcc.
  rewrite teardown_no_delete, teardown_no_add, teardown_no_alloc. repeat split.
Qed.

End RunFacts.

(** ** Claims C9 and C2 *)


Lemma add_call_ok_no_delete cs :
  Forall add_call_ok cs -> delete_customer_ids cs = [] /\ client_allocs cs = [].
Proof.
  induction 1 as [|c cs Hc _ [IH1 IH2]]; [split; reflexivity|].
  destruct c; [|destruct Hc..]. simpl. auto.
Qed.








(** ** The output of a run (claim C7) *)

Lemma string_of_uint_digits (u : Decimal.uint) :
  all_digits (NilEmpty.string_of_uint u).
Proof.
  unfold all_digits. induction u; simpl; constructor; solve [reflexivity | assumption].
Qed.

Lemma fmt_li_digits (z : Z) :
  0 <= z -> Libc.fmt_li z <> EmptyString /\ all_digits (Libc.fmt_li z).
Proof.
  intros Hz. unfold Libc.fmt_li.
  destruct z as [|p|p]; [split; [discriminate | repeat constructor] | | lia].
  simpl. unfold NilZero.string_of_uint.
  pose proof (string_of_uint_digits (Pos.to_uint p)) as Hd.
  destruct (Pos.to_uint p) eqn:E;
    try (split; [discriminate | exact Hd]).
  split; [discriminate | repeat constructor].
Qed.

Lemma digit_char_is_digit (d : Z) : 0 <= d < 10 -> is_digit (Libc.digit_char d) = true.
Proof.
  intros Hd.
  assert (H : d = 0 \/ d = 1 \/ d = 2 \/ d = 3 \/ d = 4 \/ d = 5 \/ d = 6 \/ d = 7
              \/ d = 8 \/ d = 9) by lia.
  repeat (destruct H as [-> | H]; [reflexivity|]). subst d. reflexivity.
Qed.

Lemma frac6_format (n : Z) :
  String.length (Libc.frac6 n) = 6%nat /\ all_digits (Libc.frac6 n).
Proof.
  unfold Libc.frac6, all_digits. split; [reflexivity|].
  rewrite list_ascii_of_string_of_list_ascii.
  repeat constructor; apply digit_char_is_digit; apply Z.mod_pos_bound; lia.
Qed.

Lemma scaled6_nonneg (m : positive) (e : Z) : 0 <= Libc.scaled6 m e.
Proof.
  unfold Libc.scaled6. destruct (0 <=? e) eqn:E.
  - apply Z.leb_le in E. pose proof (Z.pow_pos_nonneg 2 e ltac:(lia) E). lia.
  - apply Z.leb_gt in E.
    assert (Hden : 0 < 2 ^ (- e)) by (apply Z.pow_pos_nonneg; lia).
    assert (Hq : 0 <= Z.pos m * 10 ^ 6 / 2 ^ (- e)) by (apply Z.div_pos; lia).
    destruct (_ ?= _); [destruct (Z.even _)|..]; lia.
Qed.

Lemma fmt_fixed6_format (s : bool) (n : Z) :
  0 <= n -> fixed6_format (Libc.fmt_fixed6 s n).
Proof.
  intros Hn. unfold Libc.fmt_fixed6.
  destruct (fmt_li_digits (n / 10 ^ 6) ltac:(apply Z.div_pos; lia)) as [Hne Hd].
  destruct (frac6_format (n mod 10 ^ 6)) as [Hlen Hfd].
  exists (if s then "-"%string else EmptyString), (Libc.fmt_li (n / 10 ^ 6)),
         (Libc.frac6 (n mod 10 ^ 6)).
  split; [reflexivity|]. split; [destruct s; auto|]. auto.
Qed.

Lemma fmt_0_6lf_format (d : double) :
  is_finite d = true -> fixed6_format (Libc.fmt_0_6lf d).
Proof.
  destruct d as [s|s| |s m e]; try discriminate; intros _; simpl.
  - apply fmt_fixed6_format. lia.
  - apply fmt_fixed6_format, scaled6_nonneg.
Qed.

(** C7: a run that returns from [main] prints "Initializing manager... "
    and "done.", then "Initializing clients... ", "done." and the eight
    lines of the summary, then "Running clients... " and "done." followed by
    the line "Time = " with the elapsed time in the format of [%.6f] (six
    digits after the decimal point), then "Deallocating memory... " and
    "done."; and nothing else. *)
Theorem C7_output_of_a_successful_run :
  forall (C : Collaborators) (posix : bool) (argv : list string) (w : world),
    run posix argv = (Exit 0, w) ->
    exists cfg tpc qr,
      reads_config (parsed_params posix argv) cfg
      /\ transactions_per_client (cfg_transactions cfg) (cfg_clients cfg) = Some tpc
      /\ query_range (cfg_queries cfg) (cfg_relations cfg) = Some qr
      /\ w_stdout w
         = ("Initializing manager... done." ++ nl
            ++ "Initializing clients... done." ++ nl
            ++ summary_text (cfg_transactions cfg) (cfg_clients cfg) tpc (cfg_number cfg)
                            (cfg_relations cfg) (cfg_queries cfg) qr (cfg_user cfg)
            ++ "Running clients... done." ++ nl
            ++ "Time = "
            ++ Libc.fmt_0_6lf (TIMER_DIFF_SECONDS TIMER_READ_start TIMER_READ_stop) ++ nl
            ++ "Deallocating memory... done." ++ nl)%string
      /\ (is_finite (TIMER_DIFF_SECONDS TIMER_READ_start TIMER_READ_stop) = true ->
          fixed6_format
            (Libc.fmt_0_6lf (TIMER_DIFF_SECONDS TIMER_READ_start TIMER_READ_stop))).
Proof.
  intros C posix argv w Hrun.
  destruct (run_spec posix argv) as [[_ [err He]]|[_ H]];
    [rewrite Hrun in He; discriminate|].
  rewrite Hrun in H.
  destruct H as (_ & cfg & tpc & qr & cs_init & cs_clean & Hcfg & Htpc & Hqr & Hout & _).
  exists cfg, tpc, qr. split; [exact Hcfg|]. split; [exact Htpc|]. split; [exact Hqr|].
  split; [exact Hout | apply fmt_0_6lf_format].
Qed.

Lemma C7_witness :
  @run Ref.collaborators false argv_r4_t0
  = (Exit 0, snd (@run Ref.collaborators false argv_r4_t0))
  /\ exists cfg tpc qr,
      reads_config (parsed_params false argv_r4_t0) cfg
      /\ transactions_per_client (cfg_transactions cfg) (cfg_clients cfg) = Some tpc
      /\ query_range (cfg_queries cfg) (cfg_relations cfg) = Some qr
      /\ w_stdout (snd (@run Ref.collaborators false argv_r4_t0))
         = ("Initializing manager... done." ++ nl
            ++ "Initializing clients... done." ++ nl
            ++ summary_text (cfg_transactions cfg) (cfg_clients cfg) tpc (cfg_number cfg)
                            (cfg_relations cfg) (cfg_queries cfg) qr (cfg_user cfg)
            ++ "Running clients... done." ++ nl
            ++ "Time = "
            ++ Libc.fmt_0_6lf (@TIMER_DIFF_SECONDS Ref.collaborators
                                 TIMER_READ_start TIMER_READ_stop) ++ nl
            ++ "Deallocating memory... done." ++ nl)%string
      /\ (is_finite (@TIMER_DIFF_SECONDS Ref.collaborators
                       TIMER_READ_start TIMER_READ_stop) = true ->
          fixed6_format
            (Libc.fmt_0_6lf (@TIMER_DIFF_SECONDS Ref.collaborators
                               TIMER_READ_start TIMER_READ_stop))).
Proof.
  assert (H : @run Ref.collaborators false argv_r4_t0
              = (Exit 0, snd (@run Ref.collaborators false argv_r4_t0)))
    by (vm_compute; reflexivity).
  split; [exact H|].
  exact (C7_output_of_a_successful_run Ref.collaborators false argv_r4_t0 _ H).
Defined.

(** ** binary64 arithmetic on integers: the conversions of [initializeClients] *)

(** *** The number of digits and the shifts of [SpecFloat] *)

Lemma digits2_bounds (m : positive) :
  2 ^ (Z.pos (digits2_pos m) - 1) <= Z.pos m < 2 ^ Z.pos (digits2_pos m).
Proof.
  induction m as [m IH|m IH|]; simpl digits2_pos.
  - rewrite Pos2Z.inj_succ. change (Z.pos m~1) with (2 * Z.pos m + 1).
    replace (Z.succ (Z.pos (digits2_pos m)) - 1) with (Z.succ (Z.pos (digits2_pos m) - 1)) by lia.
    rewrite !Z.pow_succ_r by lia.
    generalize dependent (2 ^ (Z.pos (digits2_pos m) - 1)).
    generalize (2 ^ Z.pos (digits2_pos m)). intros; lia.
  - rewrite Pos2Z.inj_succ. change (Z.pos m~0) with (2 * Z.pos m).
    replace (Z.succ (Z.pos (digits2_pos m)) - 1) with (Z.succ (Z.pos (digits2_pos m) - 1)) by lia.
    rewrite !Z.pow_succ_r by lia.
    generalize dependent (2 ^ (Z.pos (digits2_pos m) - 1)).
    generalize (2 ^ Z.pos (digits2_pos m)). intros; lia.
  - simpl. lia.
Qed.

Lemma digits2_unique (m : positive) (k : Z) :
  2 ^ (k - 1) <= Z.pos m < 2 ^ k -> Z.pos (digits2_pos m) = k.
Proof.
  intros [Hlo Hhi]. pose proof (digits2_bounds m) as [Hlo' Hhi'].
  assert (Hk : 0 < k).
  { destruct (Z_lt_le_dec 0 k) as [H|H]; [exact H|].
    assert (2 ^ k <= 1).
    { destruct (Z.eq_dec k 0) as [->|Hne]; [simpl; lia|].
      rewrite Z.pow_neg_r by lia. lia. }
    lia. }
  destruct (Z.lt_trichotomy (Z.pos (digits2_pos m)) k) as [H|[H|H]]; [|exact H|].
  - assert (2 ^ Z.pos (digits2_pos m) <= 2 ^ (k - 1)) by (apply Z.pow_le_mono_r; lia). lia.
  - assert (2 ^ k <= 2 ^ (Z.pos (digits2_pos m) - 1)) by (apply Z.pow_le_mono_r; lia). lia.
Qed.

Lemma iter_nat_add {A} (f : A -> A) (a b : nat) (x : A) :
  iter_nat f (a + b) x = iter_nat f a (iter_nat f b x).
Proof. induction a as [|a IH]; simpl; [reflexivity | now rewrite IH]. Qed.

Lemma iter_nat_comm {A} (f : A -> A) (n : nat) (x : A) :
  iter_nat f n (f x) = f (iter_nat f n x).
Proof. induction n as [|n IH]; simpl; [reflexivity | now rewrite IH]. Qed.

Lemma iter_pos_nat {A} (f : A -> A) (p : positive) (x : A) :
  SpecFloat.iter_pos f p x = iter_nat f (Pos.to_nat p) x.
Proof.
  revert x. induction p as [p IH|p IH|]; intros x; simpl SpecFloat.iter_pos.
  - rewrite !IH, Pos2Nat.inj_xI. simpl. rewrite <- iter_nat_add, iter_nat_comm.
    f_equal. f_equal. lia.
  - rewrite !IH, Pos2Nat.inj_xO. rewrite <- iter_nat_add. f_equal. lia.
  - reflexivity.
Qed.

Lemma shr_1_m (mrs : shr_record) :
  0 <= shr_m mrs -> shr_m (shr_1 mrs) = shr_m mrs / 2.
Proof.
  destruct mrs as [m r s]. simpl. intros Hm.
  destruct m as [|p|p]; [reflexivity| |lia].
  destruct p as [p|p|]; simpl shr_m.
  - change (Z.pos p~1) with (2 * Z.pos p + 1). apply Z.div_unique with 1; lia.
  - change (Z.pos p~0) with (2 * Z.pos p). apply Z.div_unique with 0; lia.
  - reflexivity.
Qed.

Lemma iter_shr_1_m (n : nat) (mrs : shr_record) :
  0 <= shr_m mrs ->
  shr_m (iter_nat shr_1 n mrs) = shr_m mrs / 2 ^ Z.of_nat n.
Proof.
  intros Hm. induction n as [|n IH].
  - simpl. now rewrite Z.div_1_r.
  - simpl iter_nat. rewrite shr_1_m.
    + rewrite IH, Nat2Z.inj_succ, Z.pow_succ_r by lia.
      rewrite Z.div_div by lia. f_equal. lia.
    + rewrite IH. apply Z.div_pos; [exact Hm|]. apply Z.pow_pos_nonneg; lia.
Qed.

Lemma shr_m_spec (mrs : shr_record) (e n : Z) :
  0 <= shr_m mrs -> 0 <= n ->
  shr_m (fst (shr mrs e n)) = shr_m mrs / 2 ^ n /\ snd (shr mrs e n) = e + n.
Proof.
  intros Hm Hn. unfold shr. destruct n as [|p|p]; [| |lia].
  - simpl. rewrite Z.div_1_r. split; [reflexivity | lia].
  - simpl fst. simpl snd. rewrite iter_pos_nat, iter_shr_1_m by exact Hm.
    rewrite positive_nat_Z. split; reflexivity.
Qed.

Lemma round_nearest_even_cases (m : Z) (l : location) :
  round_nearest_even m l = m \/ round_nearest_even m l = m + 1.
Proof.
  destruct l as [|[]]; simpl; auto. destruct (Z.even m); auto.
Qed.

Lemma loc_of_shr_record_of_loc (m : Z) (l : location) :
  loc_of_shr_record (shr_record_of_loc m l) = l.
Proof. destruct l as [|[]]; reflexivity. Qed.

Lemma shr_m_record_of_loc (m : Z) (l : location) : shr_m (shr_record_of_loc m l) = m.
Proof. destruct l as [|[]]; reflexivity. Qed.

Lemma fexp_normal (x : Z) : -1074 <= x - 53 -> fexp 53 1024 x = x - 53.
Proof. unfold fexp, emin. lia. Qed.

Lemma div_pow2_bounds (mx d n : Z) :
  0 <= n -> d = n + 53 -> 2 ^ (d - 1) <= mx < 2 ^ d ->
  2 ^ 52 <= mx / 2 ^ n < 2 ^ 53.
Proof.
  intros Hn -> [Hlo Hhi].
  assert (Hp : 0 < 2 ^ n) by (apply Z.pow_pos_nonneg; lia).
  replace (n + 53 - 1) with (52 + n) in Hlo by lia.
  rewrite Z.pow_add_r in Hlo by lia.
  replace (n + 53) with (53 + n) in Hhi by lia.
  rewrite Z.pow_add_r in Hhi by lia.
  split.
  - apply Z.div_le_lower_bound; lia.
  - apply Z.div_lt_upper_bound; lia.
Qed.

(** [binary_round_aux] on a positive mantissa of at least 53 bits, in the
    normal range: the result is finite, with a mantissa of 53 bits that is
    the truncation of [mx] to 53 bits or its successor. *)
Lemma bra_spec (s : bool) (mx ex : Z) (lx : location) :
  0 < mx -> 0 <= Zdigits2 mx - 53 ->
  -1074 <= ex + (Zdigits2 mx - 53) -> ex + (Zdigits2 mx - 53) + 1 <= 971 ->
  exists (m : positive) (e m2 : Z),
    binary_round_aux 53 1024 s mx ex lx = S754_finite s m e
    /\ 2 ^ 52 <= Z.pos m < 2 ^ 53
    /\ (m2 = mx / 2 ^ (Zdigits2 mx - 53) \/ m2 = mx / 2 ^ (Zdigits2 mx - 53) + 1)
    /\ (Zdigits2 mx - 53 = 0 -> lx = loc_Exact -> m2 = mx)
    /\ ((e = ex + (Zdigits2 mx - 53) /\ Z.pos m = m2)
        \/ (e = ex + (Zdigits2 mx - 53) + 1 /\ m2 = 2 ^ 53 /\ Z.pos m = 2 ^ 52)).
Proof.
  intros Hmx Hn Hlo Hhi.
  destruct mx as [|p|p]; try lia.
  set (d := Zdigits2 (Z.pos p)) in *.
  set (n := d - 53) in *.
  assert (Hd : 2 ^ (d - 1) <= Z.pos p < 2 ^ d) by apply digits2_bounds.
  pose proof (div_pow2_bounds (Z.pos p) d n Hn ltac:(lia) Hd) as Hfl.
  unfold binary_round_aux, shr_fexp.
  fold d. rewrite (fexp_normal (d + ex)) by lia.
  replace (d + ex - 53 - ex) with n by lia.
  pose proof (shr_m_spec (shr_record_of_loc (Z.pos p) lx) ex n
                ltac:(rewrite shr_m_record_of_loc; lia) Hn) as [Hm1 He1].
  rewrite shr_m_record_of_loc in Hm1.
  destruct (shr (shr_record_of_loc (Z.pos p) lx) ex n) as [mrs' e'] eqn:Hshr.
  cbn [fst snd] in Hm1, He1. subst e'.
  set (m2 := round_nearest_even (shr_m mrs') (loc_of_shr_record mrs')).
  assert (Hm2 : m2 = Z.pos p / 2 ^ n \/ m2 = Z.pos p / 2 ^ n + 1).
  { unfold m2. rewrite <- Hm1. apply round_nearest_even_cases. }
  assert (Hexact : n = 0 -> lx = loc_Exact -> m2 = Z.pos p).
  { intros Hn0 ->. rewrite Hn0 in Hshr. simpl in Hshr. injection Hshr as <-.
    reflexivity. }
  assert (Hm2r : 2 ^ 52 <= m2 <= 2 ^ 53) by lia.
  destruct m2 as [|q|q] eqn:Hq; try lia.
  destruct (Z.eq_dec (Z.pos q) (2 ^ 53)) as [Heq|Hne].
  - (* the mantissa overflowed to 2^53: one more shift *)
    assert (Hq53 : q = 9007199254740992%positive)
      by (apply Pos2Z.inj; rewrite Heq; reflexivity).
    subst q.
    change (Zdigits2 (Z.pos 9007199254740992)) with 54.
    rewrite (fexp_normal (54 + (ex + n))) by lia.
    replace (54 + (ex + n) - 53 - (ex + n)) with 1 by lia.
    change (shr (shr_record_of_loc (Z.pos 9007199254740992) loc_Exact) (ex + n) 1)
      with ({| shr_m := 4503599627370496; shr_r := false; shr_s := false |}, ex + n + 1).
    cbn [shr_m]. change (1024 - 53) with 971.
    destruct (ex + n + 1 <=? 971) eqn:E; [|apply Z.leb_gt in E; lia].
    exists 4503599627370496%positive, (ex + n + 1), (Z.pos 9007199254740992).
    split; [reflexivity|]. split; [simpl; lia|]. split; [exact Hm2|].
    split; [exact Hexact|]. right. simpl. lia.
  - assert (Hdq : Zdigits2 (Z.pos q) = 53).
    { simpl. apply digits2_unique. simpl. lia. }
    rewrite Hdq, (fexp_normal (53 + (ex + n))) by lia.
    replace (53 + (ex + n) - 53 - (ex + n)) with 0 by lia.
    change (shr (shr_record_of_loc (Z.pos q) loc_Exact) (ex + n) 0)
      with ({| shr_m := Z.pos q; shr_r := false; shr_s := false |}, ex + n).
    cbn [shr_m]. change (1024 - 53) with 971.
    destruct (ex + n <=? 971) eqn:E; [|apply Z.leb_gt in E; lia].
    exists q, (ex + n), (Z.pos q).
    split; [reflexivity|]. split; [lia|]. split; [exact Hm2|].
    split; [exact Hexact|]. left. split; reflexivity.
Qed.

(** *** Rounding as an enclosure between consecutive multiples of the unit in the last place *)

Lemma pow2_pos (e : Z) : (0 < pow2 e)%R.
Proof. apply powerRZ_lt. lra. Qed.

Lemma pow2_add (a b : Z) : pow2 (a + b) = (pow2 a * pow2 b)%R.
Proof. apply powerRZ_add. lra. Qed.


Lemma pow2_IZR (n : Z) : 0 <= n -> pow2 n = IZR (2 ^ n).
Proof.
  intros Hn. unfold pow2. destruct n as [|p|p]; [reflexivity | | lia].
  change (2 ^ Z.pos p) with (Z.pow_pos 2 p). now rewrite Zpower_pos_powerRZ.
Qed.

Lemma pow2_le (a b : Z) : a <= b -> (pow2 a <= pow2 b)%R.
Proof.
  intros Hab. replace b with (a + (b - a)) by lia.
  rewrite pow2_add, (pow2_IZR (b - a)) by lia.
  assert (H1 : (1 <= IZR (2 ^ (b - a)))%R).
  { apply IZR_le. pose proof (Z.pow_pos_nonneg 2 (b - a) ltac:(lia) ltac:(lia)). lia. }
  pose proof (pow2_pos a). nra.
Qed.

Lemma pow2_lt (a b : Z) : a < b -> (pow2 a < pow2 b)%R.
Proof.
  intros Hab. replace b with (a + (b - a)) by lia.
  rewrite pow2_add, (pow2_IZR (b - a)) by lia.
  assert (H1 : (2 <= IZR (2 ^ (b - a)))%R).
  { apply IZR_le. replace (b - a) with (Z.succ (b - a - 1)) by lia.
    rewrite Z.pow_succ_r by lia.
    pose proof (Z.pow_pos_nonneg 2 (b - a - 1) ltac:(lia) ltac:(lia)). lia. }
  pose proof (pow2_pos a). nra.
Qed.

Lemma pow2_lt_inv (a b : Z) : (pow2 a < pow2 b)%R -> a < b.
Proof.
  intros H. destruct (Z_lt_le_dec a b) as [Hlt|Hle]; [exact Hlt|].
  pose proof (pow2_le b a Hle). lra.
Qed.

(** The same, on the reals: the result and the rounded value lie between
    the same two consecutive multiples of the unit in the last place. *)
Lemma bra_R (s : bool) (mx ex : Z) (lx : location) (X : R) :
  0 < mx -> 0 <= Zdigits2 mx - 53 ->
  -1074 <= ex + (Zdigits2 mx - 53) -> ex + (Zdigits2 mx - 53) + 1 <= 971 ->
  (IZR mx * pow2 ex <= X < (IZR mx + 1) * pow2 ex)%R ->
  exists (m : positive) (e fl : Z),
    binary_round_aux 53 1024 s mx ex lx = S754_finite s m e
    /\ 2 ^ 52 <= Z.pos m < 2 ^ 53
    /\ ex + (Zdigits2 mx - 53) <= e <= ex + (Zdigits2 mx - 53) + 1
    /\ rounds_to X (IZR (Z.pos m) * pow2 e) fl (ex + (Zdigits2 mx - 53))
    /\ (Zdigits2 mx - 53 = 0 -> lx = loc_Exact -> e = ex /\ Z.pos m = mx).
Proof.
  intros Hmx Hn Hlo Hhi HX.
  destruct (bra_spec s mx ex lx Hmx Hn Hlo Hhi)
    as (m & e & m2 & Heq & Hm & Hm2 & Hexact & He).
  set (n := Zdigits2 mx - 53) in *.
  set (fl := mx / 2 ^ n) in *.
  assert (Hp : 0 < 2 ^ n) by (apply Z.pow_pos_nonneg; lia).
  assert (Hdiv : fl * 2 ^ n <= mx < (fl + 1) * 2 ^ n).
  { unfold fl. pose proof (Z.div_mod mx (2 ^ n) ltac:(lia)).
    pose proof (Z.mod_pos_bound mx (2 ^ n) Hp). lia. }
  assert (Hfl : 2 ^ 52 <= fl < 2 ^ 53).
  { destruct mx as [|p|p]; try lia.
    apply (div_pow2_bounds (Z.pos p) (Zdigits2 (Z.pos p)) n Hn); [unfold n; lia|].
    apply digits2_bounds. }
  pose proof (pow2_pos ex) as Hpe. pose proof (pow2_pos (ex + n)) as Hpn.
  assert (Hpow : pow2 (ex + n) = (pow2 ex * IZR (2 ^ n))%R).
  { rewrite pow2_add, (pow2_IZR n) by lia. reflexivity. }
  assert (Hd1 : (IZR (fl * 2 ^ n) <= IZR mx)%R) by (apply IZR_le; lia).
  assert (Hd2 : (IZR mx + 1 <= IZR ((fl + 1) * 2 ^ n))%R).
  { rewrite <- (plus_IZR mx 1). apply IZR_le. lia. }
  rewrite mult_IZR in Hd1, Hd2. rewrite plus_IZR in Hd2.
  assert (Hn1 : (1 <= IZR (2 ^ n))%R) by (apply IZR_le; lia).
  exists m, e, fl. split; [exact Heq|]. split; [exact Hm|].
  split; [lia|]. split.
  - split; [exact Hfl|]. split.
    + rewrite Hpow. split; nra.
    + destruct He as [[-> Hmm]|(-> & Hm53 & Hmm)].
      * rewrite Hmm. destruct Hm2 as [-> | ->]; [|rewrite plus_IZR]; lra.
      * rewrite Hmm. replace (ex + n + 1) with ((ex + n) + 1) by lia.
        rewrite (pow2_add (ex + n) 1), (pow2_IZR 1) by lia.
        change (IZR (2 ^ 1)) with 2%R.
        assert (Hflv : fl = 2 ^ 53 - 1) by lia.
        rewrite Hflv. rewrite minus_IZR.
        change (IZR (2 ^ 52)) with 4503599627370496%R.
        change (IZR (2 ^ 53)) with 9007199254740992%R. lra.
  - intros Hn0 Hl. specialize (Hexact Hn0 Hl).
    destruct He as [[-> Hmm]|(-> & Hm53 & Hmm)].
    + rewrite Hmm, Hexact, Hn0, Z.add_0_r. split; reflexivity.
    + exfalso. rewrite Hn0 in Hdiv. simpl in Hdiv. lia.
Qed.

Lemma iter_xO_pow2 (m d : positive) : Z.pos (Pos.iter xO m d) = Z.pos m * 2 ^ Z.pos d.
Proof.
  induction d as [|d IH] using Pos.peano_ind.
  - simpl. lia.
  - rewrite Pos.iter_succ, Pos2Z.inj_succ, Z.pow_succ_r by lia.
    change (Z.pos (Pos.iter xO m d)~0) with (2 * Z.pos (Pos.iter xO m d)).
    rewrite IH. lia.
Qed.

Lemma shl_align_spec (mx : positive) (ex ex' : Z) :
  snd (shl_align mx ex ex') = Z.min ex ex'
  /\ Z.pos (fst (shl_align mx ex ex')) = Z.pos mx * 2 ^ (ex - Z.min ex ex').
Proof.
  unfold shl_align. destruct (ex' - ex) as [|d|d] eqn:E; cbn [fst snd].
  - replace (Z.min ex ex') with ex by lia. rewrite Z.sub_diag. simpl. lia.
  - replace (Z.min ex ex') with ex by lia. rewrite Z.sub_diag. simpl. lia.
  - replace (Z.min ex ex') with ex' by lia. split; [reflexivity|].
    rewrite iter_xO_pow2. f_equal. f_equal. lia.
Qed.

Lemma canonical_digits (m : positive) : canonical m -> Zdigits2 (Z.pos m) = 53.
Proof. intros H. simpl. apply digits2_unique. exact H. Qed.

(** [(long)d] is the integer part of a positive double. *)
Lemma to_long_R (m : positive) (e k : Z) :
  0 <= k <= LONG_MAX ->
  (IZR k <= IZR (Z.pos m) * pow2 e < IZR k + 1)%R ->
  Double.to_long (S754_finite false m e) = Some k.
Proof.
  intros Hk [Hlo Hhi]. unfold Double.to_long.
  assert (Ha : Z.shiftl (Z.pos m) e = k).
  { destruct (Z_le_gt_dec 0 e) as [He|He].
    - rewrite Z.shiftl_mul_pow2 by exact He.
      rewrite (pow2_IZR e He), <- mult_IZR in Hlo, Hhi.
      rewrite <- (plus_IZR k 1) in Hhi.
      apply le_IZR in Hlo. apply lt_IZR in Hhi. lia.
    - rewrite Z.shiftl_div_pow2 by lia.
      assert (Hp : 0 < 2 ^ (- e)) by (apply Z.pow_pos_nonneg; lia).
      assert (Hinv : (pow2 e * IZR (2 ^ (- e)) = 1)%R).
      { rewrite <- (pow2_IZR (- e)) by lia. rewrite <- pow2_add.
        replace (e + - e) with 0 by lia. reflexivity. }
      assert (HP : (0 < IZR (2 ^ (- e)))%R) by (apply IZR_lt; exact Hp).
      assert (H1 : (IZR k * IZR (2 ^ (- e)) <= IZR (Z.pos m))%R).
      { apply (Rmult_le_compat_r (IZR (2 ^ (- e)))) in Hlo; [|lra].
        rewrite Rmult_assoc, Hinv in Hlo. lra. }
      assert (H2 : (IZR (Z.pos m) < (IZR k + 1) * IZR (2 ^ (- e)))%R).
      { apply (Rmult_lt_compat_r (IZR (2 ^ (- e)))) in Hhi; [|lra].
        rewrite Rmult_assoc, Hinv in Hhi. lra. }
      rewrite <- mult_IZR in H1. rewrite <- (plus_IZR k 1), <- mult_IZR in H2.
      apply le_IZR in H1. apply lt_IZR in H2.
      clear - H1 H2 Hp. set (P := 2 ^ (- e)) in *. clearbody P.
      symmetry. apply Z.div_unique with (Z.pos m - k * P); nia. }
  rewrite Ha. unfold in_long.
  destruct ((LONG_MIN <=? k) && (k <=? LONG_MAX)) eqn:E; [reflexivity|].
  apply andb_false_iff in E as [E|E]; [apply Z.leb_gt in E | apply Z.leb_gt in E];
    unfold LONG_MIN, LONG_MAX in *; lia.
Qed.

(** [(double)z] for a positive [long]; exact below [2^53]. *)
Lemma of_long_R (z : Z) :
  1 <= z < 2 ^ 63 ->
  exists (m : positive) (e fl E : Z),
    Double.of_long z = S754_finite false m e
    /\ canonical m /\ -52 <= e <= 11
    /\ rounds_to (IZR z) (IZR (Z.pos m) * pow2 e) fl E
    /\ (z < 2 ^ 53 -> (IZR (Z.pos m) * pow2 e = IZR z)%R /\ e <= 0).
Proof.
  intros Hz. destruct z as [|p|p]; try lia.
  unfold Double.of_long, binary_normalize, binary_round, Double.prec, Double.emax.
  pose proof (digits2_bounds p) as Hd.
  set (d := Z.pos (digits2_pos p)) in *.
  assert (Hd63 : 1 <= d <= 63).
  { split; [unfold d; lia|].
    destruct (Z_le_gt_dec d 63) as [H|H]; [exact H|].
    assert (2 ^ 63 <= 2 ^ (d - 1)) by (apply Z.pow_le_mono_r; lia). lia. }
  rewrite Z.add_0_r, (fexp_normal d) by lia.
  pose proof (shl_align_spec p 0 (d - 53)) as [He Hm].
  destruct (shl_align p 0 (d - 53)) as [mz ez]. cbn [fst snd] in He, Hm. subst ez.
  set (ez := Z.min 0 (d - 53)) in *.
  assert (Hval : (IZR (Z.pos mz) * pow2 ez = IZR (Z.pos p))%R).
  { rewrite Hm, mult_IZR, <- (pow2_IZR (0 - ez)) by lia.
    rewrite Rmult_assoc, <- pow2_add. replace (0 - ez + ez) with 0 by lia.
    change (pow2 0) with 1%R. lra. }
  assert (Hdz : Zdigits2 (Z.pos mz) = Z.max d 53).
  { simpl. apply digits2_unique. rewrite Hm.
    destruct (Z_le_gt_dec d 53) as [H|H].
    - replace (Z.max d 53) with 53 by lia. replace (0 - ez) with (53 - d) by lia.
      replace (2 ^ (53 - 1)) with (2 ^ (d - 1) * 2 ^ (53 - d))
        by (rewrite <- Z.pow_add_r by lia; f_equal; lia).
      replace (2 ^ 53) with (2 ^ d * 2 ^ (53 - d))
        by (rewrite <- Z.pow_add_r by lia; f_equal; lia).
      assert (0 < 2 ^ (53 - d)) by (apply Z.pow_pos_nonneg; lia). nia.
    - replace (Z.max d 53) with d by lia. replace (0 - ez) with 0 by lia.
      simpl. lia. }
  pose proof (pow2_pos ez) as Hpz.
  destruct (bra_R false (Z.pos mz) ez loc_Exact (IZR (Z.pos p)))
    as (m & e & fl & Heq & Hcan & Hbe & Hround & Hexact); try (rewrite Hdz; lia).
  { lia. }
  { rewrite Hval. split; [lra | nra]. }
  rewrite Hdz in *.
  exists m, e, fl, (ez + (Z.max d 53 - 53)).
  split; [exact Heq|]. split; [exact Hcan|]. split; [lia|]. split; [exact Hround|].
  intros H53.
  assert (Hd53 : d <= 53).
  { destruct (Z_le_gt_dec d 53) as [H|H]; [exact H|].
    assert (2 ^ 53 <= 2 ^ (d - 1)) by (apply Z.pow_le_mono_r; lia). lia. }
  destruct Hexact as [-> ->]; [lia | reflexivity|].
  split; [exact Hval | lia].
Qed.

Lemma digits_between (q lo hi : Z) :
  0 < q -> 1 <= lo -> 2 ^ (lo - 1) <= q < 2 ^ hi -> lo <= Zdigits2 q <= hi.
Proof.
  intros Hq Hlo [H1 H2]. destruct q as [|p|p]; try lia.
  pose proof (digits2_bounds p) as [Hb1 Hb2]. simpl Zdigits2.
  set (d := Z.pos (digits2_pos p)) in *.
  split.
  - destruct (Z_le_gt_dec lo d) as [H|H]; [exact H|].
    assert (2 ^ d <= 2 ^ (lo - 1)) by (apply Z.pow_le_mono_r; lia). lia.
  - destruct (Z_le_gt_dec d hi) as [H|H]; [exact H|].
    assert (2 ^ hi <= 2 ^ (d - 1)) by (apply Z.pow_le_mono_r; lia). lia.
Qed.

Lemma SFdiv_core_canonical (m1 m2 : positive) (e1 e2 : Z) :
  canonical m1 -> canonical m2 -> -1074 <= e1 - e2 - 53 ->
  SFdiv_core_binary 53 1024 (Z.pos m1) e1 (Z.pos m2) e2
  = (Z.pos m1 * 2 ^ 53 / Z.pos m2, e1 - e2 - 53,
     new_location (Z.pos m2) ((Z.pos m1 * 2 ^ 53) mod Z.pos m2)).
Proof.
  intros H1 H2 Hr. unfold SFdiv_core_binary.
  rewrite (canonical_digits m1 H1), (canonical_digits m2 H2).
  replace (53 + e1 - (53 + e2)) with (e1 - e2) by lia.
  rewrite (fexp_normal (e1 - e2)) by lia.
  replace (Z.min (e1 - e2 - 53) (e1 - e2)) with (e1 - e2 - 53) by lia.
  replace (e1 - e2 - (e1 - e2 - 53)) with 53 by lia.
  cbv iota. rewrite Z.shiftl_mul_pow2 by lia.
  unfold Z.div, Z.modulo.
  destruct (Z.div_eucl (Z.pos m1 * 2 ^ 53) (Z.pos m2)) as [q r]. reflexivity.
Qed.

(** Division, multiplication and addition of positive normal doubles. *)
Lemma div_R (m1 m2 : positive) (e1 e2 : Z) :
  canonical m1 -> canonical m2 -> -400 <= e1 <= 400 -> -400 <= e2 <= 400 ->
  exists (m : positive) (e fl E : Z),
    Double.div (S754_finite false m1 e1) (S754_finite false m2 e2) = S754_finite false m e
    /\ canonical m /\ e1 - e2 - 53 <= e <= e1 - e2 - 51
    /\ rounds_to (IZR (Z.pos m1) * pow2 e1 / (IZR (Z.pos m2) * pow2 e2))
                 (IZR (Z.pos m) * pow2 e) fl E.
Proof.
  intros H1 H2 He1 He2.
  unfold Double.div, SFdiv, Double.prec, Double.emax.
  rewrite (SFdiv_core_canonical m1 m2 e1 e2 H1 H2) by lia.
  set (q := Z.pos m1 * 2 ^ 53 / Z.pos m2).
  set (r := (Z.pos m1 * 2 ^ 53) mod Z.pos m2).
  unfold canonical in H1, H2.
  assert (Hqr : Z.pos m1 * 2 ^ 53 = Z.pos m2 * q + r /\ 0 <= r < Z.pos m2).
  { unfold q, r. split; [apply Z.div_mod; lia | apply Z.mod_pos_bound; lia]. }
  assert (Hq : 2 ^ 52 <= q < 2 ^ 54).
  { unfold q. split.
    - apply Z.div_le_lower_bound; [lia|]. simpl in *. lia.
    - apply Z.div_lt_upper_bound; [lia|]. simpl in *. lia. }
  pose proof (digits_between q 53 54 ltac:(lia) ltac:(lia) ltac:(simpl in *; lia)) as Hdq.
  set (X := (IZR (Z.pos m1) * pow2 e1 / (IZR (Z.pos m2) * pow2 e2))%R).
  assert (HX : (IZR q * pow2 (e1 - e2 - 53) <= X < (IZR q + 1) * pow2 (e1 - e2 - 53))%R).
  { pose proof (pow2_pos e2) as Hp2. pose proof (pow2_pos (e1 - e2 - 53)) as Hp.
    assert (Hm2 : (0 < IZR (Z.pos m2))%R) by (apply IZR_lt; lia).
    assert (He : pow2 e1 = (pow2 (e1 - e2 - 53) * pow2 e2 * IZR (2 ^ 53))%R).
    { rewrite <- (pow2_IZR 53), <- !pow2_add by lia. f_equal. lia. }
    assert (HXeq : X = (IZR (Z.pos m1 * 2 ^ 53) / IZR (Z.pos m2) * pow2 (e1 - e2 - 53))%R).
    { unfold X. rewrite He, mult_IZR. field. lra. }
    destruct Hqr as [Hqr1 Hqr2].
    assert (Ha : (IZR (Z.pos m2) * IZR q <= IZR (Z.pos m1 * 2 ^ 53))%R).
    { rewrite <- mult_IZR. apply IZR_le. lia. }
    assert (Hb : (IZR (Z.pos m1 * 2 ^ 53) < IZR (Z.pos m2) * (IZR q + 1))%R).
    { rewrite <- (plus_IZR q 1), <- mult_IZR. apply IZR_lt. lia. }
    rewrite HXeq.
    assert (HY : (IZR (Z.pos m1 * 2 ^ 53) / IZR (Z.pos m2) * IZR (Z.pos m2)
                  = IZR (Z.pos m1 * 2 ^ 53))%R) by (field; lra).
    set (Y := (IZR (Z.pos m1 * 2 ^ 53) / IZR (Z.pos m2))%R) in *.
    assert (HY1 : (IZR q <= Y)%R) by nra.
    assert (HY2 : (Y < IZR q + 1)%R) by nra.
    split.
    - apply Rmult_le_compat_r; lra.
    - apply Rmult_lt_compat_r; lra. }
  destruct (bra_R (xorb false false) q (e1 - e2 - 53)
              (new_location (Z.pos m2) r) X)
    as (m & e & fl & Heq & Hcan & Hbe & Hround & _); try lia; [exact HX|].
  exists m, e, fl, (e1 - e2 - 53 + (Zdigits2 q - 53)).
  split; [exact Heq|]. split; [exact Hcan|]. split; [lia | exact Hround].
Qed.

Lemma mul_R (m1 m2 : positive) (e1 e2 : Z) :
  canonical m1 -> canonical m2 -> -400 <= e1 <= 400 -> -400 <= e2 <= 400 ->
  exists (m : positive) (e fl E : Z),
    Double.mul (S754_finite false m1 e1) (S754_finite false m2 e2) = S754_finite false m e
    /\ canonical m /\ e1 + e2 + 52 <= e <= e1 + e2 + 54
    /\ rounds_to (IZR (Z.pos m1) * pow2 e1 * (IZR (Z.pos m2) * pow2 e2))
                 (IZR (Z.pos m) * pow2 e) fl E.
Proof.
  intros H1 H2 He1 He2.
  unfold Double.mul, SFmul, Double.prec, Double.emax.
  unfold canonical in H1, H2.
  assert (Hq : 2 ^ 104 <= Z.pos (m1 * m2) < 2 ^ 106).
  { rewrite Pos2Z.inj_mul. simpl in *. nia. }
  pose proof (digits_between (Z.pos (m1 * m2)) 105 106 ltac:(lia) ltac:(lia)
                ltac:(simpl in *; lia)) as Hdq.
  set (X := (IZR (Z.pos m1) * pow2 e1 * (IZR (Z.pos m2) * pow2 e2))%R).
  assert (HX : (IZR (Z.pos (m1 * m2)) * pow2 (e1 + e2) <= X
                < (IZR (Z.pos (m1 * m2)) + 1) * pow2 (e1 + e2))%R).
  { pose proof (pow2_pos (e1 + e2)) as Hp.
    assert (HXeq : X = (IZR (Z.pos (m1 * m2)) * pow2 (e1 + e2))%R).
    { unfold X. rewrite Pos2Z.inj_mul, mult_IZR, pow2_add. ring. }
    rewrite HXeq. split; [lra | nra]. }
  destruct (bra_R (xorb false false) (Z.pos (m1 * m2)) (e1 + e2) loc_Exact X)
    as (m & e & fl & Heq & Hcan & Hbe & Hround & _); try lia; [exact HX|].
  exists m, e, fl, (e1 + e2 + (Zdigits2 (Z.pos (m1 * m2)) - 53)).
  split; [exact Heq|]. split; [exact Hcan|]. split; [lia | exact Hround].
Qed.

Lemma add_R (m1 m2 : positive) (e1 e2 : Z) :
  canonical m1 -> canonical m2 -> -400 <= e1 <= 400 -> -400 <= e2 <= 400 ->
  exists (m : positive) (e fl E : Z),
    Double.add (S754_finite false m1 e1) (S754_finite false m2 e2) = S754_finite false m e
    /\ canonical m /\ -400 <= e <= 402
    /\ rounds_to (IZR (Z.pos m1) * pow2 e1 + IZR (Z.pos m2) * pow2 e2)
                 (IZR (Z.pos m) * pow2 e) fl E.
Proof.
  intros H1 H2 He1 He2.
  unfold Double.add, SFadd, Double.prec, Double.emax, cond_Zopp.
  set (ez := Z.min e1 e2).
  pose proof (shl_align_spec m1 e1 ez) as [_ Ha].
  pose proof (shl_align_spec m2 e2 ez) as [_ Hb].
  replace (Z.min e1 ez) with ez in Ha by lia.
  replace (Z.min e2 ez) with ez in Hb by lia.
  set (a := fst (shl_align m1 e1 ez)) in *.
  set (b := fst (shl_align m2 e2 ez)) in *.
  change (Z.pos a + Z.pos b) with (Z.pos (a + b)).
  unfold binary_normalize, binary_round.
  unfold canonical in H1, H2.
  assert (Hp1 : 1 <= 2 ^ (e1 - ez)) by (pose proof (Z.pow_pos_nonneg 2 (e1 - ez)); lia).
  assert (Hp2 : 1 <= 2 ^ (e2 - ez)) by (pose proof (Z.pow_pos_nonneg 2 (e2 - ez)); lia).
  assert (Hsum : 2 ^ 53 <= Z.pos (a + b)) by (rewrite Pos2Z.inj_add; simpl in *; nia).
  assert (Hup : Z.pos (a + b) < 2 ^ 855).
  { rewrite Pos2Z.inj_add, Ha, Hb.
    assert (2 ^ (e1 - ez) <= 2 ^ 800) by (apply Z.pow_le_mono_r; lia).
    assert (2 ^ (e2 - ez) <= 2 ^ 800) by (apply Z.pow_le_mono_r; lia).
    replace (2 ^ 855) with (2 ^ 55 * 2 ^ 800) by (rewrite <- Z.pow_add_r by lia; reflexivity).
    assert (0 < 2 ^ 800) by (apply Z.pow_pos_nonneg; lia).
    simpl (2 ^ 55). simpl (2 ^ 52) in *. simpl (2 ^ 53) in *. nia. }
  pose proof (digits_between (Z.pos (a + b)) 54 855 ltac:(lia) ltac:(lia)
                ltac:(split; [exact Hsum | exact Hup])) as Hd.
  simpl Zdigits2 in Hd.
  rewrite (fexp_normal (Z.pos (digits2_pos (a + b)) + ez)) by lia.
  pose proof (shl_align_spec (a + b) ez (Z.pos (digits2_pos (a + b)) + ez - 53)) as [Hs1 Hs2].
  replace (Z.min ez (Z.pos (digits2_pos (a + b)) + ez - 53)) with ez in Hs1, Hs2 by lia.
  rewrite Z.sub_diag in Hs2. simpl (2 ^ 0) in Hs2. rewrite Z.mul_1_r in Hs2.
  destruct (shl_align (a + b) ez (Z.pos (digits2_pos (a + b)) + ez - 53)) as [mz ez'].
  cbn [fst snd] in Hs1, Hs2. subst ez'. apply Pos2Z.inj in Hs2. subst mz.
  set (X := (IZR (Z.pos m1) * pow2 e1 + IZR (Z.pos m2) * pow2 e2)%R).
  assert (HX : (IZR (Z.pos (a + b)) * pow2 ez <= X < (IZR (Z.pos (a + b)) + 1) * pow2 ez)%R).
  { pose proof (pow2_pos ez) as Hp.
    assert (HXeq : X = (IZR (Z.pos (a + b)) * pow2 ez)%R).
    { unfold X. rewrite Pos2Z.inj_add, plus_IZR, Ha, Hb, !mult_IZR.
      rewrite <- !(pow2_IZR _) by lia.
      replace (pow2 e1) with (pow2 (e1 - ez) * pow2 ez)%R
        by (rewrite <- pow2_add; f_equal; lia).
      replace (pow2 e2) with (pow2 (e2 - ez) * pow2 ez)%R
        by (rewrite <- pow2_add; f_equal; lia).
      ring. }
    rewrite HXeq. split; [lra | nra]. }
  assert (Hdig : Z.pos (digits2_pos (a + b)) + ez <= Z.max e1 e2 + 54).
  { pose proof (digits2_bounds (a + b)) as [Hlo _].
    destruct (Z_le_gt_dec (Z.pos (digits2_pos (a + b)) + ez) (Z.max e1 e2 + 54)) as [H|H];
      [exact H|exfalso].
    assert (Hbig : 2 ^ (Z.max e1 e2 + 54 - ez) <= 2 ^ (Z.pos (digits2_pos (a + b)) - 1))
      by (apply Z.pow_le_mono_r; lia).
    rewrite Pos2Z.inj_add, Ha, Hb in Hlo.
    assert (2 ^ (e1 - ez) <= 2 ^ (Z.max e1 e2 - ez)) by (apply Z.pow_le_mono_r; lia).
    assert (2 ^ (e2 - ez) <= 2 ^ (Z.max e1 e2 - ez)) by (apply Z.pow_le_mono_r; lia).
    replace (Z.max e1 e2 + 54 - ez) with (54 + (Z.max e1 e2 - ez)) in Hbig by lia.
    rewrite Z.pow_add_r in Hbig by lia.
    assert (0 < 2 ^ (Z.max e1 e2 - ez)) by (apply Z.pow_pos_nonneg; lia).
    simpl (2 ^ 54) in Hbig. simpl (2 ^ 52) in *. simpl (2 ^ 53) in *. nia. }
  destruct (bra_R false (Z.pos (a + b)) ez loc_Exact X)
    as (m & e & fl & Heq & Hcan & Hbe & Hround & _);
    try (simpl Zdigits2; lia); [exact HX|].
  simpl Zdigits2 in *.
  exists m, e, fl, (ez + (Z.pos (digits2_pos (a + b)) - 53)).
  split; [exact Heq|]. split; [exact Hcan|]. split; [lia | exact Hround].
Qed.

(** *** The two conversions *)

Ltac push_IZR H :=
  repeat (rewrite plus_IZR in H || rewrite minus_IZR in H || rewrite mult_IZR in H).

(** A multiple of [2^j], with [j] at least the exponent of the unit in the
    last place, that is below the exact value is below the rounded value. *)
Lemma rounds_to_lower (X V : R) (fl E a j : Z) :
  rounds_to X V fl E -> E <= j ->
  (IZR a * pow2 j <= X)%R -> (IZR a * pow2 j <= V)%R.
Proof.
  intros (Hfl & [HX1 HX2] & [HV1 HV2]) Hj Ha.
  pose proof (pow2_pos E) as Hu.
  assert (Hgrid : (IZR a * pow2 j = IZR (a * 2 ^ (j - E)) * pow2 E)%R).
  { rewrite mult_IZR, <- (pow2_IZR (j - E)) by lia.
    rewrite Rmult_assoc, <- pow2_add. do 2 f_equal. lia. }
  rewrite Hgrid in *.
  assert (Hlt : (IZR (a * 2 ^ (j - E)) < IZR (fl + 1))%R).
  { rewrite plus_IZR. apply (Rmult_lt_reg_r (pow2 E)); lra. }
  apply lt_IZR in Hlt.
  assert (Hle : (IZR (a * 2 ^ (j - E)) <= IZR fl)%R) by (apply IZR_le; lia).
  assert ((IZR (a * 2 ^ (j - E)) * pow2 E <= IZR fl * pow2 E)%R)
    by (apply Rmult_le_compat_r; lra).
  lra.
Qed.

(** The rounded value is within one unit in the last place of the exact
    value, and the unit is at most [2^-52] times the exact value. *)
Lemma rounds_to_error (X V : R) (fl E : Z) :
  rounds_to X V fl E ->
  (0 < pow2 E /\ pow2 E * 4503599627370496 <= X
   /\ X - pow2 E <= V <= X + pow2 E)%R.
Proof.
  intros (Hfl & [HX1 HX2] & [HV1 HV2]).
  pose proof (pow2_pos E) as Hu.
  assert (HF : (4503599627370496 <= IZR fl)%R).
  { change 4503599627370496%R with (IZR (2 ^ 52)). apply IZR_le. lia. }
  split; [exact Hu|]. split; [nra|]. split; lra.
Qed.

Lemma lit_0_5_eq : Double.lit_0_5 = S754_finite false 4503599627370496 (-53).
Proof. reflexivity. Qed.

Lemma lit_100_eq : Double.lit_100 = S754_finite false 7036874417766400 (-46).
Proof. reflexivity. Qed.

Lemma half_value : (IZR (Z.pos 4503599627370496) * pow2 (-53) = / 2)%R.
Proof.
  assert (H : (pow2 (-53) * IZR (2 ^ 53) = 1)%R).
  { rewrite <- (pow2_IZR 53), <- pow2_add by lia. reflexivity. }
  change (IZR (2 ^ 53)) with 9007199254740992%R in H. lra.
Qed.

Lemma hundred_value : (IZR (Z.pos 7036874417766400) * pow2 (-46) = 100)%R.
Proof.
  assert (H : (pow2 (-46) * IZR (2 ^ 46) = 1)%R).
  { rewrite <- (pow2_IZR 46), <- pow2_add by lia. reflexivity. }
  change (IZR (2 ^ 46)) with 70368744177664%R in H. lra.
Qed.

Lemma canonical_half : canonical 4503599627370496.
Proof. unfold canonical. simpl. lia. Qed.

Lemma canonical_hundred : canonical 7036874417766400.
Proof. unfold canonical. simpl. lia. Qed.

Lemma transactions_per_client_zero (c : Z) :
  1 <= c <= LONG_MAX -> transactions_per_client 0 c = Some 0.
Proof.
  intros Hc. unfold transactions_per_client.
  destruct (of_long_R c ltac:(unfold LONG_MAX in Hc; lia)) as (m & e & fl & E & -> & _).
  reflexivity.
Qed.

Lemma quota_upper (T C K X VD VA u1 u3 : R) :
  (1 <= T -> 1 <= C -> 4 * T + 3 * C <= 4503599627370495 ->
   2 * T + C <= 2 * K * C + 2 * C - 1 ->
   X * C = T ->
   u1 * 4503599627370496 <= X -> VD <= X + u1 ->
   u3 * 4503599627370496 <= VD + / 2 -> VA <= VD + / 2 + u3 ->
   VA < K + 1)%R.
Proof.
  intros HT HC HB HK HX Hu1 HVD Hu3 HVA.
  assert (F1 : (VD * C <= (X + u1) * C)%R) by (apply Rmult_le_compat_r; lra).
  assert (F2 : (u1 * 4503599627370496 * C <= X * C)%R)
    by (apply Rmult_le_compat_r; lra).
  assert (F3 : (u3 * 4503599627370496 * C <= (VD + / 2) * C)%R)
    by (apply Rmult_le_compat_r; lra).
  assert (F4 : (VA * C <= (VD + / 2 + u3) * C)%R)
    by (apply Rmult_le_compat_r; lra).
  apply (Rmult_lt_reg_r C); [lra|].
  lra.
Qed.

Lemma transactions_per_client_pos (t c : Z) :
  1 <= t -> 1 <= c -> 4 * t + 3 * c < 2 ^ 52 ->
  transactions_per_client t c = Some ((2 * t + c) / (2 * c)).
Proof.
  intros Ht Hc Hb. simpl (2 ^ 52) in Hb.
  unfold transactions_per_client.
  destruct (of_long_R t ltac:(simpl; lia)) as (mt & et & flt & Et & -> & Hct & Het & _ & Hext).
  destruct (of_long_R c ltac:(simpl; lia)) as (mc & ec & flc & Ec & -> & Hcc & Hec & _ & Hexc).
  destruct (Hext ltac:(simpl; lia)) as [HvT _].
  destruct (Hexc ltac:(simpl; lia)) as [HvC _].
  destruct (div_R mt mc et ec Hct Hcc ltac:(lia) ltac:(lia))
    as (md & ed & fl1 & E1 & -> & Hcd & Hed & Hr1).
  rewrite HvT, HvC in Hr1.
  rewrite lit_0_5_eq.
  destruct (add_R md 4503599627370496 ed (-53) Hcd canonical_half ltac:(lia) ltac:(lia))
    as (ma & ea & fl3 & E3 & -> & Hca & Hea & Hr3).
  rewrite half_value in Hr3.
  set (k := (2 * t + c) / (2 * c)).
  set (VD := (IZR (Z.pos md) * pow2 ed)%R) in *.
  set (VA := (IZR (Z.pos ma) * pow2 ea)%R) in *.
  (* the integer facts about k *)
  assert (Hk : 2 * k * c <= 2 * t + c <= 2 * k * c + 2 * c - 1).
  { unfold k. pose proof (Z.div_mod (2 * t + c) (2 * c) ltac:(lia)).
    pose proof (Z.mod_pos_bound (2 * t + c) (2 * c) ltac:(lia)). lia. }
  assert (Hk0 : 0 <= k <= t).
  { split; [apply Z.div_pos; lia|].
    assert (k < t + 1); [|lia]. apply Z.div_lt_upper_bound; [lia|]. nia. }
  assert (HT : (1 <= IZR t)%R) by (apply IZR_le; lia).
  assert (HC : (1 <= IZR c)%R) by (apply IZR_le; lia).
  assert (HB : (4 * IZR t + 3 * IZR c <= 4503599627370495)%R).
  { assert (H : 4 * t + 3 * c <= 4503599627370495) by lia. apply IZR_le in H.
    push_IZR H. exact H. }
  assert (HK1 : (2 * IZR k * IZR c <= 2 * IZR t + IZR c)%R).
  { destruct Hk as [Hk1 _]. apply IZR_le in Hk1.
    push_IZR Hk1. exact Hk1. }
  assert (HK2 : (2 * IZR t + IZR c <= 2 * IZR k * IZR c + 2 * IZR c - 1)%R).
  { destruct Hk as [_ Hk2]. apply IZR_le in Hk2.
    push_IZR Hk2. exact Hk2. }
  set (X := (IZR t / IZR c)%R) in *.
  assert (HXc : (X * IZR c = IZR t)%R) by (unfold X; field; lra).
  assert (HX0 : (0 < X <= IZR t)%R).
  { split.
    - unfold X. apply Rdiv_lt_0_compat; lra.
    - nra. }
  destruct (rounds_to_error _ _ _ _ Hr1) as (Hu1 & Hu1b & HVD1 & HVD2).
  destruct (rounds_to_error _ _ _ _ Hr3) as (Hu3 & Hu3b & HVA1 & HVA2).
  (* the quotient is at least k - 1/2 *)
  assert (HE1 : E1 <= -1).
  { assert (pow2 E1 < pow2 (-1))%R.
    { assert (Hh : (pow2 (-1) = / 2)%R) by (unfold pow2; simpl; lra).
      rewrite Hh. lra. }
    apply pow2_lt_inv in H. lia. }
  assert (HVDlo : (IZR k - / 2 <= VD)%R).
  { assert (Hh : (pow2 (-1) = / 2)%R) by (unfold pow2; simpl; lra).
    replace (IZR k - / 2)%R with (IZR (2 * k - 1) * pow2 (-1))%R
      by (rewrite minus_IZR, mult_IZR, Hh; lra).
    apply (rounds_to_lower _ _ _ _ (2 * k - 1) (-1) Hr1 HE1).
    rewrite minus_IZR, mult_IZR, Hh. nra. }
  (* the sum is at least k *)
  assert (HE3 : E3 <= 0).
  { assert (pow2 E3 < pow2 0)%R.
    { change (pow2 0) with 1%R. nra. }
    apply pow2_lt_inv in H. lia. }
  assert (HVAlo : (IZR k <= VA)%R).
  { replace (IZR k) with (IZR k * pow2 0)%R by (change (pow2 0) with 1%R; lra).
    apply (rounds_to_lower _ _ _ _ k 0 Hr3 HE3).
    change (pow2 0) with 1%R. lra. }
  (* and below k + 1 *)
  assert (HVAhi : (VA < IZR k + 1)%R).
  { apply (quota_upper (IZR t) (IZR c) (IZR k) X VD VA (pow2 E1) (pow2 E3)); try assumption; lra. }
  apply to_long_R; [unfold LONG_MAX; lia | split; assumption].
Qed.

(** [(long)((double)t / (double)c + 0.5)] is the floor of [t/c + 1/2]. *)
Lemma transactions_per_client_spec (t c : Z) :
  0 <= t -> 1 <= c -> 4 * t + 3 * c < 2 ^ 52 ->
  transactions_per_client t c = Some ((2 * t + c) / (2 * c)).
Proof.
  intros Ht Hc Hb.
  destruct (Z.eq_dec t 0) as [->|Hne].
  - rewrite transactions_per_client_zero by (unfold LONG_MAX; simpl in Hb; lia).
    rewrite Z.div_small by lia. reflexivity.
  - apply transactions_per_client_pos; lia.
Qed.

Lemma floor_exists (V : R) : exists k : Z, (IZR k <= V < IZR k + 1)%R.
Proof.
  exists (up V - 1). destruct (archimed V) as [H1 H2].
  rewrite minus_IZR. lra.
Qed.

Lemma range_error (Q Rr V1 V2 V3 u1 u2 u3 K : R) :
  (1 <= Q -> 1 <= Rr -> Q * Rr <= 281474976710656 ->
   u1 * 4503599627370496 <= Q / 100 -> Q / 100 - u1 <= V1 <= Q / 100 + u1 ->
   u2 * 4503599627370496 <= V1 * Rr -> V1 * Rr - u2 <= V2 <= V1 * Rr + u2 ->
   u3 * 4503599627370496 <= V2 + / 2 -> V2 + / 2 - u3 <= V3 <= V2 + / 2 + u3 ->
   K <= V3 < K + 1 ->
   Q * Rr - 51 < 100 * K < Q * Rr + 51 /\ -1 < K <= 281474976710656)%R.
Proof.
  intros HQ HR HP Hu1 [HV1a HV1b] Hu2 [HV2a HV2b] Hu3 [HV3a HV3b] [HK1 HK2].
  assert (F1 : (u1 * 4503599627370496 * Rr <= Q / 100 * Rr)%R)
    by (apply Rmult_le_compat_r; lra).
  assert (F2 : ((Q / 100 - u1) * Rr <= V1 * Rr)%R)
    by (apply Rmult_le_compat_r; lra).
  assert (F3 : (V1 * Rr <= (Q / 100 + u1) * Rr)%R)
    by (apply Rmult_le_compat_r; lra).
  assert (F0 : (0 <= Q * Rr)%R) by (apply Rmult_le_pos; lra).
  repeat split; lra.
Qed.

Lemma query_range_zero_l (r : Z) :
  0 <= r <= LONG_MAX -> query_range 0 r = Some 0.
Proof.
  intros Hr. unfold query_range.
  destruct (Z.eq_dec r 0) as [->|Hne]; [reflexivity|].
  destruct (of_long_R r ltac:(unfold LONG_MAX in Hr; lia)) as (m & e & fl & E & -> & _).
  reflexivity.
Qed.

Lemma query_range_zero_r (q : Z) :
  0 <= q <= LONG_MAX -> query_range q 0 = Some 0.
Proof.
  intros Hq. unfold query_range.
  destruct (Z.eq_dec q 0) as [->|Hne]; [reflexivity|].
  destruct (of_long_R q ltac:(unfold LONG_MAX in Hq; lia))
    as (mq & eq & flq & Eq & -> & Hcq & Heq & _).
  rewrite lit_100_eq.
  destruct (div_R mq 7036874417766400 eq (-46) Hcq canonical_hundred ltac:(lia) ltac:(lia))
    as (md & ed & fl1 & E1 & -> & _).
  reflexivity.
Qed.

Lemma query_range_pos (q r : Z) :
  1 <= q -> 1 <= r -> q * r <= 2 ^ 48 ->
  exists k : Z, query_range q r = Some k /\ nearest_integer (q * r) 100 k.
Proof.
  intros Hq Hr Hb. simpl (2 ^ 48) in Hb.
  assert (Hq' : q <= 281474976710656) by nia.
  assert (Hr' : r <= 281474976710656) by nia.
  unfold query_range.
  destruct (of_long_R q ltac:(simpl; lia)) as (mq & eq & flq & Eq & -> & Hcq & Heq & _ & Hexq).
  destruct (of_long_R r ltac:(simpl; lia)) as (mr & er & flr & Er & -> & Hcr & Her & _ & Hexr).
  destruct (Hexq ltac:(simpl; lia)) as [HvQ _].
  destruct (Hexr ltac:(simpl; lia)) as [HvR _].
  rewrite lit_100_eq, lit_0_5_eq.
  destruct (div_R mq 7036874417766400 eq (-46) Hcq canonical_hundred ltac:(lia) ltac:(lia))
    as (m1 & e1 & fl1 & E1 & -> & Hc1 & He1 & Hr1).
  rewrite HvQ, hundred_value in Hr1.
  destruct (mul_R m1 mr e1 er Hc1 Hcr ltac:(lia) ltac:(lia))
    as (m2 & e2 & fl2 & E2 & -> & Hc2 & He2 & Hr2).
  rewrite HvR in Hr2.
  destruct (add_R m2 4503599627370496 e2 (-53) Hc2 canonical_half ltac:(lia) ltac:(lia))
    as (m3 & e3 & fl3 & E3 & -> & Hc3 & He3 & Hr3).
  rewrite half_value in Hr3.
  destruct (rounds_to_error _ _ _ _ Hr1) as (_ & Hu1 & HV1).
  destruct (rounds_to_error _ _ _ _ Hr2) as (_ & Hu2 & HV2).
  destruct (rounds_to_error _ _ _ _ Hr3) as (_ & Hu3 & HV3).
  destruct (floor_exists (IZR (Z.pos m3) * pow2 e3)) as [k Hk].
  assert (HQ : (1 <= IZR q)%R) by (apply IZR_le; lia).
  assert (HR : (1 <= IZR r)%R) by (apply IZR_le; lia).
  assert (HP : (IZR q * IZR r <= 281474976710656)%R).
  { rewrite <- mult_IZR. apply IZR_le. lia. }
  destruct (range_error _ _ _ _ _ _ _ _ _ HQ HR HP Hu1 HV1 Hu2 HV2 Hu3 HV3 Hk)
    as ([Hlo Hhi] & [Hk0 Hk1]).
  assert (Hlo' : q * r - 51 < 100 * k).
  { apply lt_IZR. rewrite minus_IZR, !mult_IZR. exact Hlo. }
  assert (Hhi' : 100 * k < q * r + 51).
  { apply lt_IZR. rewrite plus_IZR, !mult_IZR. exact Hhi. }
  assert (Hk0' : -1 < k) by (apply lt_IZR; exact Hk0).
  assert (Hk1' : k <= 281474976710656) by (apply le_IZR; exact Hk1).
  exists k. split.
  - apply to_long_R; [unfold LONG_MAX; lia | exact Hk].
  - unfold nearest_integer. lia.
Qed.

(** [(long)((double)q / 100.0 * (double)r + 0.5)] is within 1/2 of
    [q r / 100]. *)
Lemma query_range_spec (q r : Z) :
  0 <= q <= LONG_MAX -> 0 <= r <= LONG_MAX -> q * r <= 2 ^ 48 ->
  exists k : Z, query_range q r = Some k /\ nearest_integer (q * r) 100 k.
Proof.
  intros Hq Hr Hb.
  destruct (Z.eq_dec q 0) as [->|Hq0].
  { exists 0. split; [apply query_range_zero_l; lia|]. unfold nearest_integer. simpl. lia. }
  destruct (Z.eq_dec r 0) as [->|Hr0].
  { exists 0. split; [apply query_range_zero_r; lia|].
    unfold nearest_integer. rewrite Z.mul_0_r. simpl. lia. }
  apply query_range_pos; lia.
Qed.

(** ** The clients and the exit code (claims C4, C5 and C6) *)

Lemma round_half_up_nearest (num den : Z) :
  0 < den -> nearest_integer num den (round_half_up num den).
Proof.
  intros Hd. unfold nearest_integer, round_half_up. split; [exact Hd|].
  pose proof (Z.div_mod (2 * num + den) (2 * den) ltac:(lia)).
  pose proof (Z.mod_pos_bound (2 * num + den) (2 * den) ltac:(lia)). lia.
Qed.

Lemma reads_config_inj (gp : params) (cfg cfg' : config) :
  reads_config gp cfg -> reads_config gp cfg' -> cfg = cfg'.
Proof.
  intros (H1 & H2 & H3 & H4 & H5 & H6) (H1' & H2' & H3' & H4' & H5' & H6').
  destruct cfg, cfg'. cbn in *. congruence.
Qed.

Lemma reads_config_in_long (gp : params) (cfg : config) :
  reads_config gp cfg ->
  cfg_clients cfg <= LONG_MAX /\ cfg_transactions cfg <= LONG_MAX
  /\ cfg_queries cfg <= LONG_MAX /\ cfg_relations cfg <= LONG_MAX.
Proof.
  intros (H1 & H2 & H3 & H4 & H5 & H6).
  apply to_long_in_long in H1, H3, H4, H5. lia.
Qed.

Lemma client_allocs_client_calls (c tpc n qr u : Z) :
  client_allocs (client_calls c tpc n qr u)
  = map (fun i => (i, tpc, n, qr, u)) (seqZ 0 c).
Proof.
  unfold client_calls. induction (seqZ 0 c) as [|i l IH]; [reflexivity|].
  simpl. rewrite <- IH. reflexivity.
Qed.

Lemma client_allocs_delete_customer (ids : list Z) :
  client_allocs (map CallDeleteCustomer ids) = [].
Proof. induction ids as [|i l IH]; [reflexivity | exact IH]. Qed.

Section ClientTrace.

Context {C : Collaborators}.

(** [initializeClients] when the two conversions are defined: the clients
    it returns, and the three assertions it can stop at. *)
Lemma initializeClients_trace (gp : params) (m : manager_t) (w : world)
    (cfg : config) (tpc qr : Z) :
  reads_config gp cfg ->
  transactions_per_client (cfg_transactions cfg) (cfg_clients cfg) = Some tpc ->
  query_range (cfg_queries cfg) (cfg_relations cfg) = Some qr ->
  match initializeClients gp m w with
  | (Ret clients, _) =>
      random_alloc <> None
      /\ malloc_ok (ulong (cfg_clients cfg * sizeof_ptr)) = true
      /\ Forall2 (fun i cl => client_alloc i tpc (cfg_number cfg) qr (cfg_user cfg) = Some cl)
                 (seqZ 0 (cfg_clients cfg)) clients
  | (Halt o, w') =>
      o = Abort
      /\ w_stdout w' = (w_stdout w ++ "Initializing clients... ")%string
      /\ exists k,
          w_calls w' = w_calls w ++ client_calls k tpc (cfg_number cfg) qr (cfg_user cfg)
          /\ (forall i, 0 <= i < k - 1 ->
                client_alloc i tpc (cfg_number cfg) qr (cfg_user cfg) <> None)
          /\ ((k = 0 /\ random_alloc = None
               /\ w_stderr w'
                  = (w_stderr w
                     ++ assert_message "initializeClients" 313 "randomPtr != NULL")%string)
              \/ (k = 0 /\ random_alloc <> None
                  /\ malloc_ok (ulong (cfg_clients cfg * sizeof_ptr)) = false
                  /\ w_stderr w'
                     = (w_stderr w
                        ++ assert_message "initializeClients" 316 "clients != NULL")%string)
              \/ (1 <= k <= cfg_clients cfg /\ random_alloc <> None
                  /\ malloc_ok (ulong (cfg_clients cfg * sizeof_ptr)) = true
                  /\ client_alloc (k - 1) tpc (cfg_number cfg) qr (cfg_user cfg) = None
                  /\ w_stderr w'
                     = (w_stderr w
                        ++ assert_message "initializeClients" 327 "clients[i] != NULL")%string))
  end.
Proof.
  intros (Hc & Hn & Hq & Hr & Ht & Hu) Htpc Hqr.
  destruct cfg as [c n q r t u].
  cbn [cfg_clients cfg_number cfg_queries cfg_relations cfg_transactions cfg_user] in *.
  unfold initializeClients, bind, cast_long.
  rewrite Hc. unfold ret at 1. rewrite Ht. unfold ret at 1.
  rewrite Hn. unfold ret at 1. rewrite Hr. unfold ret at 1.
  rewrite Hq. unfold ret at 1. rewrite Hu. unfold ret at 1.
  unfold printf at 1. unfold assert_ptr at 1.
  destruct random_alloc as [r0|].
  2:{ split; [reflexivity|]. split; [reflexivity|].
      exists 0. split; [cbn; now rewrite app_nil_r|]. split; [intros i Hi; lia|].
      left. auto. }
  unfold ret at 1. unfold assert at 1.
  destruct (malloc_ok (ulong (c * sizeof_ptr))) eqn:Hm.
  2:{ split; [reflexivity|]. split; [reflexivity|].
      exists 0. split; [cbn; now rewrite app_nil_r|]. split; [intros i Hi; lia|].
      right. left. repeat split; discriminate || reflexivity. }
  unfold ret at 1. unfold deref at 1. rewrite Htpc. unfold ret at 1.
  unfold deref at 1. rewrite Hqr. unfold ret at 1.
  set (w0 := {| w_stdout := (w_stdout w ++ "Initializing clients... ")%string;
                w_stderr := w_stderr w; w_calls := w_calls w |}).
  unfold for_loop.
  pose proof (for_from_rule
    (fun (k : nat) (s : list client_t) w' =>
       w' = {| w_stdout := w_stdout w0; w_stderr := w_stderr w0;
               w_calls := w_calls w0 ++ client_calls (Z.of_nat k) tpc n qr u |}
       /\ Forall2 (fun i cl => client_alloc i tpc n qr u = Some cl)
                  (seqZ 0 (Z.of_nat k)) s)
    (fun o w' =>
       o = Abort /\ w_stdout w' = w_stdout w0
       /\ w_stderr w'
          = (w_stderr w0
             ++ assert_message "initializeClients" 327 "clients[i] != NULL")%string
       /\ exists k,
           w_calls w' = w_calls w0 ++ client_calls k tpc n qr u
           /\ (forall i, 0 <= i < k - 1 -> client_alloc i tpc n qr u <> None)
           /\ 1 <= k <= c /\ client_alloc (k - 1) tpc n qr u = None)) as Hrule.
  match goal with |- context [for_from ?cnt ?i ?b [] w0] =>
    specialize (Hrule b i cnt) end.
  cbv beta in Hrule.
  match type of Hrule with ?A -> _ =>
    assert (Hbody : A); [|specialize (Hrule Hbody); clear Hbody] end.
  { intros k s w' Hk [-> Hprev]. unfold bind, log_call, assert_ptr.
    cbn [w_stdout w_stderr w_calls].
    destruct (client_alloc _ _ _ _ _) as [cl|] eqn:Hcl.
    - unfold ret. split.
      + unfold client_calls. rewrite seqZ_snoc, map_app, app_assoc. reflexivity.
      + rewrite seqZ_snoc. apply Forall2_app; [exact Hprev|].
        constructor; [exact Hcl | constructor].
    - unfold bind, fprintf_stderr, halt. cbn [w_stdout w_stderr w_calls].
      split; [reflexivity|]. split; [reflexivity|]. split; [reflexivity|].
      exists (Z.of_nat (Datatypes.S k)). split.
      + unfold client_calls. rewrite seqZ_snoc, map_app, app_assoc. reflexivity.
      + split.
        * intros i Hi.
          destruct (Forall2_lookup_l _ _ _ (Z.to_nat i) i Hprev) as (cl & _ & Hi').
          { apply lookup_seqZ. lia. }
          congruence.
        * split; [lia|].
          replace (Z.of_nat (Datatypes.S k) - 1) with (0 + Z.of_nat k) by lia. exact Hcl. }
  specialize (Hrule [] w0 ltac:(
    split; [unfold client_calls; simpl; rewrite app_nil_r; reflexivity | constructor])).
  destruct (for_from _ _ _ [] w0) as [[clients|o] w1].
  - destruct Hrule as [-> Hall]. unfold puts, printf, ret.
    split; [discriminate|]. split; [reflexivity|].
    rewrite seqZ_to_nat in Hall. exact Hall.
  - destruct Hrule as (-> & Hout & Herr & k & Hcalls & Hprev & Hk & Hfail).
    split; [reflexivity|]. split; [exact Hout|].
    exists k. split; [exact Hcalls|]. split; [exact Hprev|]. right. right.
    repeat split; try assumption; try discriminate; lia.
Qed.

End ClientTrace.

Section ClientRounding.

Context {C : Collaborators}.

(** When the conversions are defined, [initializeClients] returns unless an
    allocation fails. *)
Lemma initializeClients_defined (gp : params) (m : manager_t) (w : world)
    (cfg : config) (tpc qr : Z) :
  reads_config gp cfg ->
  transactions_per_client (cfg_transactions cfg) (cfg_clients cfg) = Some tpc ->
  query_range (cfg_queries cfg) (cfg_relations cfg) = Some qr ->
  match initializeClients gp m w with
  | (Ret clients, w') =>
      w_stdout w'
      = (w_stdout w ++ "Initializing clients... done." ++ nl
         ++ summary_text (cfg_transactions cfg) (cfg_clients cfg) tpc (cfg_number cfg)
                         (cfg_relations cfg) (cfg_queries cfg) qr (cfg_user cfg))%string
      /\ w_stderr w' = w_stderr w
      /\ w_calls w'
         = w_calls w ++ client_calls (cfg_clients cfg) tpc (cfg_number cfg) qr (cfg_user cfg)
      /\ length clients = Z.to_nat (cfg_clients cfg)
  | (Halt o, _) =>
      o = Abort
      /\ (random_alloc = None
          \/ malloc_ok (ulong (cfg_clients cfg * sizeof_ptr)) = false
          \/ exists i, 0 <= i < cfg_clients cfg
                       /\ client_alloc i tpc (cfg_number cfg) qr (cfg_user cfg) = None)
  end.
Proof.
  intros (Hc & Hn & Hq & Hr & Ht & Hu) Htpc Hqr.
  destruct cfg as [c n q r t u].
  cbn [cfg_clients cfg_number cfg_queries cfg_relations cfg_transactions cfg_user] in *.
  unfold initializeClients, bind, cast_long.
  rewrite Hc. unfold ret at 1. rewrite Ht. unfold ret at 1.
  rewrite Hn. unfold ret at 1. rewrite Hr. unfold ret at 1.
  rewrite Hq. unfold ret at 1. rewrite Hu. unfold ret at 1.
  unfold printf at 1. unfold assert_ptr at 1.
  destruct random_alloc as [r0|]; [|split; [reflexivity | left; reflexivity]].
  unfold ret at 1. unfold assert at 1.
  destruct (malloc_ok (ulong (c * sizeof_ptr))) eqn:Hm;
    [|split; [reflexivity | right; left; reflexivity]].
  unfold ret at 1. unfold deref at 1. rewrite Htpc. unfold ret at 1.
  unfold deref at 1. rewrite Hqr. unfold ret at 1.
  set (w0 := {| w_stdout := (w_stdout w ++ "Initializing clients... ")%string;
                w_stderr := w_stderr w; w_calls := w_calls w |}).
  unfold for_loop.
  pose proof (for_from_rule
    (fun (k : nat) (s : list client_t) w' =>
       w' = {| w_stdout := w_stdout w0; w_stderr := w_stderr w0;
               w_calls := w_calls w0 ++ client_calls (Z.of_nat k) tpc n qr u |}
       /\ length s = k)
    (fun o _ => o = Abort
                /\ exists i, 0 <= i < c /\ client_alloc i tpc n qr u = None)) as Hrule.
  match goal with |- context [for_from ?cnt ?i ?b [] w0] =>
    specialize (Hrule b i cnt) end.
  cbv beta in Hrule.
  match type of Hrule with ?A -> _ =>
    assert (Hbody : A); [|specialize (Hrule Hbody); clear Hbody] end.
  { intros k s w' Hk [-> Hlen]. unfold bind, log_call, assert_ptr.
    cbn [w_stdout w_stderr w_calls].
    destruct (client_alloc _ _ _ _ _) as [cl|] eqn:Hcl.
    - unfold ret. split.
      + unfold client_calls. rewrite seqZ_snoc, map_app, app_assoc. reflexivity.
      + rewrite length_app. simpl. lia.
    - split; [reflexivity|]. exists (0 + Z.of_nat k). split; [lia | exact Hcl]. }
  specialize (Hrule [] w0 ltac:(
    split; [unfold client_calls; simpl; rewrite app_nil_r; reflexivity | reflexivity])).
  destruct (for_from _ _ _ [] w0) as [[clients|o] w1].
  2:{ destruct Hrule as [-> Hex]. split; [reflexivity|]. right. right. exact Hex. }
  destruct Hrule as [-> Hlen].
  unfold puts, printf, ret. cbn [w_stdout w_stderr w_calls w0].
  split; [unfold summary_text; rewrite !string_append_assoc; reflexivity|].
  split; [reflexivity|]. split; [|exact Hlen].
  assert (Hseq : seqZ 0 (Z.of_nat (Z.to_nat c)) = seqZ 0 c).
  { destruct (Z_le_gt_dec c 0) as [Hle|Hgt].
    - rewrite !seqZ_nil by lia. reflexivity.
    - rewrite Z2Nat.id by lia. reflexivity. }
  unfold client_calls. rewrite Hseq. reflexivity.
Qed.

(** A run whose arguments parse and whose setup succeeds exits with code 0. *)
Lemma run_returns (posix : bool) (argv : list string) (cfg : config) (tpc qr : Z) :
  ~ parse_fails posix argv ->
  reads_config (parsed_params posix argv) cfg ->
  (exists m w1, initializeManager (parsed_params posix argv) world_init = (Ret m, w1)) ->
  transactions_per_client (cfg_transactions cfg) (cfg_clients cfg) = Some tpc ->
  query_range (cfg_queries cfg) (cfg_relations cfg) = Some qr ->
  malloc_ok (ulong (cfg_clients cfg * sizeof_ptr)) = true ->
  (forall i, 0 <= i < cfg_clients cfg ->
     client_alloc i tpc (cfg_number cfg) qr (cfg_user cfg) <> None) ->
  thread_startup (cfg_clients cfg) = true ->
  exists w, run posix argv = (Exit 0, w).
Proof.
  intros Hok Hcfg (m & w1 & Hinit) Htpc Hqr Hmalloc Halloc Hthreads.
  destruct (parseArgs_spec posix argv world_init) as [[_ Hp]|[Hfail _]];
    [|contradiction].
  assert (Hrand : random_alloc <> None).
  { intros Hnone. unfold initializeManager, bind, printf, assert_ptr in Hinit.
    rewrite Hnone in Hinit. discriminate. }
  unfold run, main. unfold bind at 1. rewrite Hp.
  set (gp := parsed_params posix argv) in *.
  unfold bind at 1. rewrite Hinit.
  unfold bind at 1.
  pose proof (initializeClients_defined gp m w1 cfg tpc qr Hcfg Htpc Hqr) as Hcl.
  destruct (initializeClients gp m w1) as [[clients|o] w2].
  2:{ destruct Hcl as [_ [Hn|[Hn|(i & Hi & Hn)]]].
      - contradiction.
      - rewrite Hmalloc in Hn. discriminate.
      - destruct (Halloc i Hi Hn). }
  destruct Hcl as (_ & _ & _ & Hlen).
  pose proof Hcfg as (Hc & Hn & Hq & Hr & Ht & Hu).
  unfold bind at 1. unfold cast_long at 1. rewrite Hc. unfold ret at 1.
  unfold bind at 1. unfold log_call at 1.
  unfold bind at 1. unfold assert at 1. rewrite Hthreads.
  unfold ret at 1.
  unfold bind at 1. unfold printf at 1.
  unfold bind at 1. unfold log_call at 1.
  unfold bind at 1. unfold puts at 1. unfold printf at 1.
  unfold bind at 1. unfold printf at 1.
  unfold bind at 1. unfold printf at 1.
  cbn [w_stdout w_stderr w_calls].
  unfold bind at 1.
  match goal with |- context [cleanupManager gp ?mm ?ww] =>
    destruct (cleanupManager_spec gp _ mm ww Hr) as (m' & cs_clean & -> & _) end.
  cbn [w_stdout w_stderr w_calls].
  unfold bind at 1. rewrite (freeClients_spec gp _ clients _ Hc Hlen).
  unfold bind at 1. unfold puts, printf, ret. eexists. reflexivity.
Qed.


End ClientRounding.




(** C5: for a configuration read from the parameters with at least one
    client, a number of transactions that is not negative and such that
    [4 t + 3 c < 2^52], and a query percentage and a number of relations
    that are not negative with [q r <= 2^48], both conversions of
    [initializeClients] are defined; the quota is [t / c] rounded to the
    nearest integer, halves upwards; the query range is an integer nearest
    to [q r / 100]; and [initializeClients] constructs the clients
    [0 .. c-1], each with this quota and this range, unless an allocation
    fails and an assertion aborts the process. *)
Theorem C5_quota_and_query_range_are_nearest_integers :
  forall (C : Collaborators) (gp : params) (m : manager_t) (w : world) (cfg : config),
    reads_config gp cfg ->
    1 <= cfg_clients cfg ->
    0 <= cfg_transactions cfg ->
    4 * cfg_transactions cfg + 3 * cfg_clients cfg < 2 ^ 52 ->
    0 <= cfg_queries cfg ->
    0 <= cfg_relations cfg ->
    cfg_queries cfg * cfg_relations cfg <= 2 ^ 48 ->
    exists tpc qr,
      transactions_per_client (cfg_transactions cfg) (cfg_clients cfg) = Some tpc
      /\ tpc = round_half_up (cfg_transactions cfg) (cfg_clients cfg)
      /\ nearest_integer (cfg_transactions cfg) (cfg_clients cfg) tpc
      /\ query_range (cfg_queries cfg) (cfg_relations cfg) = Some qr
      /\ nearest_integer (cfg_queries cfg * cfg_relations cfg) 100 qr
      /\ match initializeClients gp m w with
         | (Ret clients, w') =>
             client_allocs (w_calls w')
             = client_allocs (w_calls w)
               ++ map (fun i => (i, tpc, cfg_number cfg, qr, cfg_user cfg))
                      (seqZ 0 (cfg_clients cfg))
             /\ length clients = Z.to_nat (cfg_clients cfg)
         | (Halt o, _) =>
             o = Abort
             /\ (random_alloc = None
                 \/ malloc_ok (ulong (cfg_clients cfg * sizeof_ptr)) = false
                 \/ exists i, 0 <= i < cfg_clients cfg
                              /\ client_alloc i tpc (cfg_number cfg) qr (cfg_user cfg) = None)
         end.
Proof.
  intros C gp m w cfg Hcfg Hc Ht Hb Hq Hr Hqr.
  destruct (reads_config_in_long gp cfg Hcfg) as (Hc' & Ht' & Hq' & Hr').
  pose proof (transactions_per_client_spec _ _ Ht Hc Hb) as Htpc.
  destruct (query_range_spec (cfg_queries cfg) (cfg_relations cfg)
              ltac:(lia) ltac:(lia) Hqr) as (qr & Hqr1 & Hqr2).
  exists (round_half_up (cfg_transactions cfg) (cfg_clients cfg)), qr.
  split; [exact Htpc|]. split; [reflexivity|].
  split; [apply round_half_up_nearest; lia|].
  split; [exact Hqr1|]. split; [exact Hqr2|].
  pose proof (initializeClients_defined gp m w cfg _ qr Hcfg Htpc Hqr1) as H.
  destruct (initializeClients gp m w) as [[clients|o] w']; [|exact H].
  destruct H as (_ & _ & Hcalls & Hlen). split; [|exact Hlen].
  rewrite Hcalls, client_allocs_app, client_allocs_client_calls. reflexivity.
Qed.

Lemma C5_witness :
  reads_config (parsed_params false argv_r4) cfg_r4
  /\ 4 * cfg_transactions cfg_r4 + 3 * cfg_clients cfg_r4 < 2 ^ 52
  /\ cfg_queries cfg_r4 * cfg_relations cfg_r4 <= 2 ^ 48
  /\ exists tpc qr,
      transactions_per_client (cfg_transactions cfg_r4) (cfg_clients cfg_r4) = Some tpc
      /\ tpc = round_half_up (cfg_transactions cfg_r4) (cfg_clients cfg_r4)
      /\ nearest_integer (cfg_transactions cfg_r4) (cfg_clients cfg_r4) tpc
      /\ query_range (cfg_queries cfg_r4) (cfg_relations cfg_r4) = Some qr
      /\ nearest_integer (cfg_queries cfg_r4 * cfg_relations cfg_r4) 100 qr
      /\ match @initializeClients Ref.collaborators (parsed_params false argv_r4)
                 Ref.manager_empty world_init with
         | (Ret clients, w') =>
             client_allocs (w_calls w')
             = client_allocs (w_calls world_init)
               ++ map (fun i => (i, tpc, cfg_number cfg_r4, qr, cfg_user cfg_r4))
                      (seqZ 0 (cfg_clients cfg_r4))
             /\ length clients = Z.to_nat (cfg_clients cfg_r4)
         | (Halt o, _) =>
             o = Abort
             /\ (@random_alloc Ref.collaborators = None
                 \/ @malloc_ok Ref.collaborators (ulong (cfg_clients cfg_r4 * sizeof_ptr))
                    = false
                 \/ exists i, 0 <= i < cfg_clients cfg_r4
                              /\ @client_alloc Ref.collaborators i tpc (cfg_number cfg_r4) qr
                                               (cfg_user cfg_r4) = None)
         end.
Proof.
  assert (H1 : reads_config (parsed_params false argv_r4) cfg_r4)
    by (unfold reads_config; repeat split; vm_compute; reflexivity).
  assert (H2 : 4 * cfg_transactions cfg_r4 + 3 * cfg_clients cfg_r4 < 2 ^ 52)
    by (simpl; lia).
  assert (H3 : cfg_queries cfg_r4 * cfg_relations cfg_r4 <= 2 ^ 48) by (simpl; lia).
  split; [exact H1|]. split; [exact H2|]. split; [exact H3|].
  apply (C5_quota_and_query_range_are_nearest_integers Ref.collaborators
           (parsed_params false argv_r4) Ref.manager_empty world_init cfg_r4 H1);
    solve [simpl; lia | exact H2 | exact H3].
Defined.

(** The claim C5 fails on the code.  With [-c3 -t -4] the arguments parse,
    the run returns, and each of the three clients is constructed with quota
    0: [-4.0 / 3.0 + 0.5] is negative and the conversion to [long] truncates
    it towards zero, while the integer nearest to [-4/3] is -1.  With
    [-t 4503599627370497] and one client the quota is 4503599627370498:
    [t + 0.5] is not a double, and the sum is rounded to the even
    neighbour. *)
Lemma C5_counterexample :
  ~ parse_fails false argv_t_minus4
  /\ reads_config (parsed_params false argv_t_minus4) cfg_t_minus4
  /\ fst (@run Ref.collaborators false argv_t_minus4) = Exit 0
  /\ client_allocs (w_calls (snd (@run Ref.collaborators false argv_t_minus4)))
     = [(0, 0, 10, 4, 80); (1, 0, 10, 4, 80); (2, 0, 10, 4, 80)]
  /\ ~ nearest_integer (cfg_transactions cfg_t_minus4) (cfg_clients cfg_t_minus4) 0
  /\ nearest_integer (cfg_transactions cfg_t_minus4) (cfg_clients cfg_t_minus4) (-1)
  /\ ~ parse_fails false argv_t_2p52
  /\ Double.to_long (parsed_params false argv_t_2p52 PARAM_TRANSACTIONS)
     = Some 4503599627370497
  /\ Double.to_long (parsed_params false argv_t_2p52 PARAM_CLIENTS) = Some 1
  /\ client_allocs (w_calls (snd (@run Ref.collaborators false argv_t_2p52)))
     = [(0, 4503599627370498, 10, 4, 80)]
  /\ ~ nearest_integer 4503599627370497 1 4503599627370498.
Proof.
  split.
  { destruct (parseArgs_spec false argv_t_minus4 world_init) as [[H _]|[_ [err H]]];
      [exact H|]. vm_compute in H. discriminate. }
  split; [unfold reads_config; repeat split; vm_compute; reflexivity|].
  split; [vm_compute; reflexivity|].
  split; [vm_compute; reflexivity|].
  split; [unfold nearest_integer; simpl; lia|].
  split; [unfold nearest_integer; simpl; lia|].
  split.
  { destruct (parseArgs_spec false argv_t_2p52 world_init) as [[H _]|[_ [err H]]];
      [exact H|]. vm_compute in H. discriminate. }
  split; [vm_compute; reflexivity|].
  split; [vm_compute; reflexivity|].
  split; [vm_compute; reflexivity|].
  unfold nearest_integer. simpl. lia.
Qed.

(** C6: when the arguments parse and give zero transactions, at least one
    client, and a query percentage and a number of relations that are not
    negative with [q r <= 2^48], and when the setup of the manager returns,
    no allocation of [initializeClients] fails and [thread_startup]
    returns, the program exits with code 0; it prints the initialisation
    summary with "Transactions/client = 0"; every client is constructed
    with a quota of 0 transactions; and the thread pool is started on these
    clients. *)
Theorem C6_zero_transactions_exits_0 :
  forall (C : Collaborators) (posix : bool) (argv : list string) (cfg : config),
    ~ parse_fails posix argv ->
    reads_config (parsed_params posix argv) cfg ->
    cfg_transactions cfg = 0 ->
    1 <= cfg_clients cfg ->
    0 <= cfg_queries cfg ->
    0 <= cfg_relations cfg ->
    cfg_queries cfg * cfg_relations cfg <= 2 ^ 48 ->
    (exists m w1, initializeManager (parsed_params posix argv) world_init = (Ret m, w1)) ->
    malloc_ok (ulong (cfg_clients cfg * sizeof_ptr)) = true ->
    (forall i nq qr pu, client_alloc i 0 nq qr pu <> None) ->
    thread_startup (cfg_clients cfg) = true ->
    exists w qr,
      run posix argv = (Exit 0, w)
      /\ w_stdout w
         = success_stdout cfg 0 qr (TIMER_DIFF_SECONDS TIMER_READ_start TIMER_READ_stop)
      /\ client_allocs (w_calls w)
         = map (fun i => (i, 0, cfg_number cfg, qr, cfg_user cfg))
               (seqZ 0 (cfg_clients cfg))
      /\ In (CallThreadStart (cfg_clients cfg)) (w_calls w).
Proof.
  intros C posix argv cfg Hok Hcfg Ht Hc Hq Hr Hqr Hinit Hmalloc Halloc Hthreads.
  destruct (reads_config_in_long _ cfg Hcfg) as (Hc' & Ht' & Hq' & Hr').
  assert (Htpc : transactions_per_client (cfg_transactions cfg) (cfg_clients cfg) = Some 0).
  { rewrite Ht. apply transactions_per_client_zero. lia. }
  destruct (query_range_spec (cfg_queries cfg) (cfg_relations cfg)
              ltac:(lia) ltac:(lia) Hqr) as (qr & Hqr1 & _).
  destruct (run_returns posix argv cfg 0 qr Hok Hcfg Hinit Htpc Hqr1 Hmalloc
              ltac:(intros i _; apply Halloc) Hthreads) as [w Hrun].
  exists w, qr. split; [exact Hrun|].
  destruct (run_spec posix argv) as [[Hfail _]|[_ H]]; [contradiction|].
  rewrite Hrun in H.
  destruct H as (_ & cfg' & tpc' & qr' & cs_init & cs_clean & Hcfg' & Htpc' & Hqr'
                 & Hout & Hcalls & Hadd & _ & _ & _ & Hclean).
  rewrite <- (reads_config_inj _ _ _ Hcfg Hcfg') in *.
  rewrite Htpc in Htpc'. injection Htpc' as <-.
  rewrite Hqr1 in Hqr'. injection Hqr' as <-.
  split; [exact Hout|]. split.
  - rewrite Hcalls, !client_allocs_app, client_allocs_client_calls,
      client_allocs_delete_customer, Hclean.
    rewrite (proj2 (add_call_ok_no_delete cs_init Hadd)). simpl.
    rewrite !app_nil_r. reflexivity.
  - rewrite Hcalls, Z2Nat.id by lia.
    apply in_or_app. right. apply in_or_app. right. simpl. tauto.
Qed.

Lemma C6_witness :
  ~ parse_fails false argv_r4_t0
  /\ reads_config (parsed_params false argv_r4_t0) cfg_r4_t0
  /\ cfg_transactions cfg_r4_t0 = 0
  /\ exists w qr,
      @run Ref.collaborators false argv_r4_t0 = (Exit 0, w)
      /\ w_stdout w
         = success_stdout cfg_r4_t0 0 qr
             (@TIMER_DIFF_SECONDS Ref.collaborators TIMER_READ_start TIMER_READ_stop)
      /\ client_allocs (w_calls w)
         = map (fun i => (i, 0, cfg_number cfg_r4_t0, qr, cfg_user cfg_r4_t0))
               (seqZ 0 (cfg_clients cfg_r4_t0))
      /\ In (CallThreadStart (cfg_clients cfg_r4_t0)) (w_calls w).
Proof.
  assert (H1 : ~ parse_fails false argv_r4_t0).
  { destruct (parseArgs_spec false argv_r4_t0 world_init) as [[H _]|[_ [err H]]];
      [exact H|]. vm_compute in H. discriminate. }
  assert (H2 : reads_config (parsed_params false argv_r4_t0) cfg_r4_t0)
    by (unfold reads_config; repeat split; vm_compute; reflexivity).
  split; [exact H1|]. split; [exact H2|]. split; [reflexivity|].
  apply (C6_zero_transactions_exits_0 Ref.collaborators false argv_r4_t0 cfg_r4_t0 H1 H2).
  - reflexivity.
  - simpl; lia.
  - simpl; lia.
  - simpl; lia.
  - simpl; lia.
  - destruct (@initializeManager Ref.collaborators (parsed_params false argv_r4_t0)
                world_init) as [[m|o] w1] eqn:E.
    + exists m, w1. reflexivity.
    + vm_compute in E. discriminate.
  - vm_compute. reflexivity.
  - intros i nq qr pu. discriminate.
  - reflexivity.
Defined.

(** * Further properties of the driver *)

(** ** More on parseArgs *)

Lemma apply_results_app rs rs' :
  forall gp e,
    apply_results (rs ++ rs') gp e
    = apply_results rs' (fst (apply_results rs gp e)) (snd (apply_results rs gp e)).
Proof.
  induction rs as [|r rs IH]; intros gp e; [reflexivity|].
  simpl. destruct (parse_step r gp e) as [gp' e']. apply IH.
Qed.

Lemma getopt_results_flags posix argv c a :
  In (Libc.GOpt c a) (getopt_results posix argv) -> is_param_flag c = true.
Proof. unfold getopt_results. apply getopt_trace_flags. Qed.

Lemma setDefaultParams_other (i : ascii) :
  is_param_flag i = false -> setDefaultParams global_params_init i = S754_zero false.
Proof.
  destruct i as [[] [] [] [] [] [] [] []]; vm_compute; congruence.
Qed.

(** [(double)z] for a negative [z] is the opposite of [(double)(-z)]. *)
Lemma of_long_neg (p : positive) :
  Double.of_long (Z.neg p) = SFopp (Double.of_long (Z.pos p)).
Proof.
  unfold Double.of_long, binary_normalize, binary_round, binary_round_aux.
  destruct (shl_align p 0 _) as [mz ez].
  destruct (shr_fexp Double.prec Double.emax (Z.pos mz) ez loc_Exact) as [mrs e'].
  destruct (shr_fexp Double.prec Double.emax
              (round_nearest_even (shr_m mrs) (loc_of_shr_record mrs)) e' loc_Exact)
    as [mrs' e''].
  destruct (shr_m mrs') as [|m|m]; try reflexivity.
  destruct (e'' <=? Double.emax - Double.prec); reflexivity.
Qed.

(** A [long] of magnitude below [2^53] survives the conversion to
    [double] and back. *)
Lemma to_long_of_long (z : Z) :
  - 2 ^ 53 < z < 2 ^ 53 -> Double.to_long (Double.of_long z) = Some z.
Proof.
  intros Hz.
  assert (Hpos : forall p, Z.pos p < 2 ^ 53 ->
            exists m e, Double.of_long (Z.pos p) = S754_finite false m e
                        /\ Z.shiftl (Z.pos m) e = Z.pos p).
  { intros p Hp.
    destruct (of_long_R (Z.pos p) ltac:(simpl in Hp |- *; lia))
      as (m & e & fl & E & Heq & _ & _ & _ & Hex).
    destruct (Hex Hp) as [Hv _]. exists m, e. split; [exact Heq|].
    assert (Ht : Double.to_long (S754_finite false m e) = Some (Z.pos p)).
    { apply to_long_R; [unfold LONG_MAX; simpl in Hp; lia | rewrite Hv; lra]. }
    unfold Double.to_long in Ht.
    destruct (in_long (Z.shiftl (Z.pos m) e)); congruence. }
  destruct z as [|p|p].
  - reflexivity.
  - destruct (Hpos p ltac:(lia)) as (m & e & -> & Hs).
    unfold Double.to_long. rewrite Hs.
    replace (in_long (Z.pos p)) with true; [reflexivity|].
    symmetry. unfold in_long, LONG_MIN, LONG_MAX. simpl in Hz. apply andb_true_iff.
    split; apply Z.leb_le; lia.
  - destruct (Hpos p ltac:(lia)) as (m & e & Heq & Hs).
    rewrite of_long_neg, Heq. unfold SFopp, Double.to_long. cbn [negb]. rewrite Hs.
    replace (in_long (- Z.pos p)) with true; [reflexivity|].
    symmetry. unfold in_long, LONG_MIN, LONG_MAX. simpl in Hz. apply andb_true_iff.
    split; apply Z.leb_le; lia.
Qed.

(** X1: whenever parsing fails, the process prints the usage text with
    [argv[0]] on the standard output, makes no call into the manager, the
    clients or the thread pool, and exits with code 1.  When [getopt]
    reports no error, so that the failure is due to non-option arguments
    only, the standard error stream holds exactly one line
    "Non-option argument: ..." for each of them, in the order [getopt]
    leaves them in. *)
Theorem X1_parse_failure_prints_usage_and_exits_1 :
  forall (C : Collaborators) (posix : bool) (argv : list string),
    parse_fails posix argv ->
    exists err,
      run posix argv
      = (Exit 1, {| w_stdout := usage_text (hd EmptyString argv); w_stderr := err;
                    w_calls := [] |})
      /\ ((forall optopt, ~ In (Libc.GErr optopt) (getopt_results posix argv)) ->
          err = nonopt_lines (getopt_nonopts posix argv)).
Proof.
  intros C posix argv Hfail.
  destruct (parseArgs_spec posix argv world_init) as [[Hok _]|[_ [err Hp]]];
    [contradiction|].
  exists err. split.
  - unfold run, main. unfold bind at 1. rewrite Hp. reflexivity.
  - intros Hsilent. pose proof (parseArgs_stderr posix argv world_init) as Herr.
    rewrite Hp in Herr.
    rewrite getopt_stderr_silent in Herr by (intros [c Hc]; exact (Hsilent c Hc)).
    exact Herr.
Qed.

Lemma X1_witness :
  parse_fails false argv_nonopts
  /\ exists err,
      @run Ref.collaborators false argv_nonopts
      = (Exit 1, {| w_stdout := usage_text (hd EmptyString argv_nonopts); w_stderr := err;
                    w_calls := [] |})
      /\ ((forall optopt, ~ In (Libc.GErr optopt) (getopt_results false argv_nonopts)) ->
          err = nonopt_lines (getopt_nonopts false argv_nonopts)).
Proof.
  assert (H : parse_fails false argv_nonopts).
  { right. vm_compute. discriminate. }
  split; [exact H|].
  exact (X1_parse_failure_prints_usage_and_exits_1 Ref.collaborators false argv_nonopts H).
Defined.

Lemma parsed_params_last (posix : bool) (argv : list string)
    (rs rs' : list Libc.getopt_result) (flag : ascii) (optarg : string) :
  getopt_results posix argv = rs ++ Libc.GOpt flag optarg :: rs' ->
  (forall a, ~ In (Libc.GOpt flag a) rs') ->
  parsed_params posix argv flag = Double.of_long (Libc.atol optarg).
Proof.
  intros Hres Hlast.
  assert (Hflag : is_param_flag flag = true).
  { apply (getopt_results_flags posix argv flag optarg).
    rewrite Hres. apply in_or_app. right. now left. }
  unfold parsed_params. rewrite Hres, apply_results_app.
  cbn [apply_results parse_step]. rewrite Hflag.
  rewrite apply_results_other by exact Hlast.
  unfold set_param. rewrite Ascii.eqb_refl. reflexivity.
Qed.

(** X2: a flag that the command line gives takes the value of its last
    occurrence: the parameter is [atol] of that argument, stored as a
    [double]. *)
Theorem X2_flag_takes_its_last_argument :
  forall (posix : bool) (argv : list string) (gp : params) (w w' : world)
         (rs rs' : list Libc.getopt_result) (flag : ascii) (optarg : string),
    parseArgs posix argv w = (Ret gp, w') ->
    getopt_results posix argv = rs ++ Libc.GOpt flag optarg :: rs' ->
    (forall a, ~ In (Libc.GOpt flag a) rs') ->
    gp flag = Double.of_long (Libc.atol optarg).
Proof.
  intros posix argv gp w w' rs rs' flag optarg Hp Hres Hlast.
  destruct (parseArgs_spec posix argv w) as [[_ Hok]|[_ [err Herr]]];
    [|rewrite Herr in Hp; discriminate].
  rewrite Hok in Hp. injection Hp as <- _.
  exact (parsed_params_last posix argv rs rs' flag optarg Hres Hlast).
Qed.

Lemma X2_witness :
  getopt_results false argv_repeated
  = [Libc.GOpt "c" "2"; Libc.GOpt "t" "7"] ++ Libc.GOpt "c" "5" :: []
  /\ parsed_params false argv_repeated "c"%char = Double.of_long 5.
Proof.
  assert (H1 : parseArgs false argv_repeated world_init
               = (Ret (parsed_params false argv_repeated), world_init)).
  { destruct (parseArgs_spec false argv_repeated world_init)
      as [[_ Hp]|[_ [err Herr]]]; [exact Hp|].
    vm_compute in Herr. discriminate. }
  assert (H2 : getopt_results false argv_repeated
               = [Libc.GOpt "c" "2"; Libc.GOpt "t" "7"] ++ Libc.GOpt "c" "5" :: [])
    by (vm_compute; reflexivity).
  split; [exact H2|].
  apply (X2_flag_takes_its_last_argument false argv_repeated _ world_init world_init
           _ _ "c"%char "5"%string H1 H2).
  intros a [].
Defined.

(** X3: when the arguments parse, [parseArgs] returns without writing to
    the standard output or the standard error stream, and it leaves every
    entry of [global_params] other than the six flags at its initial
    [+0.0]. *)
Theorem X3_accepted_arguments_parse_silently :
  forall (posix : bool) (argv : list string) (w : world),
    ~ parse_fails posix argv ->
    exists gp,
      parseArgs posix argv w = (Ret gp, w)
      /\ forall i, is_param_flag i = false -> gp i = S754_zero false.
Proof.
  intros posix argv w Hok.
  destruct (parseArgs_spec posix argv w) as [[_ Hp]|[Hfail _]]; [|contradiction].
  exists (parsed_params posix argv). split; [exact Hp|].
  intros i Hi. unfold parsed_params. rewrite apply_results_other.
  - apply setDefaultParams_other, Hi.
  - intros a Ha. apply getopt_results_flags in Ha. congruence.
Qed.

Lemma X3_witness :
  ~ parse_fails false argv_repeated
  /\ exists gp,
      parseArgs false argv_repeated world_init = (Ret gp, world_init)
      /\ forall i, is_param_flag i = false -> gp i = S754_zero false.
Proof.
  assert (H : ~ parse_fails false argv_repeated).
  { destruct (parseArgs_spec false argv_repeated world_init) as [[H _]|[_ [err H]]];
      [exact H|]. vm_compute in H. discriminate. }
  split; [exact H|].
  exact (X3_accepted_arguments_parse_silently false argv_repeated world_init H).
Defined.

(** X4: the parameters are stored as [double]s.  When the last argument
    given for a flag has a magnitude below [2^53], the value
    [(long)global_params[flag]] that the driver reads back is exactly what
    [atol] returned for that argument. *)
Theorem X4_flag_value_survives_the_double :
  forall (posix : bool) (argv : list string) (gp : params) (w w' : world)
         (rs rs' : list Libc.getopt_result) (flag : ascii) (optarg : string),
    parseArgs posix argv w = (Ret gp, w') ->
    getopt_results posix argv = rs ++ Libc.GOpt flag optarg :: rs' ->
    (forall a, ~ In (Libc.GOpt flag a) rs') ->
    - 2 ^ 53 < Libc.atol optarg < 2 ^ 53 ->
    Double.to_long (gp flag) = Some (Libc.atol optarg).
Proof.
  intros posix argv gp w w' rs rs' flag optarg Hp Hres Hlast Hz.
  destruct (parseArgs_spec posix argv w) as [[_ Hok]|[_ [err Herr]]];
    [|rewrite Herr in Hp; discriminate].
  rewrite Hok in Hp. injection Hp as <- _.
  rewrite (parsed_params_last posix argv rs rs' flag optarg Hres Hlast).
  apply to_long_of_long, Hz.
Qed.

Lemma X4_witness :
  getopt_results false argv_negative = [] ++ Libc.GOpt "t" "-123456789" :: []
  /\ Libc.atol "-123456789" = -123456789
  /\ Double.to_long (parsed_params false argv_negative "t"%char) = Some (-123456789).
Proof.
  assert (H1 : parseArgs false argv_negative world_init
               = (Ret (parsed_params false argv_negative), world_init)).
  { destruct (parseArgs_spec false argv_negative world_init)
      as [[_ Hp]|[_ [err Herr]]]; [exact Hp|].
    vm_compute in Herr. discriminate. }
  assert (H2 : getopt_results false argv_negative
               = [] ++ Libc.GOpt "t" "-123456789" :: [])
    by (vm_compute; reflexivity).
  assert (H3 : Libc.atol "-123456789" = -123456789) by (vm_compute; reflexivity).
  split; [exact H2|]. split; [exact H3|].
  rewrite <- H3.
  apply (X4_flag_value_survives_the_double false argv_negative _ world_init world_init
           _ _ "t"%char "-123456789"%string H1 H2).
  - intros a [].
  - rewrite H3. simpl. lia.
Defined.

(** ** More on initializeManager *)

Lemma add_call_ok_tables_length cs :
  Forall add_call_ok cs -> length (add_tables cs) = length cs.
Proof.
  induction 1 as [|c cs Hc _ IH]; [reflexivity|].
  destruct c; [|destruct Hc..]. simpl. now rewrite IH.
Qed.

(** X5: with a number of relations that is zero or negative,
    [initializeManager] makes no add call at all: it prints
    "Initializing manager... done." and returns the manager as
    [manager_alloc] gave it, whatever [malloc] returned for the id array,
    which is never accessed. *)
Theorem X5_no_relations_no_add_calls :
  forall (C : Collaborators) (gp : params) (n : Z) (w : world)
         (r0 : random_t) (m0 : manager_t),
    Double.to_long (gp PARAM_RELATIONS) = Some n ->
    n <= 0 ->
    random_alloc = Some r0 ->
    manager_alloc = Some m0 ->
    initializeManager gp w
    = (Ret m0, {| w_stdout := (w_stdout w ++ "Initializing manager... done." ++ nl)%string;
                  w_stderr := w_stderr w; w_calls := w_calls w |}).
Proof.
  intros C gp n w r0 m0 Hn Hle Hr Hm.
  unfold initializeManager, bind, printf, assert_ptr, cast_long.
  rewrite Hr, Hm. unfold ret at 1 2. rewrite Hn. unfold ret at 1.
  unfold init_ids. rewrite for_loop_nonpos by exact Hle.
  unfold for_loop at 1. change (Z.to_nat numTable) with 4%nat.
  cbn [for_from]. unfold bind, shuffle_ids, populate_table.
  repeat (rewrite for_loop_nonpos by exact Hle; unfold ret at 1; cbv beta iota;
          cbn [fst snd]).
  unfold ret, puts, printf. cbn [fst snd w_stdout w_stderr w_calls].
  rewrite string_append_assoc. reflexivity.
Qed.

Lemma X5_witness :
  Double.to_long (parsed_params false argv_r0 PARAM_RELATIONS) = Some 0
  /\ @initializeManager Ref.collaborators (parsed_params false argv_r0) world_init
     = (Ret Ref.manager_empty,
        {| w_stdout := (w_stdout world_init ++ "Initializing manager... done." ++ nl)%string;
           w_stderr := w_stderr world_init; w_calls := w_calls world_init |}).
Proof.
  assert (H : Double.to_long (parsed_params false argv_r0 PARAM_RELATIONS) = Some 0)
    by (vm_compute; reflexivity).
  split; [exact H|].
  apply (X5_no_relations_no_add_calls Ref.collaborators (parsed_params false argv_r0) 0
           world_init 0 Ref.manager_empty H); solve [lia | reflexivity].
Defined.

(** X6: [initializeManager] does not check the block [malloc] gives it for
    the id array.  Its behaviour is undefined exactly when both allocations
    before it succeed, the number of relations is at least 1, and either
    [malloc] returns NULL, so that the store [ids[0] = 1] goes through the
    null pointer, or the number of relations is [2^61] or more, so that
    [numRelation * sizeof(long)] wraps around and the first loop stores
    past the end of the block.  Either way this happens before any call
    into the manager. *)
Theorem X6_unchecked_malloc_of_the_id_array :
  forall (C : Collaborators) (gp : params) (n : Z) (w : world),
    Double.to_long (gp PARAM_RELATIONS) = Some n ->
    (fst (initializeManager gp w) = Halt Undefined
     <-> (random_alloc <> None /\ manager_alloc <> None /\ 1 <= n
          /\ (malloc_ok (ulong (n * sizeof_long)) = false \/ 2 ^ 61 <= n)))
    /\ (fst (initializeManager gp w) = Halt Undefined ->
        w_calls (snd (initializeManager gp w)) = w_calls w).
Proof.
  intros C gp n w Hn.
  pose proof (initializeManager_trace gp n w Hn) as Htr.
  split; [split|].
  - intros Hu. destruct (initializeManager gp w) as [[m|o] w']; [discriminate|].
    cbn [fst] in Hu. injection Hu as ->.
    destruct Htr as (_ & [(Ho & _)|[(_ & Hr & Hm & H1 & Hf & _)|(Ho & _)]]);
      try discriminate. auto.
  - intros (Hr & Hm & H1 & Hf). clear Htr.
    pose proof (to_long_in_long _ _ Hn) as Hrange.
    unfold initializeManager, bind, printf, assert_ptr, cast_long.
    destruct random_alloc as [r0|]; [|congruence].
    destruct manager_alloc as [m0|]; [|congruence].
    unfold ret at 1 2. rewrite Hn. unfold ret at 1.
    match goal with |- context [init_ids n (malloc_longs n) ?w0] =>
      destruct (init_ids_cases n w0 ltac:(lia)) as [(_ & Hok & Hlt)|[-> _]] end.
    + destruct Hf as [Hf|Hf]; [congruence | lia].
    + reflexivity.
  - intros Hu. destruct (initializeManager gp w) as [[m|o] w']; [discriminate|].
    cbn [fst snd] in *. injection Hu as ->.
    destruct Htr as (_ & [(Ho & _)|[(_ & _ & _ & _ & _ & _ & Hc)|(Ho & _)]]);
      try discriminate. exact Hc.
Qed.

Lemma X6_witness :
  (Double.to_long (parsed_params false argv_r_huge PARAM_RELATIONS) = Some 274877906944
   /\ fst (@initializeManager Ref.collaborators (parsed_params false argv_r_huge) world_init)
      = Halt Undefined)
  /\ (Double.to_long (parsed_params false argv_r_wrap PARAM_RELATIONS)
      = Some 2305843009213694464
      /\ @malloc_ok Ref.collaborators (ulong (2305843009213694464 * sizeof_long)) = true
      /\ fst (@initializeManager Ref.collaborators (parsed_params false argv_r_wrap)
                world_init)
         = Halt Undefined).
Proof.
  assert (H : Double.to_long (parsed_params false argv_r_huge PARAM_RELATIONS)
              = Some 274877906944) by (vm_compute; reflexivity).
  assert (H' : Double.to_long (parsed_params false argv_r_wrap PARAM_RELATIONS)
               = Some 2305843009213694464) by (vm_compute; reflexivity).
  split; [split; [exact H|] | split; [exact H' | split; [vm_compute; reflexivity|]]].
  - apply (proj1 (X6_unchecked_malloc_of_the_id_array Ref.collaborators
                    (parsed_params false argv_r_huge) 274877906944 world_init H)).
    split; [discriminate|]. split; [discriminate|]. split; [lia|].
    left. vm_compute. reflexivity.
  - apply (proj1 (X6_unchecked_malloc_of_the_id_array Ref.collaborators
                    (parsed_params false argv_r_wrap) 2305843009213694464 world_init H')).
    split; [discriminate|]. split; [discriminate|]. split; [lia|].
    right. lia.
Defined.



(** X8: when an add call returns false, [assert(status)] aborts the process
    at once: the failed call is the last call made, every call before it
    succeeded, and "done." is not printed. *)
Theorem X8_setup_aborts_at_the_first_failed_add :
  forall (C : Collaborators) (gp : params) (n : Z) (w w' : world),
    Double.to_long (gp PARAM_RELATIONS) = Some n ->
    random_alloc <> None ->
    manager_alloc <> None ->
    initializeManager gp w = (Halt Abort, w') ->
    w_stdout w' = (w_stdout w ++ "Initializing manager... ")%string
    /\ exists cs c,
        w_calls w' = w_calls w ++ cs ++ [c]
        /\ Forall add_call_ok cs
        /\ failed_add c.
Proof.
  intros C gp n w w' Hn Hr Hm Hrun.
  pose proof (initializeManager_trace gp n w Hn) as Htr. rewrite Hrun in Htr.
  destruct Htr as (Hout & [(_ & [H|H] & _)|[(Ho & _)|(_ & _ & _ & m0 & _ & Hstop)]]);
    try contradiction; try discriminate.
  destruct Hstop as (_ & _ & cs & c & m1 & Hcalls & Hok & Hfail & _).
  split; [exact Hout|]. exists cs, c. auto.
Qed.

Lemma X8_witness :
  @initializeManager collaborators_failing (parsed_params false argv_r4) world_init
  = (Halt Abort,
     snd (@initializeManager collaborators_failing (parsed_params false argv_r4)
            world_init))
  /\ exists cs c,
      w_calls (snd (@initializeManager collaborators_failing
                      (parsed_params false argv_r4) world_init))
      = w_calls world_init ++ cs ++ [c]
      /\ Forall add_call_ok cs
      /\ failed_add c.
Proof.
  assert (H : @initializeManager collaborators_failing (parsed_params false argv_r4)
                world_init
              = (Halt Abort,
                 snd (@initializeManager collaborators_failing
                        (parsed_params false argv_r4) world_init)))
    by (vm_compute; reflexivity).
  split; [exact H|].
  refine (proj2 (X8_setup_aborts_at_the_first_failed_add collaborators_failing
                   (parsed_params false argv_r4) 4 world_init _ _ _ _ H)).
  - vm_compute. reflexivity.
  - discriminate.
  - discriminate.
Defined.

(** ** More on cleanupManager *)

Section CleanupTrace.

Context {C : Collaborators}.

Lemma cleanupManager_trace (gp : params) (n : Z) (m : manager_t) (w : world) :
  Double.to_long (gp PARAM_RELATIONS) = Some n ->
  exists m' groups,
    cleanupManager gp m w
    = (Ret m', {| w_stdout := w_stdout w; w_stderr := w_stderr w;
                  w_calls := w_calls w ++ map CallDeleteCustomer (seqZ 1 n)
                             ++ concat groups |})
    /\ Forall2 is_cleanup_item_calls (seqZ 1 n) groups.
Proof.
  intros Hn. unfold cleanupManager, bind, cast_long. rewrite Hn. unfold ret at 1.
  unfold for_loop.
  pose proof (for_from_rule
    (fun (k : nat) (s : manager_t) w' =>
       w' = {| w_stdout := w_stdout w; w_stderr := w_stderr w;
               w_calls := w_calls w ++ map CallDeleteCustomer (seqZ 1 (Z.of_nat k)) |})
    (fun _ _ => False)) as Hrule1.
  match goal with |- context [for_from ?c ?i ?b m w] =>
    specialize (Hrule1 b i c) end.
  cbv beta in Hrule1.
  match type of Hrule1 with ?A -> _ =>
    assert (Hbody : A); [|specialize (Hrule1 Hbody); clear Hbody] end.
  { intros k s w' Hk ->. unfold bind, log_call, ret. cbn [w_stdout w_stderr w_calls].
    rewrite seqZ_snoc, map_app, <- app_assoc. simpl.
    replace (0 + Z.of_nat k + 1) with (1 + Z.of_nat k) by lia. reflexivity. }
  specialize (Hrule1 m w ltac:(simpl; rewrite app_nil_r; destruct w; reflexivity)).
  destruct (for_from _ _ _ m w) as [[m1|o] w1]; [|destruct Hrule1].
  subst w1.
  pose proof (for_from_rule
    (fun (k : nat) (s : manager_t) w' =>
       exists groups,
         w' = {| w_stdout := w_stdout w; w_stderr := w_stderr w;
                 w_calls := w_calls w ++ map CallDeleteCustomer
                                           (seqZ 1 (Z.of_nat (Z.to_nat n)))
                            ++ concat groups |}
         /\ Forall2 is_cleanup_item_calls (seqZ 1 (Z.of_nat k)) groups)
    (fun _ _ => False)) as Hrule2.
  match goal with |- context [for_from ?c ?i ?b m1 ?w1] =>
    specialize (Hrule2 b i c) end.
  cbv beta in Hrule2.
  match type of Hrule2 with ?A -> _ =>
    assert (Hbody : A); [|specialize (Hrule2 Hbody); clear Hbody] end.
  { intros k s w' Hk (groups & -> & Hg).
    unfold bind, log_call, ret. cbn [w_stdout w_stderr w_calls].
    eexists (groups ++ [[CallQueryCar (0 + Z.of_nat k + 1); CallDeleteCar _ _;
                         CallDeleteFlight _; CallQueryRoom _; CallDeleteRoom _ _]]).
    split.
    - f_equal. rewrite concat_app. simpl. rewrite <- !app_assoc. reflexivity.
    - rewrite seqZ_snoc. apply Forall2_app; [exact Hg|].
      constructor; [|constructor].
      replace (1 + Z.of_nat k) with (0 + Z.of_nat k + 1) by lia.
      eexists _, _. reflexivity. }
  match goal with |- context [for_from ?c ?i ?b m1 ?w1] =>
    specialize (Hrule2 m1 w1 ltac:(exists []; split;
                                     [simpl; rewrite app_nil_r; reflexivity | constructor]));
    destruct (for_from c i b m1 w1) as [[m2|o] w2]; [|destruct Hrule2] end.
  destruct Hrule2 as (groups & -> & Hg).
  assert (Hseq : seqZ 1 (Z.of_nat (Z.to_nat n)) = seqZ 1 n).
  { destruct (Z_le_gt_dec n 0) as [Hle|Hgt].
    - rewrite !seqZ_nil by lia. reflexivity.
    - rewrite Z2Nat.id by lia. reflexivity. }
  rewrite Hseq in *. exists m2, groups. split; [reflexivity | exact Hg].
Qed.

End CleanupTrace.

(** X9: [cleanupManager] never stops the process and prints nothing,
    whatever the delete calls return.  It first calls
    [manager_deleteCustomer_seq] for the ids [1 .. numRelation] in
    increasing order; then, for each id in the same order, it queries the
    cars, deletes the cars, deletes the flight, queries the rooms and
    deletes the rooms of that id. *)
Theorem X9_cleanup_calls_in_order :
  forall (C : Collaborators) (gp : params) (n : Z) (m : manager_t) (w : world),
    Double.to_long (gp PARAM_RELATIONS) = Some n ->
    exists m' groups,
      cleanupManager gp m w
      = (Ret m', {| w_stdout := w_stdout w; w_stderr := w_stderr w;
                    w_calls := w_calls w ++ map CallDeleteCustomer (seqZ 1 n)
                               ++ concat groups |})
      /\ Forall2 is_cleanup_item_calls (seqZ 1 n) groups.
Proof.
  intros C gp n m w Hn. exact (cleanupManager_trace gp n m w Hn).
Qed.

Lemma X9_witness :
  Double.to_long (parsed_params false argv_r4 PARAM_RELATIONS) = Some 4
  /\ exists m' groups,
      @cleanupManager Ref.collaborators (parsed_params false argv_r4) Ref.manager_empty
        world_init
      = (Ret m', {| w_stdout := w_stdout world_init; w_stderr := w_stderr world_init;
                    w_calls := w_calls world_init ++ map CallDeleteCustomer (seqZ 1 4)
                               ++ concat groups |})
      /\ Forall2 is_cleanup_item_calls (seqZ 1 4) groups.
Proof.
  assert (H : Double.to_long (parsed_params false argv_r4 PARAM_RELATIONS) = Some 4)
    by (vm_compute; reflexivity).
  split; [exact H|].
  exact (X9_cleanup_calls_in_order Ref.collaborators (parsed_params false argv_r4) 4
           Ref.manager_empty world_init H).
Defined.

(** ** More on the clients and on the whole run *)

(** The quotient by zero clients is an infinity or not a number, and its
    conversion to [long] is undefined. *)
Lemma transactions_per_client_no_client (t : Z) : transactions_per_client t 0 = None.
Proof.
  unfold transactions_per_client.
  change (Double.of_long 0) with (S754_zero false).
  destruct (Double.of_long t) as [s|s| |s m e]; reflexivity.
Qed.

(** X10: within the range of claim C5, the quota lies between 0 and the
    number of transactions; the work of all clients together, [c] times the
    quota, differs from the requested total [t] by at most [c/2]; it is
    exactly [t] when [c] divides [t]; and when [2 t < c] every client gets a
    quota of 0, so that no transaction runs at all. *)
Theorem X10_total_work_of_the_clients :
  forall (t c : Z),
    0 <= t -> 1 <= c -> 4 * t + 3 * c < 2 ^ 52 ->
    exists tpc,
      transactions_per_client t c = Some tpc
      /\ 0 <= tpc <= t
      /\ Z.abs (2 * (c * tpc - t)) <= c
      /\ (t mod c = 0 -> c * tpc = t)
      /\ (2 * t < c -> tpc = 0).
Proof.
  intros t c Ht Hc Hb.
  exists ((2 * t + c) / (2 * c)).
  split; [apply transactions_per_client_spec; assumption|].
  set (k := (2 * t + c) / (2 * c)).
  assert (Hk : 2 * k * c <= 2 * t + c < 2 * k * c + 2 * c).
  { unfold k. pose proof (Z.div_mod (2 * t + c) (2 * c) ltac:(lia)).
    pose proof (Z.mod_pos_bound (2 * t + c) (2 * c) ltac:(lia)). lia. }
  assert (Hk0 : 0 <= k) by (apply Z.div_pos; lia).
  split; [split; [exact Hk0|]|split; [|split]].
  - assert (k < t + 1); [|lia]. apply Z.div_lt_upper_bound; [lia|]. nia.
  - lia.
  - intros Hmod. apply Z.mod_divide in Hmod; [|lia]. destruct Hmod as [q Hq].
    subst t. assert (k = q) by nia. subst k. lia.
  - intros Hsmall. unfold k. apply Z.div_small. lia.
Qed.

Lemma X10_witness :
  exists tpc,
    transactions_per_client 3 8 = Some tpc
    /\ 0 <= tpc <= 3
    /\ Z.abs (2 * (8 * tpc - 3)) <= 8
    /\ (3 mod 8 = 0 -> 8 * tpc = 3)
    /\ (2 * 3 < 8 -> tpc = 0).
Proof.
  apply (X10_total_work_of_the_clients 3 8); simpl; lia.
Defined.

(** X11: for a percentage between 0 and 100 and up to [2^41] relations, the
    query range is defined and lies between 0 and the number of relations;
    it is the number of relations itself for 100 percent, and 0 for 0
    percent. *)
Theorem X11_query_range_is_within_the_relations :
  forall (q r : Z),
    0 <= q <= 100 -> 0 <= r <= 2 ^ 41 ->
    exists qr,
      query_range q r = Some qr
      /\ 0 <= qr <= r
      /\ (q = 100 -> qr = r)
      /\ (q = 0 -> qr = 0).
Proof.
  intros q r Hq Hr. simpl (2 ^ 41) in Hr.
  destruct (query_range_spec q r ltac:(unfold LONG_MAX; lia) ltac:(unfold LONG_MAX; lia)
              ltac:(simpl; nia)) as (qr & Heq & _ & Hn).
  exists qr. split; [exact Heq|].
  assert (Hb : -50 <= qr * 100 - q * r <= 50) by lia.
  split; [nia|]. split; intros ->; lia.
Qed.

Lemma X11_witness :
  exists qr,
    query_range 90 65536 = Some qr
    /\ 0 <= qr <= 65536
    /\ (90 = 100 -> qr = 65536)
    /\ (90 = 0 -> qr = 0).
Proof.
  apply (X11_query_range_is_within_the_relations 90 65536); simpl; lia.
Defined.

(** X12: with zero clients the quota is
    [(long)((double)numTransaction / 0.0 + 0.5)], the conversion to [long]
    of an infinity or of a NaN, which C leaves undefined.  A run whose
    arguments parse to 0 clients and whose setup of the manager returns
    reaches this conversion, unless [malloc(0)] returned NULL for the array
    of clients: then [assert(clients != NULL)] aborts the process before
    it.  What the process does after the undefined conversion is not fixed
    by the language. *)
Theorem X12_zero_clients_quota_is_undefined :
  forall (C : Collaborators) (posix : bool) (argv : list string) (cfg : config)
         (m : manager_t) (w1 : world),
    ~ parse_fails posix argv ->
    reads_config (parsed_params posix argv) cfg ->
    cfg_clients cfg = 0 ->
    initializeManager (parsed_params posix argv) world_init = (Ret m, w1) ->
    transactions_per_client (cfg_transactions cfg) (cfg_clients cfg) = None
    /\ fst (run posix argv) = (if malloc_ok 0 then Undefined else Abort)
    /\ w_calls (snd (run posix argv)) = w_calls w1.
Proof.
  intros C posix argv cfg m w1 Hok (Hc & Hn & Hq & Hr & Ht & Hu) Hzero Hinit.
  split; [rewrite Hzero; apply transactions_per_client_no_client|].
  destruct (parseArgs_spec posix argv world_init) as [[_ Hp]|[Hfail _]];
    [|contradiction].
  assert (Hrand : random_alloc <> None).
  { intros Hnone. unfold initializeManager, bind, printf, assert_ptr in Hinit.
    rewrite Hnone in Hinit. discriminate. }
  destruct (run posix argv) as [o w] eqn:Hrun. cbn [fst snd].
  unfold run, main in Hrun. unfold bind at 1 in Hrun. rewrite Hp in Hrun.
  unfold bind at 1 in Hrun. rewrite Hinit in Hrun.
  unfold bind at 1 in Hrun. unfold initializeClients, bind, cast_long in Hrun.
  rewrite Hc, Ht, Hn, Hr, Hq, Hu in Hrun.
  unfold ret, printf, assert_ptr, assert in Hrun.
  destruct random_alloc as [r0|]; [|congruence].
  rewrite Hzero in Hrun. change (ulong (0 * sizeof_ptr)) with 0 in Hrun.
  destruct (malloc_ok 0).
  - unfold deref in Hrun. rewrite transactions_per_client_no_client in Hrun.
    injection Hrun as <- <-. split; reflexivity.
  - injection Hrun as <- <-. split; reflexivity.
Qed.

Lemma X12_witness :
  ~ parse_fails false argv_c0
  /\ reads_config (parsed_params false argv_c0) cfg_c0
  /\ cfg_clients cfg_c0 = 0
  /\ exists m w1,
      @initializeManager Ref.collaborators (parsed_params false argv_c0) world_init
      = (Ret m, w1)
      /\ transactions_per_client (cfg_transactions cfg_c0) (cfg_clients cfg_c0) = None
      /\ fst (@run Ref.collaborators false argv_c0)
         = (if @malloc_ok Ref.collaborators 0 then Undefined else Abort)
      /\ w_calls (snd (@run Ref.collaborators false argv_c0)) = w_calls w1.
Proof.
  assert (H1 : ~ parse_fails false argv_c0).
  { destruct (parseArgs_spec false argv_c0 world_init) as [[H _]|[_ [err H]]];
      [exact H|]. vm_compute in H. discriminate. }
  assert (H2 : reads_config (parsed_params false argv_c0) cfg_c0)
    by (unfold reads_config; repeat split; vm_compute; reflexivity).
  split; [exact H1|]. split; [exact H2|]. split; [reflexivity|].
  destruct (@initializeManager Ref.collaborators (parsed_params false argv_c0) world_init)
    as [[m|o] w1] eqn:E.
  - exists m, w1. split; [reflexivity|].
    exact (X12_zero_clients_quota_is_undefined Ref.collaborators false argv_c0 cfg_c0
             m w1 H1 H2 eq_refl E).
  - vm_compute in E. discriminate.
Defined.

Section RunTrace.

Context {C : Collaborators}.

Lemma run_success_trace (posix : bool) (argv : list string) :
  match run posix argv with
  | (Exit 0, w) =>
      exists cfg tpc qr cs_init groups,
        reads_config (parsed_params posix argv) cfg
        /\ transactions_per_client (cfg_transactions cfg) (cfg_clients cfg) = Some tpc
        /\ query_range (cfg_queries cfg) (cfg_relations cfg) = Some qr
        /\ w_stderr w = EmptyString
        /\ w_calls w
           = cs_init
             ++ client_calls (cfg_clients cfg) tpc (cfg_number cfg) qr (cfg_user cfg)
             ++ [CallThreadStartup (cfg_clients cfg);
                 CallThreadStart (Z.max 0 (cfg_clients cfg))]
             ++ map CallDeleteCustomer (seqZ 1 (cfg_relations cfg))
             ++ concat groups
             ++ teardown_calls (cfg_clients cfg)
        /\ Forall add_call_ok cs_init
        /\ add_tables cs_init
           = concat (map (replicate (Z.to_nat (cfg_relations cfg))) (seqZ 0 4))
        /\ Forall2 is_cleanup_item_calls (seqZ 1 (cfg_relations cfg)) groups
  | _ => True
  end.
Proof.
  destruct (parseArgs_spec posix argv world_init) as [[Hok Hp]|[Hfail [err Hp]]].
  2:{ unfold run, main. unfold bind at 1. rewrite Hp. exact I. }
  unfold run, main. unfold bind at 1. rewrite Hp.
  set (gp := parsed_params posix argv).
  unfold bind at 1.
  destruct (initializeManager gp world_init) as [[m|o] w1] eqn:Hinit.
  2:{ assert (Ho : abnormal o).
      { destruct (Double.to_long (gp PARAM_RELATIONS)) as [r|] eqn:Hr.
        - pose proof (initializeManager_spec gp r world_init Hr) as H.
          rewrite Hinit in H. destruct H as [-> | ->]; [left | right]; reflexivity.
        - unfold initializeManager, bind, printf, assert_ptr, cast_long in Hinit.
          destruct random_alloc; [|injection Hinit as <- _; now left].
          destruct manager_alloc; [|injection Hinit as <- _; now left].
          unfold ret at 1 2 in Hinit. rewrite Hr in Hinit.
          injection Hinit as <- _. now right. }
      destruct Ho as [-> | ->]; exact I. }
  unfold bind at 1.
  pose proof (initializeClients_spec gp m w1) as Hcl.
  destruct (initializeClients gp m w1) as [[clients|o] w2];
    [|destruct Hcl as [-> | ->]; exact I].
  destruct Hcl as (cfg & tpc & qr & Hcfg & Htpc & Hqr & Hout2 & Herr2 & Hcalls2 & Hlen).
  pose proof Hcfg as (Hc & Hn & Hq & Hr & Ht & Hu).
  pose proof (initializeManager_trace gp _ world_init Hr) as Hm.
  rewrite Hinit in Hm.
  destruct Hm as (Hout1 & Herr1 & _ & _ & m0 & cs_init & _ & Hcalls1 & Hok1 & _ & Htabs & _).
  unfold bind at 1. unfold cast_long at 1. rewrite Hc. unfold ret at 1.
  unfold bind at 1. unfold log_call at 1.
  unfold bind at 1. unfold assert at 1.
  destruct (thread_startup (cfg_clients cfg)); [|exact I].
  unfold ret at 1.
  unfold bind at 1. unfold printf at 1.
  unfold bind at 1. unfold log_call at 1.
  unfold bind at 1. unfold puts at 1. unfold printf at 1.
  unfold bind at 1. unfold printf at 1.
  unfold bind at 1. unfold printf at 1.
  cbn [w_stdout w_stderr w_calls].
  unfold bind at 1.
  match goal with |- context [cleanupManager gp ?mm ?ww] =>
    destruct (cleanupManager_trace gp _ mm ww Hr) as (m' & groups & -> & Hg) end.
  cbn [w_stdout w_stderr w_calls].
  unfold bind at 1. rewrite (freeClients_spec gp _ clients _ Hc Hlen).
  unfold bind, log_call, puts, printf, ret. cbn [w_stdout w_stderr w_calls].
  exists cfg, tpc, qr, cs_init, groups.
  split; [exact Hcfg|]. split; [exact Htpc|]. split; [exact Hqr|].
  split; [rewrite Herr2, Herr1; reflexivity|].
  split.
  { rewrite Hcalls2, Hcalls1, Hlen. cbn [w_calls world_init].
    replace (Z.of_nat (Z.to_nat (cfg_clients cfg))) with (Z.max 0 (cfg_clients cfg)) by lia.
    unfold teardown_calls. rewrite <- !app_assoc. reflexivity. }
  split; [exact Hok1|]. split; [exact Htabs | exact Hg].
Qed.

End RunTrace.

(** X13: a run that returns 0 from [main] writes nothing to the standard
    error stream. *)
Theorem X13_successful_run_leaves_stderr_empty :
  forall (C : Collaborators) (posix : bool) (argv : list string) (w : world),
    run posix argv = (Exit 0, w) -> w_stderr w = EmptyString.
Proof.
  intros C posix argv w Hrun.
  pose proof (run_success_trace posix argv) as H. rewrite Hrun in H.
  destruct H as (cfg & tpc & qr & cs_init & groups & _ & _ & _ & Herr & _).
  exact Herr.
Qed.

Lemma X13_witness :
  @run Ref.collaborators false argv_r4
  = (Exit 0, snd (@run Ref.collaborators false argv_r4))
  /\ w_stderr (snd (@run Ref.collaborators false argv_r4)) = EmptyString.
Proof.
  assert (H : @run Ref.collaborators false argv_r4
              = (Exit 0, snd (@run Ref.collaborators false argv_r4)))
    by (vm_compute; reflexivity).
  split; [exact H|].
  exact (X13_successful_run_leaves_stderr_empty Ref.collaborators false argv_r4 _ H).
Defined.

(** X14: in a run that returns 0 from [main] the logged calls come phase
    by phase, and the log is exactly this sequence.  First the add calls of
    the setup, every one successful, table by table; then [client_alloc]
    for the clients [0 .. c-1]; then [thread_startup] with the number of
    clients and [thread_start] on the clients; then the calls of the
    cleanup: [manager_deleteCustomer_seq] for the ids [1 .. r], followed for
    each id by the query and delete calls on cars, flights and rooms; then
    [client_free] for the clients [0 .. c-1], [manager_free] and
    [thread_shutdown].  (The calls of random.h and the call of
    [manager_alloc] are not part of the log.) *)
Theorem X14_calls_of_a_successful_run :
  forall (C : Collaborators) (posix : bool) (argv : list string) (w : world),
    run posix argv = (Exit 0, w) ->
    exists cfg tpc qr cs_init groups,
      reads_config (parsed_params posix argv) cfg
      /\ w_calls w
         = cs_init
           ++ client_calls (cfg_clients cfg) tpc (cfg_number cfg) qr (cfg_user cfg)
           ++ [CallThreadStartup (cfg_clients cfg);
               CallThreadStart (Z.max 0 (cfg_clients cfg))]
           ++ map CallDeleteCustomer (seqZ 1 (cfg_relations cfg))
           ++ concat groups
           ++ map CallClientFree (seqZ 0 (cfg_clients cfg))
           ++ [CallManagerFree; CallThreadShutdown]
      /\ Forall add_call_ok cs_init
      /\ add_tables cs_init
         = replicate (Z.to_nat (cfg_relations cfg)) 0
           ++ replicate (Z.to_nat (cfg_relations cfg)) 1
           ++ replicate (Z.to_nat (cfg_relations cfg)) 2
           ++ replicate (Z.to_nat (cfg_relations cfg)) 3
      /\ Forall2 is_cleanup_item_calls (seqZ 1 (cfg_relations cfg)) groups.
Proof.
  intros C posix argv w Hrun.
  pose proof (run_success_trace posix argv) as H. rewrite Hrun in H.
  destruct H as (cfg & tpc & qr & cs_init & groups & Hcfg & _ & _ & _ & Hcalls & Hok
                 & Htabs & Hg).
  exists cfg, tpc, qr, cs_init, groups.
  split; [exact Hcfg|]. split; [exact Hcalls|]. split; [exact Hok|].
  split; [|exact Hg].
  rewrite Htabs. change (seqZ 0 4) with [0; 1; 2; 3]. simpl. rewrite app_nil_r.
  reflexivity.
Qed.

Lemma X14_witness :
  @run Ref.collaborators false argv_r4_t0
  = (Exit 0, snd (@run Ref.collaborators false argv_r4_t0))
  /\ exists cfg tpc qr cs_init groups,
      reads_config (parsed_params false argv_r4_t0) cfg
      /\ w_calls (snd (@run Ref.collaborators false argv_r4_t0))
         = cs_init
           ++ client_calls (cfg_clients cfg) tpc (cfg_number cfg) qr (cfg_user cfg)
           ++ [CallThreadStartup (cfg_clients cfg);
               CallThreadStart (Z.max 0 (cfg_clients cfg))]
           ++ map CallDeleteCustomer (seqZ 1 (cfg_relations cfg))
           ++ concat groups
           ++ map CallClientFree (seqZ 0 (cfg_clients cfg))
           ++ [CallManagerFree; CallThreadShutdown]
      /\ Forall add_call_ok cs_init
      /\ add_tables cs_init
         = replicate (Z.to_nat (cfg_relations cfg)) 0
           ++ replicate (Z.to_nat (cfg_relations cfg)) 1
           ++ replicate (Z.to_nat (cfg_relations cfg)) 2
           ++ replicate (Z.to_nat (cfg_relations cfg)) 3
      /\ Forall2 is_cleanup_item_calls (seqZ 1 (cfg_relations cfg)) groups.
Proof.
  assert (H : @run Ref.collaborators false argv_r4_t0
              = (Exit 0, snd (@run Ref.collaborators false argv_r4_t0)))
    by (vm_compute; reflexivity).
  split; [exact H|].
  exact (X14_calls_of_a_successful_run Ref.collaborators false argv_r4_t0 _ H).
Defined.

(** X15: when the conversions of the quota and of the query range are
    defined and the clients are fewer than [2^61], so that the size of
    their array does not wrap around, [initializeClients] stops the process
    only by a failed assertion on an allocation, which writes its
    diagnostic to the standard error stream.  It aborts at the first
    [client_alloc] that returns NULL: the clients before it were requested
    in order and obtained, no client after it is requested, and neither
    "done." nor the summary is printed. *)
Theorem X15_clients_abort_at_the_first_failed_client_alloc :
  forall (C : Collaborators) (gp : params) (m : manager_t) (w w' : world) (o : outcome)
         (cfg : config) (tpc qr : Z),
    reads_config gp cfg ->
    cfg_clients cfg < 2 ^ 61 ->
    transactions_per_client (cfg_transactions cfg) (cfg_clients cfg) = Some tpc ->
    query_range (cfg_queries cfg) (cfg_relations cfg) = Some qr ->
    initializeClients gp m w = (Halt o, w') ->
    o = Abort
    /\ w_stdout w' = (w_stdout w ++ "Initializing clients... ")%string
    /\ exists k,
        w_calls w' = w_calls w ++ client_calls k tpc (cfg_number cfg) qr (cfg_user cfg)
        /\ (forall i, 0 <= i < k - 1 ->
              client_alloc i tpc (cfg_number cfg) qr (cfg_user cfg) <> None)
        /\ ((k = 0 /\ random_alloc = None
             /\ w_stderr w'
                = (w_stderr w
                   ++ assert_message "initializeClients" 313 "randomPtr != NULL")%string)
            \/ (k = 0 /\ random_alloc <> None
                /\ malloc_ok (ulong (cfg_clients cfg * sizeof_ptr)) = false
                /\ w_stderr w'
                   = (w_stderr w
                      ++ assert_message "initializeClients" 316 "clients != NULL")%string)
            \/ (1 <= k <= cfg_clients cfg /\ random_alloc <> None
                /\ malloc_ok (ulong (cfg_clients cfg * sizeof_ptr)) = true
                /\ client_alloc (k - 1) tpc (cfg_number cfg) qr (cfg_user cfg) = None
                /\ w_stderr w'
                   = (w_stderr w
                      ++ assert_message "initializeClients" 327
                           "clients[i] != NULL")%string)).
Proof.
  intros C gp m w w' o cfg tpc qr Hcfg _ Htpc Hqr Hrun.
  pose proof (initializeClients_trace gp m w cfg tpc qr Hcfg Htpc Hqr) as H.
  rewrite Hrun in H. exact H.
Qed.

Lemma X15_witness :
  reads_config (parsed_params false argv_c3) cfg_c3
  /\ cfg_clients cfg_c3 < 2 ^ 61
  /\ @initializeClients collaborators_failing (parsed_params false argv_c3)
       Ref.manager_empty world_init
     = (Halt Abort,
        {| w_stdout := "Initializing clients... ";
           w_stderr := @assert_message collaborators_failing "initializeClients" 327
                         "clients[i] != NULL";
           w_calls := client_calls 3 22369621 10 4 80 |})
  /\ exists k,
      client_calls 3 22369621 10 4 80
      = w_calls world_init ++ client_calls k 22369621 (cfg_number cfg_c3) 4 (cfg_user cfg_c3)
      /\ (forall i, 0 <= i < k - 1 ->
            @client_alloc collaborators_failing i 22369621 (cfg_number cfg_c3) 4
              (cfg_user cfg_c3) <> None)
      /\ 1 <= k <= cfg_clients cfg_c3
      /\ @client_alloc collaborators_failing (k - 1) 22369621 (cfg_number cfg_c3) 4
           (cfg_user cfg_c3) = None.
Proof.
  assert (H1 : reads_config (parsed_params false argv_c3) cfg_c3)
    by (unfold reads_config; repeat split; vm_compute; reflexivity).
  assert (H0 : cfg_clients cfg_c3 < 2 ^ 61) by (vm_compute; reflexivity).
  assert (H2 : @initializeClients collaborators_failing (parsed_params false argv_c3)
                 Ref.manager_empty world_init
               = (Halt Abort,
                  {| w_stdout := "Initializing clients... ";
                     w_stderr := @assert_message collaborators_failing "initializeClients"
                                   327 "clients[i] != NULL";
                     w_calls := client_calls 3 22369621 10 4 80 |}))
    by (vm_compute; reflexivity).
  split; [exact H1|]. split; [exact H0|]. split; [exact H2|].
  assert (H3 : transactions_per_client (cfg_transactions cfg_c3) (cfg_clients cfg_c3)
               = Some 22369621) by (vm_compute; reflexivity).
  assert (H4 : query_range (cfg_queries cfg_c3) (cfg_relations cfg_c3) = Some 4)
    by (vm_compute; reflexivity).
  destruct (X15_clients_abort_at_the_first_failed_client_alloc collaborators_failing
              (parsed_params false argv_c3) Ref.manager_empty world_init _ Abort cfg_c3
              22369621 4 H1 H0 H3 H4 H2)
    as (_ & _ & k & Hcalls & Hprev & [(_ & Hr & _)|[(_ & _ & Hm & _)|(Hk & _ & _ & Hf & _)]]).
  - vm_compute in Hr. discriminate.
  - vm_compute in Hm. discriminate.
  - exists k. auto.
Defined.

(** X16: for fewer than [2^61] clients, the array [initializeClients]
    returns holds at each index [i] of [0 .. numClient - 1] the client that
    [client_alloc] returned for [i], and [freeClients] on it calls
    [client_free] on the entries [0], ..., [numClient - 1] in this order,
    reads no entry past them, prints nothing and returns. *)
Theorem X16_freeClients_after_initializeClients :
  forall (C : Collaborators) (gp : params) (m : manager_t) (w w1 w2 : world)
         (clients : list client_t) (cfg : config) (tpc qr : Z),
    reads_config gp cfg ->
    cfg_clients cfg < 2 ^ 61 ->
    transactions_per_client (cfg_transactions cfg) (cfg_clients cfg) = Some tpc ->
    query_range (cfg_queries cfg) (cfg_relations cfg) = Some qr ->
    initializeClients gp m w = (Ret clients, w1) ->
    Forall2 (fun i cl => client_alloc i tpc (cfg_number cfg) qr (cfg_user cfg) = Some cl)
            (seqZ 0 (cfg_clients cfg)) clients
    /\ freeClients gp clients w2
       = (Ret tt, {| w_stdout := w_stdout w2; w_stderr := w_stderr w2;
                     w_calls := w_calls w2
                                ++ map CallClientFree (seqZ 0 (cfg_clients cfg)) |}).
Proof.
  intros C gp m w w1 w2 clients cfg tpc qr Hcfg _ Htpc Hqr Hrun.
  pose proof (initializeClients_trace gp m w cfg tpc qr Hcfg Htpc Hqr) as H.
  rewrite Hrun in H. destruct H as (_ & _ & Hall).
  split; [exact Hall|].
  destruct Hcfg as (Hc & _).
  apply (freeClients_spec gp _ clients w2 Hc).
  rewrite <- (Forall2_length _ _ _ Hall), length_seqZ. reflexivity.
Qed.

Lemma X16_witness :
  reads_config (parsed_params false argv_c3) cfg_c3
  /\ cfg_clients cfg_c3 < 2 ^ 61
  /\ exists clients w1,
      @initializeClients Ref.collaborators (parsed_params false argv_c3) Ref.manager_empty
        world_init = (Ret clients, w1)
      /\ Forall2 (fun i cl => @client_alloc Ref.collaborators i 22369621
                                (cfg_number cfg_c3) 4 (cfg_user cfg_c3) = Some cl)
                 (seqZ 0 (cfg_clients cfg_c3)) clients
      /\ @freeClients Ref.collaborators (parsed_params false argv_c3) clients w1
         = (Ret tt, {| w_stdout := w_stdout w1; w_stderr := w_stderr w1;
                       w_calls := w_calls w1
                                  ++ [CallClientFree 0; CallClientFree 1; CallClientFree 2] |}).
Proof.
  assert (H1 : reads_config (parsed_params false argv_c3) cfg_c3)
    by (unfold reads_config; repeat split; vm_compute; reflexivity).
  assert (H0 : cfg_clients cfg_c3 < 2 ^ 61) by (vm_compute; reflexivity).
  assert (H3 : transactions_per_client (cfg_transactions cfg_c3) (cfg_clients cfg_c3)
               = Some 22369621) by (vm_compute; reflexivity).
  assert (H4 : query_range (cfg_queries cfg_c3) (cfg_relations cfg_c3) = Some 4)
    by (vm_compute; reflexivity).
  split; [exact H1|]. split; [exact H0|].
  destruct (@initializeClients Ref.collaborators (parsed_params false argv_c3)
              Ref.manager_empty world_init) as [[clients|o] w1] eqn:E.
  - exists clients, w1. split; [reflexivity|].
    exact (X16_freeClients_after_initializeClients Ref.collaborators
             (parsed_params false argv_c3) Ref.manager_empty world_init w1 w1 clients
             cfg_c3 22369621 4 H1 H0 H3 H4 E).
  - vm_compute in E. discriminate.
Defined.
